(** * Arc Viewer: a shallow embedding of the browser components

    The components under [public/components] are modelled one module per
    source file.  JavaScript strings are Rocq strings whose characters are
    read as the code units U+0000 to U+00FF; the primitives that classify
    characters (white space, letter case, digits) are written for that
    range.  Literals of the source that contain characters outside the range
    (icons, check marks) are kept as their UTF-8 bytes: they are only stored,
    concatenated and compared, never classified. *)

From Stdlib Require Import String Ascii List Bool Arith ZArith Lia.
From Stdlib Require Import Decimal DecimalString DecimalNat.
Import ListNotations.
Local Open Scope string_scope.
Set Warnings "-register-all".

(** ** JavaScript string primitives used by the components *)

Module JS.

(** WhiteSpace and LineTerminator code units below U+0100: TAB, LF, VT, FF,
    CR, SP and NBSP.  [trim], the regular expression class [\s] and
    [parseInt] share this set. *)
Definition isWhiteSpace (c : ascii) : bool :=
  let n := nat_of_ascii c in
  (((9 <=? n) && (n <=? 13)) || (n =? 32) || (n =? 160))%nat.

(** [String.prototype.toLowerCase] on one code unit: A-Z, and the Latin-1
    capitals U+00C0..U+00DE except the multiplication sign U+00D7. *)
Definition lowerChar (c : ascii) : ascii :=
  let n := nat_of_ascii c in
  if (((65 <=? n) && (n <=? 90))
      || ((192 <=? n) && (n <=? 222) && negb (n =? 215)))%nat
  then ascii_of_nat (n + 32) else c.

Fixpoint toLowerCase (s : string) : string :=
  match s with
  | EmptyString => EmptyString
  | String c r => String (lowerChar c) (toLowerCase r)
  end.

Fixpoint trimStart (s : string) : string :=
  match s with
  | EmptyString => EmptyString
  | String c r => if isWhiteSpace c then trimStart r else s
  end.

Fixpoint trimEnd (s : string) : string :=
  match s with
  | EmptyString => EmptyString
  | String c r =>
      match trimEnd r with
      | EmptyString => if isWhiteSpace c then EmptyString else String c EmptyString
      | r' => String c r'
      end
  end.

Definition trim (s : string) : string := trimEnd (trimStart s).

(** [s.startsWith(p)] *)
Fixpoint startsWith (s p : string) : bool :=
  match p, s with
  | EmptyString, _ => true
  | String a p', String b s' => Ascii.eqb a b && startsWith s' p'
  | String _ _, EmptyString => false
  end.

(** [s.includes(t)] *)
Fixpoint includes (s t : string) : bool :=
  startsWith s t
  || match s with
     | EmptyString => false
     | String _ r => includes r t
     end.

(** [s.split(sep)] for a separator of one character. *)
Fixpoint splitChar (sep : ascii) (s : string) : list string :=
  match s with
  | EmptyString => [EmptyString]
  | String c r =>
      if Ascii.eqb c sep then EmptyString :: splitChar sep r
      else match splitChar sep r with
           | p :: ps => String c p :: ps
           | [] => [String c EmptyString]
           end
  end.

(** [s.split(/\s+/)]: a maximal run of white space is one separator; the
    flag records that the previous character belonged to a run. *)
Fixpoint splitWsFrom (inRun : bool) (s : string) : list string :=
  match s with
  | EmptyString => [EmptyString]
  | String c r =>
      if isWhiteSpace c then
        if inRun then splitWsFrom true r
        else EmptyString :: splitWsFrom true r
      else match splitWsFrom false r with
           | p :: ps => String c p :: ps
           | [] => [String c EmptyString]
           end
  end.

Definition splitWs (s : string) : list string := splitWsFrom false s.

(** [parts.join(sep)] *)
Fixpoint join (sep : string) (parts : list string) : string :=
  match parts with
  | [] => EmptyString
  | [p] => p
  | p :: ps => p ++ sep ++ join sep ps
  end.

(** [Boolean(s)] on a string: the empty string is the only falsy one. *)
Definition truthy (s : string) : bool :=
  match s with
  | EmptyString => false
  | String _ _ => true
  end.

(** Template interpolation of a non-negative integer: its decimal digits. *)
Definition numberToString (n : nat) : string :=
  NilEmpty.string_of_uint (Nat.to_uint n).

(** Value of a character as a digit of the given radix. *)
Definition digitVal (radix : Z) (c : ascii) : option Z :=
  let n := Z.of_nat (nat_of_ascii c) in
  let d :=
    if ((48 <=? n) && (n <=? 57))%Z then Some (n - 48)%Z
    else if ((97 <=? n) && (n <=? 122))%Z then Some (n - 87)%Z
    else if ((65 <=? n) && (n <=? 90))%Z then Some (n - 55)%Z
    else None in
  match d with
  | Some v => if (v <? radix)%Z then Some v else None
  | None => None
  end.

(** Value of the longest prefix of digits, most significant digit first. *)
Fixpoint digitsValue (radix acc : Z) (s : string) : Z :=
  match s with
  | EmptyString => acc
  | String c r =>
      match digitVal radix c with
      | Some d => digitsValue radix (acc * radix + d)%Z r
      | None => acc
      end
  end.

Definition hasDigit (radix : Z) (s : string) : bool :=
  match s with
  | EmptyString => false
  | String c _ => match digitVal radix c with Some _ => true | None => false end
  end.

(** [parseInt(s)] without a radix; [None] is NaN.  The result is the exact
    integer: the rounding to a double is monotone and exact below 2^53, so
    it does not change which array element, if any, the value selects. *)
Definition parseInt (s : string) : option Z :=
  let s1 := trimStart s in
  let '(sign, s2) :=
    match s1 with
    | String "-" r => ((-1)%Z, r)
    | String "+" r => (1%Z, r)
    | _ => (1%Z, s1)
    end in
  let '(radix, s3) :=
    match s2 with
    | String "0" (String "x" r) => (16%Z, r)
    | String "0" (String "X" r) => (16%Z, r)
    | _ => (10%Z, s2)
    end in
  if hasDigit radix s3 then Some (sign * digitsValue radix 0 s3)%Z else None.

(** [arr[idx]] for an array and a number: [None] is undefined. *)
Definition index {A : Type} (arr : list A) (idx : option Z) : option A :=
  match idx with
  | Some z => if (z <? 0)%Z then None else nth_error arr (Z.to_nat z)
  | None => None
  end.

End JS.

(** ** arc-file-linker.js *)

Module FileLinker.

(** [routeToPath(routeDefinition)] *)
Definition routeToPath (routeDefinition : string) : string :=
  let parts := JS.splitWs (JS.trim routeDefinition) in
  let '(method, path) :=
    match parts with
    | [p0; p1] => (JS.toLowerCase p0, p1)
    | _ => ("get", routeDefinition)
    end in
  let pathSegments :=
    JS.toLowerCase (JS.join "-" (filter JS.truthy (JS.splitChar "/" path))) in
  "src/http/" ++ method ++ "-" ++ pathSegments ++ "/index.mjs".

(** [getLinkPath(nodeType, nodeName)]; [None] is null. *)
Definition getLinkPath (nodeType nodeName : string) : option string :=
  if String.eqb nodeType "route" then Some (routeToPath nodeName)
  else if String.eqb nodeType "lambda" then Some ("src/lambdas/" ++ nodeName)
  else if String.eqb nodeType "table" then Some ("src/tables/" ++ nodeName ++ ".ts")
  else None.

End FileLinker.

(** ** arc-tree-viewer.js *)

Module TreeViewer.

Record Route := { method : string; path : string; functionName : string }.
Record Lambda := { lambda_name : string }.
Record Table := { table_name : string; attributes : list string }.

(** The Manifest Model held in [this.arcData].  A category may be missing
    from the object: [None] is undefined. *)
Record ArcData := {
  routes : option (list Route);
  lambdas : option (list Lambda);
  tables : option (list Table)
}.

Record ToggleStates := {
  toggle_routes : bool;
  toggle_lambdas : bool;
  toggle_tables : bool
}.

Inductive NodeType := route | lambda | table.

Definition typeName (t : NodeType) : string :=
  match t with
  | route => "route"
  | lambda => "lambda"
  | table => "table"
  end.

(** A node of the built tree.  A property that the object literal does not
    set is [None]; [children] is empty for a node without the property,
    which every reader of it treats like an empty array. *)
Inductive TreeNode := mkNode {
  node_id : string;
  node_name : string;
  node_path : option string;
  node_method : option string;
  node_functionName : option string;
  node_type : option NodeType;
  children : list TreeNode
}.

(** [arr.map((x, idx) => f(x, idx))], counting from [i]. *)
Fixpoint mapiFrom {A B : Type} (i : nat) (f : A -> nat -> B) (l : list A) : list B :=
  match l with
  | [] => []
  | x :: r => f x i :: mapiFrom (S i) f r
  end.

Definition mapi {A B : Type} (f : A -> nat -> B) (l : list A) : list B :=
  mapiFrom 0 f l.

(** [list?.length > 0] *)
Definition nonEmpty {A : Type} (l : option (list A)) : bool :=
  match l with
  | Some (_ :: _) => true
  | _ => false
  end.

(** [list || []] and the list read after the guard [list?.length > 0]. *)
Definition orEmpty {A : Type} (l : option (list A)) : list A :=
  match l with
  | Some l' => l'
  | None => []
  end.

Definition routeNode (r : Route) (idx : nat) : TreeNode :=
  {| node_id := "route-" ++ JS.numberToString idx;
     node_name := method r ++ " " ++ path r;
     node_path := Some (path r);
     node_method := Some (method r);
     node_functionName := Some (functionName r);
     node_type := Some route;
     children := [] |}.

Definition lambdaNode (l : Lambda) (idx : nat) : TreeNode :=
  {| node_id := "lambda-" ++ JS.numberToString idx;
     node_name := lambda_name l;
     node_path := None; node_method := None; node_functionName := None;
     node_type := Some lambda;
     children := [] |}.

Definition tableNode (t : Table) (idx : nat) : TreeNode :=
  {| node_id := "table-" ++ JS.numberToString idx;
     node_name := table_name t;
     node_path := None; node_method := None; node_functionName := None;
     node_type := Some table;
     children := [] |}.

Definition groupNode (gid gname : string) (kids : list TreeNode) : TreeNode :=
  {| node_id := gid;
     node_name := gname;
     node_path := None; node_method := None; node_functionName := None;
     node_type := None;
     children := kids |}.

(** [buildTree()], reading [this.arcData] and [this.toggleStates]. *)
Definition buildTree (arcData : ArcData) (toggleStates : ToggleStates) : list TreeNode :=
  (if toggle_routes toggleStates && nonEmpty (routes arcData)
   then [groupNode "routes-group" "Routes" (mapi routeNode (orEmpty (routes arcData)))]
   else [])
  ++
  (if toggle_lambdas toggleStates && nonEmpty (lambdas arcData)
   then [groupNode "lambdas-group" "Lambdas" (mapi lambdaNode (orEmpty (lambdas arcData)))]
   else [])
  ++
  (if toggle_tables toggleStates && nonEmpty (tables arcData)
   then [groupNode "tables-group" "Tables" (mapi tableNode (orEmpty (tables arcData)))]
   else []).

(** The entity a node id resolves to. *)
Inductive Entity :=
| ERoute (r : Route)
| ELambda (l : Lambda)
| ETable (t : Table).

(** The object [{ type, data }]; [data = None] is undefined. *)
Record NodeRef := { ref_type : NodeType; ref_data : option Entity }.

(** [parseInt(nodeId.split('-')[1])]; a missing second piece is undefined,
    which [parseInt] reads as the text [undefined]. *)
Definition parseIndex (nodeId : string) : option Z :=
  JS.parseInt (nth 1 (JS.splitChar "-" nodeId) "undefined").

(** [getNode(nodeId)]; [None] is null. *)
Definition getNode (arcData : ArcData) (nodeId : string) : option NodeRef :=
  let routes := orEmpty (routes arcData) in
  let lambdas := orEmpty (lambdas arcData) in
  let tables := orEmpty (tables arcData) in
  if JS.startsWith nodeId "route-" then
    let idx := parseIndex nodeId in
    Some {| ref_type := route; ref_data := option_map ERoute (JS.index routes idx) |}
  else if JS.startsWith nodeId "lambda-" then
    let idx := parseIndex nodeId in
    Some {| ref_type := lambda; ref_data := option_map ELambda (JS.index lambdas idx) |}
  else if JS.startsWith nodeId "table-" then
    let idx := parseIndex nodeId in
    Some {| ref_type := table; ref_data := option_map ETable (JS.index tables idx) |}
  else None.

(** *** Rendering *)

Definition dq : string := String "034" EmptyString.
Definition nbsp : ascii := "160".

(** A line break of the template followed by [n] spaces of indentation. *)
Definition nl (n : nat) : string :=
  String "010" (string_of_list_ascii (repeat " "%char n)).

(** [name="value"] as it is written in the templates. *)
Definition attr (name value : string) : string :=
  name ++ "=" ++ dq ++ value ++ dq.

(** Interpolation of a property that may be undefined. *)
Definition interp (v : option string) : string :=
  match v with
  | Some s => s
  | None => "undefined"
  end.

(** [escapeHtml(text)]: the text is assigned to [textContent] of a fresh
    element and read back through [innerHTML].  The serialisation of a text
    node replaces the ampersand, the no-break space, and the two angle
    brackets, and nothing else. *)
Definition escapeChar (c : ascii) : string :=
  if Ascii.eqb c "&" then "&amp;"
  else if Ascii.eqb c nbsp then "&nbsp;"
  else if Ascii.eqb c "<" then "&lt;"
  else if Ascii.eqb c ">" then "&gt;"
  else String c EmptyString.

Fixpoint escapeHtml (text : string) : string :=
  match text with
  | EmptyString => EmptyString
  | String c r => escapeChar c ++ escapeHtml r
  end.

(** [getNodeIcon(type)] *)
Definition getNodeIcon (t : option NodeType) : string :=
  match t with
  | Some route => "🛣️"
  | Some lambda => "⚡"
  | Some table => "📊"
  | None => "📄"
  end.

Definition isRoute (t : option NodeType) : bool :=
  match t with
  | Some route => true
  | _ => false
  end.

(** [node.id && node.id.includes('-group')] as a condition. *)
Definition isGroup (node : TreeNode) : bool :=
  JS.truthy (node_id node) && JS.includes (node_id node) "-group".

(** The copy control of a route leaf. *)
Definition copyButton (node : TreeNode) : string :=
  "<button " ++ attr "class" "copy-btn" ++ " "
  ++ attr "data-value" (interp (node_method node) ++ " " ++ interp (node_path node))
  ++ " " ++ attr "title" "Copy route" ++ ">📋</button>".

(** [renderTreeNodes(nodes, depth)] over a given renderer of one node. *)
Definition renderTreeNodesWith (render : TreeNode -> nat -> string)
    (nodes : list TreeNode) (depth : nat) : string :=
  match nodes with
  | [] => "<div " ++ attr "class" "tree-empty" ++ ">No items</div>"
  | _ =>
      nl 6 ++ "<ul " ++ attr "class" "tree-list" ++ " "
      ++ attr "style" ("margin-left: " ++ JS.numberToString (depth * 20) ++ "px;")
      ++ ">" ++ nl 8
      ++ String.concat EmptyString (map (fun node => render node depth) nodes)
      ++ nl 6 ++ "</ul>" ++ nl 4
  end.

(** [renderNode(node, depth)] *)
Fixpoint renderNode (node : TreeNode) (depth : nat) {struct node} : string :=
  let kids := children node in
  let hasChildren := match kids with [] => false | _ => true end in
  let icon := getNodeIcon (node_type node) in
  nl 6 ++ "<li "
  ++ attr "class" ("tree-node " ++ (if isGroup node then "tree-group" else EmptyString))
  ++ " " ++ attr "data-node-id" (node_id node) ++ ">"
  ++ nl 8 ++ "<div " ++ attr "class" "tree-node-content"
  ++ " " ++ attr "data-node-id" (node_id node) ++ ">"
  ++ nl 10
  ++ (if hasChildren
      then "<span " ++ attr "class" "tree-toggle" ++ ">▼</span>"
      else "<span " ++ attr "class" "tree-toggle-empty" ++ ">•</span>")
  ++ nl 10 ++ "<span " ++ attr "class" "tree-icon" ++ ">" ++ icon ++ "</span>"
  ++ nl 10 ++ "<span " ++ attr "class" "tree-label" ++ ">"
  ++ escapeHtml (node_name node) ++ "</span>"
  ++ nl 10
  ++ (if negb (isGroup node) && isRoute (node_type node)
      then copyButton node else EmptyString)
  ++ nl 8 ++ "</div>"
  ++ nl 8
  ++ (if hasChildren
      then "<div " ++ attr "class" "tree-children" ++ ">"
           ++ renderTreeNodesWith renderNode kids (S depth) ++ "</div>"
      else EmptyString)
  ++ nl 6 ++ "</li>" ++ nl 4.

Definition renderTreeNodes (nodes : list TreeNode) (depth : nat) : string :=
  renderTreeNodesWith renderNode nodes depth.

(** *** The click handler of a copy control *)

(** The string constants visible to a closure, innermost block first. *)
Definition Scope := list (string * string).

Fixpoint lookup (x : string) (sc : Scope) : option string :=
  match sc with
  | [] => None
  | (y, v) :: r => if String.eqb x y then Some v else lookup x r
  end.

(** The arrow function [() => { e.target.textContent = x; }] handed to
    [setTimeout], with the scope it closes over. *)
Record Callback := { cb_var : string; cb_scope : Scope }.

(** What the handler reads and writes: the clicked control, the clipboard,
    the pending timers (delay in ms and callback), the console, and the
    string properties of the global object. *)
Record Page := {
  textContent : string;
  dataValue : string;
  clipboard : option string;
  timers : list (nat * Callback);
  consoleErrors : list string;
  globals : Scope
}.

(** How [navigator.clipboard.writeText(value)] settles. *)
Inductive WriteOutcome := WriteResolves | WriteRejects.

Definition copiedText : string := "✓ Copied!".
Definition failedText : string := "✗ Failed".

(** The listener installed on every [.copy-btn].  [value] is a constant of
    the function body; [originalText] is declared by [const] inside the
    [try] block and belongs to that block alone, so the scope of the
    [catch] block is the scope of the function body. *)
Definition onCopyClick (w : WriteOutcome) (p : Page) : Page :=
  let value := dataValue p in
  let bodyScope : Scope := [("value", value)] in
  match w with
  | WriteResolves =>
      let originalText := textContent p in
      let tryScope : Scope := ("originalText", originalText) :: bodyScope in
      {| textContent := copiedText;
         dataValue := dataValue p;
         clipboard := Some value;
         timers := timers p
                   ++ [(2000, {| cb_var := "originalText"; cb_scope := tryScope |})];
         consoleErrors := consoleErrors p;
         globals := globals p |}
  | WriteRejects =>
      let catchScope : Scope := bodyScope in
      {| textContent := failedText;
         dataValue := dataValue p;
         clipboard := clipboard p;
         timers := timers p
                   ++ [(2000, {| cb_var := "originalText"; cb_scope := catchScope |})];
         consoleErrors := consoleErrors p ++ ["Failed to copy:"];
         globals := globals p |}
  end.

(** How a timer callback ends. *)
Inductive Completion := Completed | ReferenceError (x : string).

(** Running a callback: the variable is resolved in the closed-over scope,
    then on the global object; an unresolvable reference throws and the
    assignment does not happen. *)
Definition runCallback (cb : Callback) (p : Page) : Page * Completion :=
  let resolved :=
    match lookup (cb_var cb) (cb_scope cb) with
    | Some v => Some v
    | None => lookup (cb_var cb) (globals p)
    end in
  match resolved with
  | Some v =>
      ({| textContent := v; dataValue := dataValue p; clipboard := clipboard p;
          timers := timers p; consoleErrors := consoleErrors p;
          globals := globals p |}, Completed)
  | None => (p, ReferenceError (cb_var cb))
  end.

(** The first pending timer fires, once [elapsed] ms have passed. *)
Definition fireTimer (elapsed : nat) (p : Page) : option (Page * Completion) :=
  match timers p with
  | (delay, cb) :: rest =>
      if (delay <=? elapsed)%nat then
        Some (runCallback cb
                {| textContent := textContent p; dataValue := dataValue p;
                   clipboard := clipboard p; timers := rest;
                   consoleErrors := consoleErrors p; globals := globals p |})
      else None
  | [] => None
  end.

End TreeViewer.

(** ** arc-search.js *)

Module Search.

Record SearchItem := {
  item_type : string;
  item_name : string;
  item_path : option string;
  item_method : option string;
  item_functionName : option string;
  searchText : string
}.

(** A fuzzy index built over a list of items: the items it returns for a
    query, [fuse.search(query).map(r => r.item)]. *)
Definition Index := string -> list SearchItem.

(** The global [Fuse]: undefined, or a constructor that builds an index
    over the items or throws. *)
Definition FuseGlobal := option (list SearchItem -> option Index).

Record State := {
  fuse : option Index;
  items : option (list SearchItem);
  lastResults : option (list SearchItem)
}.

(** The state the constructor leaves. *)
Definition created : State :=
  {| fuse := None; items := None; lastResults := None |}.

Definition routeItem (r : TreeViewer.Route) : SearchItem :=
  {| item_type := "route";
     item_name := TreeViewer.method r ++ " " ++ TreeViewer.path r;
     item_path := Some (TreeViewer.path r);
     item_method := Some (TreeViewer.method r);
     item_functionName := Some (TreeViewer.functionName r);
     searchText := TreeViewer.method r ++ " " ++ TreeViewer.path r ++ " "
                   ++ TreeViewer.functionName r |}.

Definition lambdaItem (l : TreeViewer.Lambda) : SearchItem :=
  {| item_type := "lambda"; item_name := TreeViewer.lambda_name l;
     item_path := None; item_method := None; item_functionName := None;
     searchText := TreeViewer.lambda_name l |}.

Definition tableItem (t : TreeViewer.Table) : SearchItem :=
  {| item_type := "table"; item_name := TreeViewer.table_name t;
     item_path := None; item_method := None; item_functionName := None;
     searchText := TreeViewer.table_name t |}.

(** [init(arcData)] *)
Definition init (Fuse : FuseGlobal) (arcData : TreeViewer.ArcData) (st : State) : State :=
  let flat :=
    (map routeItem (TreeViewer.orEmpty (TreeViewer.routes arcData))
     ++ map lambdaItem (TreeViewer.orEmpty (TreeViewer.lambdas arcData))
     ++ map tableItem (TreeViewer.orEmpty (TreeViewer.tables arcData)))%list in
  match Fuse with
  | Some construct =>
      match construct flat with
      | Some index =>
          {| fuse := Some index; items := items st; lastResults := lastResults st |}
      | None =>
          {| fuse := fuse st; items := Some flat; lastResults := lastResults st |}
      end
  | None =>
      {| fuse := fuse st; items := Some flat; lastResults := lastResults st |}
  end.

(** The predicate of the fallback filter. *)
Definition matches (lowerQuery : string) (item : SearchItem) : bool :=
  JS.includes (JS.toLowerCase (searchText item)) lowerQuery.

(** A call returns a value or throws a TypeError. *)
Inductive Outcome (A : Type) :=
| Returns (a : A)
| TypeError.
Arguments Returns {A} a.
Arguments TypeError {A}.

(** [search(query)]: the outcome and the state it leaves. *)
Definition search (query : string) (st : State) : Outcome (list SearchItem) * State :=
  if negb (JS.truthy query) || String.eqb (JS.trim query) EmptyString then
    (Returns [], {| fuse := fuse st; items := items st; lastResults := None |})
  else
    match fuse st with
    | Some index =>
        let results := index query in
        (Returns results,
         {| fuse := fuse st; items := items st; lastResults := Some results |})
    | None =>
        let lowerQuery := JS.toLowerCase query in
        match items st with
        | Some its =>
            let results := filter (matches lowerQuery) its in
            (Returns results,
             {| fuse := fuse st; items := items st; lastResults := Some results |})
        | None => (TypeError, st)
        end
    end.

(** [getLastResults()] *)
Definition getLastResults (st : State) : list SearchItem :=
  match lastResults st with
  | Some results => results
  | None => []
  end.

End Search.

(** ** arc-copy.js *)

Module Copy.

(** An element of the document: its identity and what the module sets on it.
    [text] is the value of a textarea and the text content of a toast. *)
Record Node := {
  node_id : nat;
  tag : string;
  className : string;
  text : string
}.

(** The callbacks that [showToast] hands to [setTimeout]. *)
Inductive TimerAction :=
| ShowToast (toast : nat)
| HideToast (toast : nat).

(** The part of the page the module acts on.  [body] and [container] are
    the children of [document.body] and of a configured toast container. *)
Record Dom := {
  nextId : nat;
  body : list Node;
  container : list Node;
  selection : option string;
  clipboardText : option string;
  timers : list (nat * TimerAction);
  consoleErrors : list string
}.

(** What the platform does when asked to copy. *)
Inductive ExecOutcome := ExecReturns (successful : bool) | ExecThrows.
Inductive WriteOutcome := Resolves | Rejects.

Record Env := {
  hasClipboard : bool;
  isSecureContext : bool;
  writeText : WriteOutcome;
  execCommand : ExecOutcome
}.

(** The fields of an [ArcCopy]; [toastContainer] tells whether a container
    was configured, the default being [document.body]. *)
Record Copier := {
  toastDuration : nat;
  toastContainer : bool
}.

(** Computations over the page that return or throw. *)
Inductive Result (A : Type) :=
| Val (a : A)
| Exn (error : string).
Arguments Val {A} a.
Arguments Exn {A} error.

Definition M (A : Type) : Type := Dom -> Result A * Dom.

Definition ret {A : Type} (a : A) : M A := fun d => (Val a, d).

Definition throw {A : Type} (error : string) : M A := fun d => (Exn error, d).

Definition bind {A B : Type} (m : M A) (k : A -> M B) : M B :=
  fun d =>
    match m d with
    | (Val a, d') => k a d'
    | (Exn e, d') => (Exn e, d')
    end.

(** [try { m } catch (error) { handler }] *)
Definition tryCatch {A : Type} (m : M A) (handler : string -> M A) : M A :=
  fun d =>
    match m d with
    | (Val a, d') => (Val a, d')
    | (Exn e, d') => handler e d'
    end.

(** [try { m } finally { cleanup }]: the cleanup runs on every exit of [m];
    if it throws, its error replaces the completion of [m]. *)
Definition tryFinally {A : Type} (m : M A) (cleanup : M unit) : M A :=
  fun d =>
    let '(r, d') := m d in
    match cleanup d' with
    | (Val _, d'') => (r, d'')
    | (Exn e, d'') => (Exn e, d'')
    end.

Notation "x <- m ;; k" := (bind m (fun x => k))
  (at level 61, m at next level, right associativity).
Notation "m ;; k" := (bind m (fun _ => k))
  (at level 61, right associativity).

Definition createElement (t cls txt : string) : M Node :=
  fun d =>
    (Val {| node_id := nextId d; tag := t; className := cls; text := txt |},
     {| nextId := S (nextId d); body := body d; container := container d;
        selection := selection d; clipboardText := clipboardText d;
        timers := timers d; consoleErrors := consoleErrors d |}).

(** [parent.appendChild(n)], the parent being the body or the container. *)
Definition appendChild (toBody : bool) (n : Node) : M unit :=
  fun d =>
    (Val tt,
     {| nextId := nextId d;
        body := if toBody then (body d ++ [n])%list else body d;
        container := if toBody then container d else (container d ++ [n])%list;
        selection := selection d; clipboardText := clipboardText d;
        timers := timers d; consoleErrors := consoleErrors d |}).

Fixpoint removeNode (id : nat) (l : list Node) : option (list Node) :=
  match l with
  | [] => None
  | n :: r =>
      if (node_id n =? id)%nat then Some r
      else option_map (cons n) (removeNode id r)
  end.

(** [document.body.removeChild(n)]: throws when [n] is not a child. *)
Definition removeChild (n : Node) : M unit :=
  fun d =>
    match removeNode (node_id n) (body d) with
    | Some rest =>
        (Val tt,
         {| nextId := nextId d; body := rest; container := container d;
            selection := selection d; clipboardText := clipboardText d;
            timers := timers d; consoleErrors := consoleErrors d |})
    | None => (Exn "NotFoundError", d)
    end.

(** [textarea.focus(); textarea.select()] *)
Definition select (n : Node) : M unit :=
  fun d =>
    (Val tt,
     {| nextId := nextId d; body := body d; container := container d;
        selection := Some (text n); clipboardText := clipboardText d;
        timers := timers d; consoleErrors := consoleErrors d |}).

Definition setTimeout (delay : nat) (action : TimerAction) : M unit :=
  fun d =>
    (Val tt,
     {| nextId := nextId d; body := body d; container := container d;
        selection := selection d; clipboardText := clipboardText d;
        timers := (timers d ++ [(delay, action)])%list;
        consoleErrors := consoleErrors d |}).

Definition consoleError (message : string) : M unit :=
  fun d =>
    (Val tt,
     {| nextId := nextId d; body := body d; container := container d;
        selection := selection d; clipboardText := clipboardText d;
        timers := timers d;
        consoleErrors := (consoleErrors d ++ [message])%list |}).

Definition setClipboard (content : option string) (d : Dom) : Dom :=
  {| nextId := nextId d; body := body d; container := container d;
     selection := selection d; clipboardText := content;
     timers := timers d; consoleErrors := consoleErrors d |}.

(** [document.execCommand('copy')]: a success puts the selection on the
    clipboard. *)
Definition execCommandCopy (env : Env) : M bool :=
  fun d =>
    match execCommand env with
    | ExecReturns true => (Val true, setClipboard (selection d) d)
    | ExecReturns false => (Val false, d)
    | ExecThrows => (Exn "execCommand", d)
    end.

(** [await navigator.clipboard.writeText(text)]: a rejection is thrown at
    the [await]. *)
Definition clipboardWriteText (env : Env) (txt : string) : M unit :=
  fun d =>
    match writeText env with
    | Resolves => (Val tt, setClipboard (Some txt) d)
    | Rejects => (Exn "writeText", d)
    end.

(** [showToast(message, type)] *)
Definition showToast (c : Copier) (message type : string) : M unit :=
  toast <- createElement "div" ("arc-toast arc-toast-" ++ type) message ;;
  appendChild (negb (toastContainer c)) toast ;;
  setTimeout 10 (ShowToast (node_id toast)) ;;
  setTimeout (toastDuration c) (HideToast (node_id toast)).

(** [copyUsingExecCommand(text)] *)
Definition copyUsingExecCommand (c : Copier) (env : Env) (txt : string) : M bool :=
  textarea <- createElement "textarea" EmptyString txt ;;
  appendChild true textarea ;;
  select textarea ;;
  tryFinally
    (tryCatch
       (successful <- execCommandCopy env ;;
        (if successful : bool
         then showToast c ("Copied: " ++ txt) "success"
         else showToast c "Failed to copy" "error") ;;
        ret successful)
       (fun _ =>
          consoleError "Copy fallback failed:" ;;
          showToast c "Failed to copy" "error" ;;
          ret false))
    (removeChild textarea).

(** [copy(text)] *)
Definition copy (c : Copier) (env : Env) (txt : string) : M bool :=
  tryCatch
    (if hasClipboard env && isSecureContext env
     then
       clipboardWriteText env txt ;;
       showToast c ("Copied: " ++ txt) "success" ;;
       ret true
     else copyUsingExecCommand c env txt)
    (fun _ =>
       consoleError "Copy failed:" ;;
       showToast c "Failed to copy" "error" ;;
       ret false).

(** [copyArn(method, path, region = 'us-east-1')] *)
Definition copyArn (c : Copier) (env : Env) (method path : string)
    (region : option string) : M bool :=
  let region := match region with Some r => r | None => "us-east-1" end in
  let arn := "arn:arc:route:" ++ method ++ ":" ++ path in
  copy c env arn.

(** [copyRoute(method, path)] *)
Definition copyRoute (c : Copier) (env : Env) (method path : string) : M bool :=
  let route := method ++ " " ++ path in
  copy c env route.

End Copy.

(** ** arc-watcher.js *)

Module Watcher.

Section Watcher.

(** The parsed body of the polling endpoint, and [JSON.stringify]. *)
Context {Snapshot : Type} (stringify : Snapshot -> string).

(** What a pending timer runs: the poll callback of [startPolling], or the
    reconnection scheduled when a socket closes. *)
Inductive TimerKind := PollTimer | ReconnectTimer.

(** The watcher and the part of the event loop it lives in.
    [lastData], [isWatching] and [pollTimeout] are the fields of the
    object ([None] is null).  [timers] are the pending timers with their
    ids, [inFlight] counts the poll callbacks suspended at [await fetch],
    [sockets] counts the sockets that carry the listeners of the watcher,
    and [handled] lists the arguments of the calls of [handleArcChanged],
    oldest first. *)
Record World := {
  lastData : option string;
  isWatching : bool;
  pollTimeout : option nat;
  webSocketAvailable : bool;
  nextTimer : nat;
  timers : list (nat * TimerKind);
  inFlight : nat;
  sockets : nat;
  handled : list Snapshot
}.

(** The state the constructor leaves, in a page whose timer ids start at
    one. *)
Definition created (webSocket : bool) : World :=
  {| lastData := None; isWatching := false; pollTimeout := None;
     webSocketAvailable := webSocket; nextTimer := 1; timers := [];
     inFlight := 0; sockets := 0; handled := [] |}.

(** [this.pollTimeout = setTimeout(callback, this.pollInterval)] *)
Definition schedulePoll (w : World) : World :=
  {| lastData := lastData w; isWatching := isWatching w;
     pollTimeout := Some (nextTimer w);
     webSocketAvailable := webSocketAvailable w;
     nextTimer := S (nextTimer w);
     timers := (timers w ++ [(nextTimer w, PollTimer)])%list;
     inFlight := inFlight w; sockets := sockets w; handled := handled w |}.

(** [setTimeout(() => this.tryWebSocketConnection(), 5000)] *)
Definition scheduleReconnect (w : World) : World :=
  {| lastData := lastData w; isWatching := isWatching w;
     pollTimeout := pollTimeout w;
     webSocketAvailable := webSocketAvailable w;
     nextTimer := S (nextTimer w);
     timers := (timers w ++ [(nextTimer w, ReconnectTimer)])%list;
     inFlight := inFlight w; sockets := sockets w; handled := handled w |}.

(** [startPolling()] *)
Definition startPolling (w : World) : World :=
  if negb (isWatching w) then w else schedulePoll w.

(** [tryWebSocketConnection()]: the socket gets its four listeners, or the
    constructor throws and the [catch] starts polling. *)
Definition tryWebSocketConnection (w : World) : World :=
  if webSocketAvailable w then
    {| lastData := lastData w; isWatching := isWatching w;
       pollTimeout := pollTimeout w;
       webSocketAvailable := webSocketAvailable w;
       nextTimer := nextTimer w; timers := timers w;
       inFlight := inFlight w; sockets := S (sockets w);
       handled := handled w |}
  else startPolling w.

(** [start()] *)
Definition start (w : World) : World :=
  if isWatching w then w
  else
    tryWebSocketConnection
      {| lastData := lastData w; isWatching := true;
         pollTimeout := pollTimeout w;
         webSocketAvailable := webSocketAvailable w;
         nextTimer := nextTimer w; timers := timers w;
         inFlight := inFlight w; sockets := sockets w;
         handled := handled w |}.

(** [clearTimeout(id)] *)
Definition clearTimeout (id : nat) (l : list (nat * TimerKind))
  : list (nat * TimerKind) :=
  filter (fun t => negb (fst t =? id)%nat) l.

(** [stop()]; a timer id is truthy unless it is zero. *)
Definition stop (w : World) : World :=
  if negb (isWatching w) then w
  else
    match pollTimeout w with
    | Some (S t) =>
        {| lastData := lastData w; isWatching := false;
           pollTimeout := None;
           webSocketAvailable := webSocketAvailable w;
           nextTimer := nextTimer w;
           timers := clearTimeout (S t) (timers w);
           inFlight := inFlight w; sockets := sockets w;
           handled := handled w |}
    | _ =>
        {| lastData := lastData w; isWatching := false;
           pollTimeout := pollTimeout w;
           webSocketAvailable := webSocketAvailable w;
           nextTimer := nextTimer w; timers := timers w;
           inFlight := inFlight w; sockets := sockets w;
           handled := handled w |}
    end.

(** [handleArcChanged(newData)]: the listeners of [arc-changed] and the
    [onArcChanged] callback are called with the data; what they throw is
    caught. *)
Definition handleArcChanged (newData : Snapshot) (w : World) : World :=
  {| lastData := lastData w; isWatching := isWatching w;
     pollTimeout := pollTimeout w;
     webSocketAvailable := webSocketAvailable w;
     nextTimer := nextTimer w; timers := timers w;
     inFlight := inFlight w; sockets := sockets w;
     handled := (handled w ++ [newData])%list |}.

(** [this.lastData !== hash] *)
Definition differs (last : option string) (hash : string) : bool :=
  match last with
  | Some l => negb (String.eqb l hash)
  | None => true
  end.

(** How the fetch of a poll settles: a body that parsed, or an error (no
    response, a status outside 2xx, a body that is not JSON). *)
Inductive FetchResult := FetchOk (data : Snapshot) | FetchFails.

(** The poll callback from the point where its fetch settles: the [try]
    body or the [catch], then the [finally]. *)
Definition resumePoll (r : FetchResult) (w : World) : World :=
  let w1 :=
    match r with
    | FetchOk data =>
        let hash := stringify data in
        if differs (lastData w) hash then
          handleArcChanged data
            {| lastData := Some hash; isWatching := isWatching w;
               pollTimeout := pollTimeout w;
               webSocketAvailable := webSocketAvailable w;
               nextTimer := nextTimer w; timers := timers w;
               inFlight := inFlight w; sockets := sockets w;
               handled := handled w |}
        else w
    | FetchFails => w
    end in
  startPolling w1.

(** A message of a socket, parsed: the recognised kind with its payload,
    or any other kind. *)
Inductive Message := ArcChangedMessage (arcData : Snapshot) | OtherMessage.

(** What the page and the platform can do to the watcher. *)
Inductive Event :=
| CallStart
| CallStop
| TimerFires (id : nat)
| FetchSettles (r : FetchResult)
| SocketOpens
| SocketMessage (m : Message)
| SocketError
| SocketCloses.

Definition findTimer (id : nat) (l : list (nat * TimerKind)) : option TimerKind :=
  option_map snd (find (fun t => (fst t =? id)%nat) l).

(** One turn of the event loop.  An event that cannot happen in the state
    (a timer that is not pending, a settlement with no fetch in flight, a
    socket event without a socket) leaves it unchanged. *)
Definition step (w : World) (e : Event) : World :=
  match e with
  | CallStart => start w
  | CallStop => stop w
  | TimerFires id =>
      match findTimer id (timers w) with
      | None => w
      | Some kind =>
          let w1 :=
            {| lastData := lastData w; isWatching := isWatching w;
               pollTimeout := pollTimeout w;
               webSocketAvailable := webSocketAvailable w;
               nextTimer := nextTimer w;
               timers := clearTimeout id (timers w);
               inFlight := inFlight w; sockets := sockets w;
               handled := handled w |} in
          match kind with
          | PollTimer =>
              {| lastData := lastData w1; isWatching := isWatching w1;
                 pollTimeout := pollTimeout w1;
                 webSocketAvailable := webSocketAvailable w1;
                 nextTimer := nextTimer w1; timers := timers w1;
                 inFlight := S (inFlight w1); sockets := sockets w1;
                 handled := handled w1 |}
          | ReconnectTimer => tryWebSocketConnection w1
          end
      end
  | FetchSettles r =>
      match inFlight w with
      | O => w
      | S n =>
          resumePoll r
            {| lastData := lastData w; isWatching := isWatching w;
               pollTimeout := pollTimeout w;
               webSocketAvailable := webSocketAvailable w;
               nextTimer := nextTimer w; timers := timers w;
               inFlight := n; sockets := sockets w;
               handled := handled w |}
      end
  | SocketOpens => w
  | SocketMessage m =>
      match sockets w, m with
      | S _, ArcChangedMessage arcData => handleArcChanged arcData w
      | _, _ => w
      end
  | SocketError =>
      match sockets w with
      | S _ => startPolling w
      | O => w
      end
  | SocketCloses =>
      match sockets w with
      | S _ => if isWatching w then scheduleReconnect w else w
      | O => w
      end
  end.

Definition run (es : list Event) (w : World) : World := fold_left step es w.

End Watcher.

End Watcher.

(** ** arc-file-linker.js: the caching wrapper *)

Module Linker.

(** [this.cache]: a Map from keys to links, in insertion order.  A key is
    set only when it is absent, so no key occurs twice. *)
Definition Cache := list (string * option string).

(** [cache.has(key)] and [cache.get(key)] in one: [None] when the key is
    absent, the stored link (which may be null) otherwise. *)
Fixpoint cacheGet (key : string) (c : Cache) : option (option string) :=
  match c with
  | [] => None
  | (k, link) :: r => if String.eqb key k then Some link else cacheGet key r
  end.

(** [getLink(nodeType, nodeName)]: the link and the cache it leaves. *)
Definition getLink (c : Cache) (nodeType nodeName : string)
  : option string * Cache :=
  let key := nodeType ++ ":" ++ nodeName in
  match cacheGet key c with
  | Some link => (link, c)
  | None =>
      let link := FileLinker.getLinkPath nodeType nodeName in
      (link, (c ++ [(key, link)])%list)
  end.

End Linker.

(** ** arc-search.js: grouped results and the standalone functions *)

Module SearchApi.

(** The object [{ routes, lambdas, tables }] of [getGroupedResults]. *)
Record Grouped := {
  g_routes : list Search.SearchItem;
  g_lambdas : list Search.SearchItem;
  g_tables : list Search.SearchItem
}.

(** The body of the [forEach] over the results: the item is pushed onto
    the array of its type, or onto none. *)
Definition pushItem (grouped : Grouped) (item : Search.SearchItem) : Grouped :=
  if String.eqb (Search.item_type item) "route" then
    {| g_routes := (g_routes grouped ++ [item])%list;
       g_lambdas := g_lambdas grouped; g_tables := g_tables grouped |}
  else if String.eqb (Search.item_type item) "lambda" then
    {| g_routes := g_routes grouped;
       g_lambdas := (g_lambdas grouped ++ [item])%list;
       g_tables := g_tables grouped |}
  else if String.eqb (Search.item_type item) "table" then
    {| g_routes := g_routes grouped; g_lambdas := g_lambdas grouped;
       g_tables := (g_tables grouped ++ [item])%list |}
  else grouped.

(** [getGroupedResults(query)] *)
Definition getGroupedResults (query : string) (st : Search.State)
  : Search.Outcome Grouped * Search.State :=
  match Search.search query st with
  | (Search.Returns results, st') =>
      (Search.Returns
         (fold_left pushItem results
            {| g_routes := []; g_lambdas := []; g_tables := [] |}), st')
  | (Search.TypeError, st') => (Search.TypeError, st')
  end.

(** The exported function [search(arcData, query, options)]: a new
    [ArcSearch], [init], [search]. *)
Definition searchOnce (Fuse : Search.FuseGlobal) (arcData : TreeViewer.ArcData)
    (query : string) : Search.Outcome (list Search.SearchItem) :=
  fst (Search.search query (Search.init Fuse arcData Search.created)).

(** The object that [simpleSearch] returns. *)
Record Simple := {
  s_routes : list TreeViewer.Route;
  s_lambdas : list TreeViewer.Lambda;
  s_tables : list TreeViewer.Table
}.

(** [simpleSearch(arcData, query)] *)
Definition simpleSearch (arcData : TreeViewer.ArcData) (query : string) : Simple :=
  if negb (JS.truthy query) || String.eqb (JS.trim query) EmptyString then
    {| s_routes := []; s_lambdas := []; s_tables := [] |}
  else
    let lowerQuery := JS.toLowerCase query in
    {| s_routes :=
         match TreeViewer.routes arcData with
         | Some routes =>
             filter (fun route =>
                       let searchText :=
                         JS.toLowerCase
                           (TreeViewer.method route ++ " " ++ TreeViewer.path route
                            ++ " " ++ TreeViewer.functionName route) in
                       JS.includes searchText lowerQuery) routes
         | None => []
         end;
       s_lambdas :=
         match TreeViewer.lambdas arcData with
         | Some lambdas =>
             filter (fun lambda =>
                       JS.includes (JS.toLowerCase (TreeViewer.lambda_name lambda))
                         lowerQuery) lambdas
         | None => []
         end;
       s_tables :=
         match TreeViewer.tables arcData with
         | Some tables =>
             filter (fun table =>
                       JS.includes (JS.toLowerCase (TreeViewer.table_name table))
                         lowerQuery) tables
         | None => []
         end |}.

End SearchApi.

(** ** arc-tree-viewer.js: rendering into the container, toggles, filter *)

Module TreeView.

(** The viewer and the controls that [render] creates in its container:
    [arcData] and [toggleStates] are the fields of the object, [innerHTML]
    is the markup last assigned to the container, and the three [box]
    fields are the checkedness of the three checkboxes of that markup. *)
Record Viewer := {
  arcData : TreeViewer.ArcData;
  toggleStates : TreeViewer.ToggleStates;
  innerHTML : string;
  boxRoutes : bool;
  boxLambdas : bool;
  boxTables : bool
}.

(** One checkbox of the header, as the template writes it: always with
    the [checked] attribute. *)
Definition checkbox (cls title : string) : string :=
  "<label><input " ++ TreeViewer.attr "type" "checkbox" ++ " "
  ++ TreeViewer.attr "class" cls ++ " checked> " ++ title ++ "</label>".

(** The markup that [render] builds around the tree. *)
Definition template (tree : string) : string :=
  TreeViewer.nl 6 ++ "<div " ++ TreeViewer.attr "class" "arc-tree-viewer" ++ ">"
  ++ TreeViewer.nl 8 ++ "<div " ++ TreeViewer.attr "class" "tree-header" ++ ">"
  ++ TreeViewer.nl 10 ++ "<h2>Arc Viewer</h2>"
  ++ TreeViewer.nl 10 ++ "<div " ++ TreeViewer.attr "class" "tree-controls" ++ ">"
  ++ TreeViewer.nl 12 ++ checkbox "toggle-routes" "Routes"
  ++ TreeViewer.nl 12 ++ checkbox "toggle-lambdas" "Lambdas"
  ++ TreeViewer.nl 12 ++ checkbox "toggle-tables" "Tables"
  ++ TreeViewer.nl 10 ++ "</div>"
  ++ TreeViewer.nl 8 ++ "</div>"
  ++ TreeViewer.nl 8 ++ "<div " ++ TreeViewer.attr "class" "tree-search" ++ ">"
  ++ TreeViewer.nl 10 ++ "<input " ++ TreeViewer.attr "type" "text" ++ " "
  ++ TreeViewer.attr "class" "search-input" ++ " "
  ++ TreeViewer.attr "placeholder" "Search routes, lambdas, tables..." ++ " />"
  ++ TreeViewer.nl 8 ++ "</div>"
  ++ TreeViewer.nl 8 ++ "<div " ++ TreeViewer.attr "class" "tree-container" ++ ">"
  ++ TreeViewer.nl 10 ++ tree
  ++ TreeViewer.nl 8 ++ "</div>"
  ++ TreeViewer.nl 6 ++ "</div>"
  ++ TreeViewer.nl 4.

(** [render()]: the container gets new markup, and with it three new
    checkboxes, each checked. *)
Definition render (v : Viewer) : Viewer :=
  let tree := TreeViewer.buildTree (arcData v) (toggleStates v) in
  let html := template (TreeViewer.renderTreeNodes tree 0) in
  {| arcData := arcData v; toggleStates := toggleStates v;
     innerHTML := html;
     boxRoutes := true; boxLambdas := true; boxTables := true |}.

(** The state that the constructor leaves, for a container without
    content. *)
Definition created (data : option TreeViewer.ArcData) : Viewer :=
  {| arcData :=
       match data with
       | Some a => a
       | None => {| TreeViewer.routes := None; TreeViewer.lambdas := None;
                    TreeViewer.tables := None |}
       end;
     toggleStates :=
       {| TreeViewer.toggle_routes := true; TreeViewer.toggle_lambdas := true;
          TreeViewer.toggle_tables := true |};
     innerHTML := EmptyString;
     boxRoutes := false; boxLambdas := false; boxTables := false |}.

(** [init(arcData)] *)
Definition init (data : option TreeViewer.ArcData) (v : Viewer) : Viewer :=
  render
    match data with
    | Some a =>
        {| arcData := a; toggleStates := toggleStates v;
           innerHTML := innerHTML v; boxRoutes := boxRoutes v;
           boxLambdas := boxLambdas v; boxTables := boxTables v |}
    | None => v
    end.

(** The three listeners of the [change] event; [checked] is
    [e.target.checked]. *)
Definition onRoutesChange (checked : bool) (v : Viewer) : Viewer :=
  render
    {| arcData := arcData v;
       toggleStates :=
         {| TreeViewer.toggle_routes := checked;
            TreeViewer.toggle_lambdas := TreeViewer.toggle_lambdas (toggleStates v);
            TreeViewer.toggle_tables := TreeViewer.toggle_tables (toggleStates v) |};
       innerHTML := innerHTML v; boxRoutes := boxRoutes v;
       boxLambdas := boxLambdas v; boxTables := boxTables v |}.

Definition onLambdasChange (checked : bool) (v : Viewer) : Viewer :=
  render
    {| arcData := arcData v;
       toggleStates :=
         {| TreeViewer.toggle_routes := TreeViewer.toggle_routes (toggleStates v);
            TreeViewer.toggle_lambdas := checked;
            TreeViewer.toggle_tables := TreeViewer.toggle_tables (toggleStates v) |};
       innerHTML := innerHTML v; boxRoutes := boxRoutes v;
       boxLambdas := boxLambdas v; boxTables := boxTables v |}.

Definition onTablesChange (checked : bool) (v : Viewer) : Viewer :=
  render
    {| arcData := arcData v;
       toggleStates :=
         {| TreeViewer.toggle_routes := TreeViewer.toggle_routes (toggleStates v);
            TreeViewer.toggle_lambdas := TreeViewer.toggle_lambdas (toggleStates v);
            TreeViewer.toggle_tables := checked |};
       innerHTML := innerHTML v; boxRoutes := boxRoutes v;
       boxLambdas := boxLambdas v; boxTables := boxTables v |}.

(** What happens to the viewer: the host calls [init], or the user clicks
    one of the checkboxes, which flips it and fires its [change] event. *)
Inductive Action :=
| Init (data : option TreeViewer.ArcData)
| ClickRoutes
| ClickLambdas
| ClickTables.

Definition act (v : Viewer) (a : Action) : Viewer :=
  match a with
  | Init data => init data v
  | ClickRoutes => onRoutesChange (negb (boxRoutes v)) v
  | ClickLambdas => onLambdasChange (negb (boxLambdas v)) v
  | ClickTables => onTablesChange (negb (boxTables v)) v
  end.

(** *** The list items that [filterTree] works on *)

(** An [li.tree-node] of the container: the text of its label, whether its
    [style.display] is [none], whether its [.tree-children] box has the
    class [collapsed], and the [li] elements inside that box ([kids] is
    empty for an [li] without a box). *)
Inductive Li := mkLi {
  li_label : string;
  li_hidden : bool;
  li_collapsed : bool;
  li_kids : list Li
}.

(** The part of the container that [filterTree] reads and writes: the
    top-level items, and the text of the [.tree-no-match] element if there
    is one. *)
Record Dom := {
  items : list Li;
  noMatch : option string
}.

(** [text.includes(query.toLowerCase())] for the label of an item. *)
Definition matchesLabel (query label : string) : bool :=
  JS.includes (JS.toLowerCase label) (JS.toLowerCase query).

(** The number of items, at any depth, whose label matches. *)
Fixpoint countMatches (query : string) (li : Li) : nat :=
  (if matchesLabel query (li_label li) then 1 else 0)
  + list_sum (map (countMatches query) (li_kids li)).

(** What the [forEach] of [filterTree] does to one item and the items
    below it.  The display of an item is set from its own label.  A match
    under a non-empty query walks up and removes [collapsed] from every
    enclosing box, so the box of an item is opened exactly when some item
    below it matches. *)
Fixpoint filterLi (query : string) (li : Li) : Li :=
  let matches := matchesLabel query (li_label li) in
  let below := list_sum (map (countMatches query) (li_kids li)) in
  {| li_label := li_label li;
     li_hidden := negb (matches || String.eqb query EmptyString);
     li_collapsed :=
       if negb (String.eqb query EmptyString) && (0 <? below)%nat
       then false else li_collapsed li;
     li_kids := map (filterLi query) (li_kids li) |}.

(** [filterTree(query)] *)
Definition filterTree (query : string) (d : Dom) : Dom :=
  let matchCount :=
    if String.eqb query EmptyString then 0
    else list_sum (map (countMatches query) (items d)) in
  {| items := map (filterLi query) (items d);
     noMatch :=
       if JS.truthy query && (matchCount =? 0)%nat then
         match noMatch d with
         | Some text => Some text
         | None => Some ("No matches for " ++ TreeViewer.dq ++ query ++ TreeViewer.dq)
         end
       else None |}.

End TreeView.

(** ** arc-watcher.js: the event emitter *)

Module Emitter.

(** [this.listeners]: a Map from event names to arrays of callbacks, in
    insertion order.  A callback is a function object; a number stands for
    its identity. *)
Definition Listeners := list (string * list nat).

(** [listeners.get(event)]; [None] when the Map has no such key. *)
Fixpoint get (event : string) (L : Listeners) : option (list nat) :=
  match L with
  | [] => None
  | (e, callbacks) :: r => if String.eqb event e then Some callbacks else get event r
  end.





(** [emit(event, data)] for callbacks that leave the registry alone: the
    callbacks called, in order, and those whose exception was caught and
    logged.  [throws] tells which callbacks throw. *)
Definition emit (throws : nat -> bool) (event : string) (L : Listeners)
  : list nat * list nat :=
  match get event L with
  | None => ([], [])
  | Some callbacks => (callbacks, filter throws callbacks)
  end.

End Emitter.

(** ** arc-copy.js: toasts over time and the button factories *)

Module CopyUi.

(** ASCII white space, which separates the tokens of a class attribute. *)
Definition isAsciiWs (c : ascii) : bool :=
  let n := nat_of_ascii c in
  ((n =? 9) || (n =? 10) || (n =? 12) || (n =? 13) || (n =? 32))%nat.

(** The pieces of a string between runs of ASCII white space. *)
Fixpoint splitTokens (inRun : bool) (s : string) : list string :=
  match s with
  | EmptyString => [EmptyString]
  | String c r =>
      if isAsciiWs c then
        if inRun then splitTokens true r
        else EmptyString :: splitTokens true r
      else match splitTokens false r with
           | p :: ps => String c p :: ps
           | [] => [String c EmptyString]
           end
  end.

(** An ordered set: later repetitions of a token are dropped. *)
Fixpoint orderedSet (l : list string) : list string :=
  match l with
  | [] => []
  | x :: r => x :: filter (fun y => negb (String.eqb x y)) (orderedSet r)
  end.

(** The token set of a class attribute. *)
Definition tokens (className : string) : list string :=
  orderedSet (filter JS.truthy (splitTokens false className)).

(** [classList.add(token)] and [classList.remove(token)]: the attribute
    becomes the token set, with the token appended if it is new or taken
    out, joined by single spaces. *)
Definition classListAdd (token className : string) : string :=
  let ts := tokens className in
  JS.join " " (if existsb (String.eqb token) ts then ts else ts ++ [token])%list.

Definition classListRemove (token className : string) : string :=
  JS.join " " (filter (fun t => negb (String.eqb token t)) (tokens className)).

(** A change of the class of the element with the given identity, wherever
    it is attached. *)
Definition mapClass (f : string -> string) (id : nat) (l : list Copy.Node)
  : list Copy.Node :=
  map (fun n =>
         if (Copy.node_id n =? id)%nat
         then {| Copy.node_id := Copy.node_id n; Copy.tag := Copy.tag n;
                 Copy.className := f (Copy.className n); Copy.text := Copy.text n |}
         else n) l.

Definition setClass (f : string -> string) (id : nat) (d : Copy.Dom) : Copy.Dom :=
  {| Copy.nextId := Copy.nextId d;
     Copy.body := mapClass f id (Copy.body d);
     Copy.container := mapClass f id (Copy.container d);
     Copy.selection := Copy.selection d;
     Copy.clipboardText := Copy.clipboardText d;
     Copy.timers := Copy.timers d;
     Copy.consoleErrors := Copy.consoleErrors d |}.

(** The page with the removals that the hide callbacks have scheduled:
    each is the identity of a toast, to be removed 300 ms later from the
    container that [showToast] used. *)
Record Page := {
  dom : Copy.Dom;
  removals : list nat
}.

(** The callback of one toast timer runs. *)
Definition fireToastTimer (action : Copy.TimerAction) (p : Page) : Page :=
  match action with
  | Copy.ShowToast id =>
      {| dom := setClass (classListAdd "arc-toast-show") id (dom p);
         removals := removals p |}
  | Copy.HideToast id =>
      {| dom := setClass (classListRemove "arc-toast-show") id (dom p);
         removals := (removals p ++ [id])%list |}
  end.

(** [container.removeChild(toast)] in the callback of a removal: the toast
    leaves the container it was appended to; when it is no child, the call
    throws in the callback and nothing changes. *)
Definition fireRemoval (c : Copy.Copier) (id : nat) (d : Copy.Dom) : Copy.Dom :=
  if Copy.toastContainer c then
    match Copy.removeNode id (Copy.container d) with
    | Some rest =>
        {| Copy.nextId := Copy.nextId d; Copy.body := Copy.body d;
           Copy.container := rest; Copy.selection := Copy.selection d;
           Copy.clipboardText := Copy.clipboardText d;
           Copy.timers := Copy.timers d;
           Copy.consoleErrors := Copy.consoleErrors d |}
    | None => d
    end
  else
    match Copy.removeNode id (Copy.body d) with
    | Some rest =>
        {| Copy.nextId := Copy.nextId d; Copy.body := rest;
           Copy.container := Copy.container d; Copy.selection := Copy.selection d;
           Copy.clipboardText := Copy.clipboardText d;
           Copy.timers := Copy.timers d;
           Copy.consoleErrors := Copy.consoleErrors d |}
    | None => d
    end.

(** All pending toast timers fire in the order they were set, then the
    removals they scheduled. *)
Definition settle (c : Copy.Copier) (d : Copy.Dom) : Copy.Dom :=
  let pending := map snd (Copy.timers d) in
  let cleared :=
    {| Copy.nextId := Copy.nextId d; Copy.body := Copy.body d;
       Copy.container := Copy.container d; Copy.selection := Copy.selection d;
       Copy.clipboardText := Copy.clipboardText d; Copy.timers := [];
       Copy.consoleErrors := Copy.consoleErrors d |} in
  let p := fold_left (fun p action => fireToastTimer action p) pending
             {| dom := cleared; removals := [] |} in
  fold_left (fun d id => fireRemoval c id d) (removals p) (dom p).

(** A button made by [createCopyButton] or [createArnButton], with the
    page it lives in: its text, whether it is disabled, and the pending
    restore callbacks (delay in ms and the text they put back). *)
Record Button := {
  page : Copy.Dom;
  textContent : string;
  disabled : bool;
  restores : list (nat * string)
}.

(** [options.label || icon] *)
Definition labelOr (label : option string) (icon : string) : string :=
  match label with
  | Some (String c r) => String c r
  | _ => icon
  end.

(** The button as the factory returns it. *)
Definition createButton (label : option string) (icon : string) (d : Copy.Dom)
  : Button :=
  {| page := d; textContent := labelOr label icon; disabled := false;
     restores := [] |}.

(** The click listener of both factories; [copyAction] is [copyRoute] or
    [copyArn] on the method and path of the button.  When the awaited copy
    throws, the listener ends there and nothing is scheduled. *)
Definition onClick (c : Copy.Copier) (copyAction : Copy.M bool) (b : Button) : Button :=
  let originalText := textContent b in
  match copyAction (page b) with
  | (Copy.Val _, d') =>
      {| page := d'; textContent := "✓"; disabled := true;
         restores := (restores b ++ [(Copy.toastDuration c, originalText)])%list |}
  | (Copy.Exn _, d') =>
      {| page := d'; textContent := "✓"; disabled := true;
         restores := restores b |}
  end.

(** The callback of the first pending restore runs. *)
Definition fireRestore (b : Button) : Button :=
  match restores b with
  | (_, original) :: rest =>
      {| page := page b; textContent := original; disabled := false;
         restores := rest |}
  | [] => b
  end.

End CopyUi.

(** * Vocabulary of the statements *)

(** ** Decimal index strings *)

(** A decimal digit character. *)
Definition isDec (c : ascii) : bool :=
  let n := nat_of_ascii c in ((48 <=? n) && (n <=? 57))%nat.

Fixpoint allDec (s : string) : bool :=
  match s with
  | EmptyString => true
  | String c r => isDec c && allDec r
  end.

(** ** Tree Renderer *)

(** A tree has a group of the given id. *)
Definition hasGroup (tree : list TreeViewer.TreeNode) (gid : string) : Prop :=
  exists g, In g tree /\ TreeViewer.node_id g = gid.

(** The children of a group mirror the source list: same length, and the
    child at position [i] is built from the element at [i] with index [i]. *)
Definition mirrors {A : Type} (mk : A -> nat -> TreeViewer.TreeNode)
    (src : list A) (kids : list TreeViewer.TreeNode) : Prop :=
  length kids = length src
  /\ forall i x, nth_error src i = Some x -> nth_error kids i = Some (mk x i).

(** The entities of one category, in source order. *)
Definition entitiesOf (M : TreeViewer.ArcData) (ty : TreeViewer.NodeType)
  : list TreeViewer.Entity :=
  match ty with
  | TreeViewer.route =>
      map TreeViewer.ERoute (TreeViewer.orEmpty (TreeViewer.routes M))
  | TreeViewer.lambda =>
      map TreeViewer.ELambda (TreeViewer.orEmpty (TreeViewer.lambdas M))
  | TreeViewer.table =>
      map TreeViewer.ETable (TreeViewer.orEmpty (TreeViewer.tables M))
  end.

(** The id prefix of a category. *)
Definition idPrefix (ty : TreeViewer.NodeType) : string :=
  TreeViewer.typeName ty ++ "-".

(** A character occurs in a string. *)
Fixpoint occurs (c : ascii) (s : string) : bool :=
  match s with
  | EmptyString => false
  | String d r => Ascii.eqb c d || occurs c r
  end.

(** The opening tag of the label of a node. *)
Definition labelOpen : string :=
  "<span " ++ TreeViewer.attr "class" "tree-label" ++ ">".

Definition sampleRoute : TreeViewer.Route :=
  {| TreeViewer.method := "GET"; TreeViewer.path := "/api/users";
     TreeViewer.functionName := "get-api-users" |}.

Definition sampleManifest : TreeViewer.ArcData :=
  {| TreeViewer.routes := Some [sampleRoute];
     TreeViewer.lambdas := Some [ {| TreeViewer.lambda_name := "notifier" |} ];
     TreeViewer.tables := None |}.

Definition allOn : TreeViewer.ToggleStates :=
  {| TreeViewer.toggle_routes := true; TreeViewer.toggle_lambdas := true;
     TreeViewer.toggle_tables := true |}.

Definition sampleLambdaNode : TreeViewer.TreeNode :=
  TreeViewer.lambdaNode {| TreeViewer.lambda_name := "notifier" |} 0.

Definition quotedRoute : TreeViewer.Route :=
  {| TreeViewer.method := "GET";
     TreeViewer.path := "/a" ++ TreeViewer.dq ++ "b";
     TreeViewer.functionName := "get-a" |}.

Definition clickedPage : TreeViewer.Page :=
  {| TreeViewer.textContent := "📋";
     TreeViewer.dataValue := "GET /api/users";
     TreeViewer.clipboard := None;
     TreeViewer.timers := [];
     TreeViewer.consoleErrors := [];
     TreeViewer.globals := [] |}.

(** ** Search Index *)

(** The empty string or a string of white space only. *)
Fixpoint allWs (s : string) : bool :=
  match s with
  | EmptyString => true
  | String c r => JS.isWhiteSpace c && allWs r
  end.

(** The text contains the query when letter case is ignored. *)
Definition containsIgnoringCase (text query : string) : Prop :=
  exists pre post, JS.toLowerCase text = pre ++ JS.toLowerCase query ++ post.

Definition withLastResults (st : Search.State) (r : option (list Search.SearchItem))
  : Search.State :=
  {| Search.fuse := Search.fuse st; Search.items := Search.items st;
     Search.lastResults := r |}.

Definition apiItem : Search.SearchItem :=
  {| Search.item_type := "lambda"; Search.item_name := "GET /api/users";
     Search.item_path := None; Search.item_method := None;
     Search.item_functionName := None; Search.searchText := "GET /api/users" |}.

Definition notifierItem : Search.SearchItem :=
  {| Search.item_type := "lambda"; Search.item_name := "notifier";
     Search.item_path := None; Search.item_method := None;
     Search.item_functionName := None; Search.searchText := "notifier" |}.

Definition fallbackState : Search.State :=
  {| Search.fuse := None; Search.items := Some [apiItem; notifierItem];
     Search.lastResults := None |}.

(** ** Clipboard helper *)

(** Ids already in the document are older than the next fresh id. *)
Definition freshIds (d : Copy.Dom) : Prop :=
  forall n, In n (Copy.body d) -> Copy.node_id n < Copy.nextId d.

Definition emptyPage : Copy.Dom :=
  {| Copy.nextId := 0; Copy.body := []; Copy.container := [];
     Copy.selection := None; Copy.clipboardText := None;
     Copy.timers := []; Copy.consoleErrors := [] |}.

Definition defaultCopier : Copy.Copier :=
  {| Copy.toastDuration := 2000; Copy.toastContainer := false |}.

(** An insecure context in which [execCommand] throws. *)
Definition throwingPlatform : Copy.Env :=
  {| Copy.hasClipboard := true; Copy.isSecureContext := false;
     Copy.writeText := Copy.Rejects; Copy.execCommand := Copy.ExecThrows |}.

(** A secure context whose clipboard accepts the write. *)
Definition securePlatform : Copy.Env :=
  {| Copy.hasClipboard := true; Copy.isSecureContext := true;
     Copy.writeText := Copy.Resolves; Copy.execCommand := Copy.ExecReturns false |}.

(** ** Live Watcher *)

Section WatcherVocabulary.

Context {Snapshot : Type} (stringify : Snapshot -> string).

(** The watcher polls and waits for its timer: it is watching, no fetch
    is in flight, and the one pending timer is the poll timer it
    recorded. *)
Definition waiting (w : @Watcher.World Snapshot) : Prop :=
  Watcher.isWatching w = true
  /\ Watcher.inFlight w = 0
  /\ exists t, Watcher.pollTimeout w = Some t
               /\ Watcher.timers w = [(t, Watcher.PollTimer)].

(** One successful poll: the recorded timer fires and the fetch settles
    with a snapshot. *)
Definition pollOnce (w : @Watcher.World Snapshot) (data : Snapshot) : @Watcher.World Snapshot :=
  match Watcher.pollTimeout w with
  | Some t =>
      Watcher.run stringify
        [Watcher.TimerFires t; Watcher.FetchSettles (Watcher.FetchOk data)] w
  | None => w
  end.

Definition pollAll (ss : list Snapshot) (w : @Watcher.World Snapshot) : @Watcher.World Snapshot :=
  fold_left pollOnce ss w.

(** The snapshots of a polled sequence whose serialised form is not that
    of the snapshot polled before; [prev] is the form observed before the
    sequence, if any. *)
Fixpoint transitions (prev : option string) (ss : list Snapshot) : list Snapshot :=
  match ss with
  | [] => []
  | s :: r =>
      match prev with
      | Some p =>
          if String.eqb p (stringify s) then transitions (Some (stringify s)) r
          else s :: transitions (Some (stringify s)) r
      | None => s :: transitions (Some (stringify s)) r
      end
  end.

(** Events of the polling path and further calls of [stop]. *)
Definition pollingEvent (e : @Watcher.Event Snapshot) : Prop :=
  match e with
  | Watcher.TimerFires _ | Watcher.FetchSettles _ | Watcher.CallStop => True
  | _ => False
  end.

End WatcherVocabulary.

(** A snapshot identified with its serialised form. *)
Definition serialised (s : string) : string := s.

Definition startedWatcher : @Watcher.World string :=
  Watcher.start (Watcher.created false).

(** The watcher of the started page once its first poll has begun: it is
    watching and its fetch is in flight. *)
Definition fetchingWatcher : @Watcher.World string :=
  Watcher.run serialised [Watcher.CallStart; Watcher.TimerFires 1]
    (Watcher.created false).

(** ** File Linker *)

(** No character of the string is white space. *)
Fixpoint wsFree (s : string) : bool :=
  match s with
  | EmptyString => true
  | String c r => negb (JS.isWhiteSpace c) && wsFree r
  end.

(** The folder-name part that [routeToPath] derives from a path. *)
Definition pathSegments (path : string) : string :=
  JS.toLowerCase (JS.join "-" (filter JS.truthy (JS.splitChar "/" path))).

(** A sequence of [getLink] calls on one linker: the links returned, in
    order, and the cache left. *)
Fixpoint getLinks (calls : list (string * string)) (c : Linker.Cache)
  : list (option string) * Linker.Cache :=
  match calls with
  | [] => ([], c)
  | (ty, name) :: r =>
      let '(link, c1) := Linker.getLink c ty name in
      let '(links, c2) := getLinks r c1 in
      (link :: links, c2)
  end.

(** The node type of every call is free of colons. *)
Definition colonFreeTypes (calls : list (string * string)) : Prop :=
  Forall (fun call => occurs ":" (fst call) = false) calls.

(** Every entry of the cache holds the link of the type and name that make
    its key, for a type without a colon. *)
Definition coherent (c : Linker.Cache) : Prop :=
  forall ty name link,
    occurs ":" ty = false ->
    Linker.cacheGet (ty ++ ":" ++ name) c = Some link ->
    link = FileLinker.getLinkPath ty name.

(** An item has the given type. *)
Definition hasType (ty : string) (item : Search.SearchItem) : bool :=
  String.eqb (Search.item_type item) ty.

(** The search items of the entities that [simpleSearch] returns. *)
Definition itemsOfSimple (s : SearchApi.Simple) : SearchApi.Grouped :=
  {| SearchApi.g_routes := map Search.routeItem (SearchApi.s_routes s);
     SearchApi.g_lambdas := map Search.lambdaItem (SearchApi.s_lambdas s);
     SearchApi.g_tables := map Search.tableItem (SearchApi.s_tables s) |}.

(** An [ArcSearch] whose fuzzy index answers every query with one item. *)
Definition indexedState : Search.State :=
  {| Search.fuse := Some (fun _ => [notifierItem]); Search.items := None;
     Search.lastResults := None |}.

(** ** Tree Renderer: ids and escaping *)

(** The ids that the markup of a tree carries in [data-node-id]: each
    group followed by its children. *)
Definition allIds (tree : list TreeViewer.TreeNode) : list string :=
  concat (map (fun g => TreeViewer.node_id g
                        :: map TreeViewer.node_id (TreeViewer.children g)) tree).

(** None of the four characters that escaping replaces occurs. *)
Definition plainText (text : string) : Prop :=
  occurs "&" text = false /\ occurs TreeViewer.nbsp text = false
  /\ occurs "<" text = false /\ occurs ">" text = false.

(** ** Tree Renderer: toggles and filter *)

(** The three checkboxes are checked, as [render] leaves them. *)
Definition allChecked (v : TreeView.Viewer) : Prop :=
  TreeView.boxRoutes v = true /\ TreeView.boxLambdas v = true
  /\ TreeView.boxTables v = true.

Definition isClickRoutes (a : TreeView.Action) : bool :=
  match a with TreeView.ClickRoutes => true | _ => false end.

Definition isClickLambdas (a : TreeView.Action) : bool :=
  match a with TreeView.ClickLambdas => true | _ => false end.

Definition isClickTables (a : TreeView.Action) : bool :=
  match a with TreeView.ClickTables => true | _ => false end.

(** The notice for an empty tree. *)
Definition noItems : string :=
  "<div " ++ TreeViewer.attr "class" "tree-empty" ++ ">No items</div>".

(** A category is off or has nothing to show. *)
Definition offOrEmpty {A : Type} (toggle : bool) (l : option (list A)) : Prop :=
  toggle = false \/ TreeViewer.orEmpty l = [].

(** An item and all items below it, in document order. *)
Fixpoint nodes (li : TreeView.Li) : list TreeView.Li :=
  li :: concat (map nodes (TreeView.li_kids li)).

Definition allNodes (l : list TreeView.Li) : list TreeView.Li :=
  concat (map nodes l).

(** The labels a reader sees: those of the items that are not hidden and
    lie in no hidden item. *)
Fixpoint displayedLi (li : TreeView.Li) : list string :=
  if TreeView.li_hidden li then []
  else TreeView.li_label li :: concat (map displayedLi (TreeView.li_kids li)).

Definition displayed (l : list TreeView.Li) : list string :=
  concat (map displayedLi l).

(** The number of items of a forest whose label matches. *)
Definition totalMatches (query : string) (l : list TreeView.Li) : nat :=
  list_sum (map (TreeView.countMatches query) l).

(** The text of a new notice for a query. *)
Definition noticeFor (query : string) : string :=
  "No matches for " ++ TreeViewer.dq ++ query ++ TreeViewer.dq.

(** A viewer as [init] leaves it on the sample manifest. *)
Definition sampleViewer : TreeView.Viewer :=
  TreeView.init (Some sampleManifest) (TreeView.created None).

(** A group with one child, as the sample manifest gives for its routes. *)
Definition sampleItems : list TreeView.Li :=
  [ {| TreeView.li_label := "Routes"; TreeView.li_hidden := false;
       TreeView.li_collapsed := true;
       TreeView.li_kids :=
         [ {| TreeView.li_label := "GET /api/users"; TreeView.li_hidden := false;
              TreeView.li_collapsed := false; TreeView.li_kids := [] |} ] |} ].

Definition sampleDom : TreeView.Dom :=
  {| TreeView.items := sampleItems; TreeView.noMatch := None |}.

(** ** Live Watcher: the polling loop *)

Section LoopVocabulary.

Context {Snapshot : Type}.

(** Exactly one polling loop runs: the watcher is watching and either its
    recorded timer is the one pending timer and no fetch is in flight, or
    no timer is pending and one fetch is in flight. *)
Definition looping (w : @Watcher.World Snapshot) : Prop :=
  Watcher.isWatching w = true
  /\ ((Watcher.inFlight w = 0
       /\ exists t, Watcher.pollTimeout w = Some t
                    /\ Watcher.timers w = [(t, Watcher.PollTimer)])
      \/ (Watcher.inFlight w = 1 /\ Watcher.timers w = [])).

(** What the platform does to a polling watcher: a timer fires, a fetch
    settles. *)
Definition platformEvent (e : @Watcher.Event Snapshot) : Prop :=
  match e with
  | Watcher.TimerFires _ | Watcher.FetchSettles _ => True
  | _ => False
  end.

(** A platform event that brings no snapshot. *)
Definition withoutData (e : @Watcher.Event Snapshot) : Prop :=
  match e with
  | Watcher.TimerFires _ | Watcher.FetchSettles Watcher.FetchFails => True
  | _ => False
  end.

(** The number of pending poll timers. *)
Definition pollTimers (w : @Watcher.World Snapshot) : nat :=
  length (filter (fun t => match snd t with
                           | Watcher.PollTimer => true
                           | Watcher.ReconnectTimer => false
                           end) (Watcher.timers w)).

End LoopVocabulary.


Section LoopCount.

Context {Snapshot : Type}.

(** The polling loops alive: each is either waiting on its timer or
    suspended at its fetch. *)
Definition loops (w : @Watcher.World Snapshot) : nat :=
  pollTimers w + Watcher.inFlight w.

(** Timer ids as [setTimeout] hands them out: pairwise distinct, and older
    than the next one. *)
Definition distinctTimers (w : @Watcher.World Snapshot) : Prop :=
  NoDup (map fst (Watcher.timers w))
  /\ forall t, In t (Watcher.timers w) -> fst t < Watcher.nextTimer w.

(** Any event but a call of [stop]. *)
Definition keepsWatching (e : @Watcher.Event Snapshot) : Prop :=
  match e with
  | Watcher.CallStop => False
  | _ => True
  end.

(** The number of socket error events in a sequence. *)
Definition socketErrors (es : list (@Watcher.Event Snapshot)) : nat :=
  length (filter (fun e => match e with
                           | Watcher.SocketError => true
                           | _ => false
                           end) es).

End LoopCount.

(** The test that counts the poll timers. *)
Abbreviation isPoll :=
  (fun t : nat * Watcher.TimerKind =>
     match snd t with
     | Watcher.PollTimer => true
     | Watcher.ReconnectTimer => false
     end).

(** A started watcher in a page with WebSocket. *)
Definition connectingWatcher : @Watcher.World string :=
  Watcher.start (Watcher.created true).

(** ** Event emitter and clipboard buttons *)


(** Ids already in the body or in the toast container are older than the
    next fresh id. *)
Definition freshPage (d : Copy.Dom) : Prop :=
  forall n, In n (Copy.body d ++ Copy.container d) ->
            Copy.node_id n < Copy.nextId d.

(** The toast that tells the outcome of a copy. *)
Definition outcomeToast (id : nat) (success : bool) (txt : string) : Copy.Node :=
  {| Copy.node_id := id; Copy.tag := "div";
     Copy.className :=
       if success then "arc-toast arc-toast-success" else "arc-toast arc-toast-error";
     Copy.text := if success then "Copied: " ++ txt else "Failed to copy" |}.

(** * Theorems *)

(** ** File Linker *)

(** C5: the four documented examples of [getLinkPath] evaluate to the
    documented paths, a route without a method gets the method [get], and
    every node type other than route, lambda and table yields null. *)
Theorem getLinkPath_examples_and_default :
  FileLinker.getLinkPath "route" "GET /api/users"
    = Some "src/http/get-api-users/index.mjs"
  /\ FileLinker.getLinkPath "route" "/api/users"
    = Some "src/http/get-api-users/index.mjs"
  /\ FileLinker.getLinkPath "lambda" "notifier" = Some "src/lambdas/notifier"
  /\ FileLinker.getLinkPath "table" "users" = Some "src/tables/users.ts"
  /\ (forall nodeType nodeName,
        nodeType <> "route" -> nodeType <> "lambda" -> nodeType <> "table" ->
        FileLinker.getLinkPath nodeType nodeName = None).
Proof.
  repeat split; try reflexivity.
  intros nodeType nodeName Hr Hl Ht.
  unfold FileLinker.getLinkPath.
  apply String.eqb_neq in Hr, Hl, Ht.
  now rewrite Hr, Hl, Ht.
Qed.

Lemma getLinkPath_examples_and_default_witness :
  FileLinker.getLinkPath "function" "notifier" = None.
Proof.
  apply (proj2 (proj2 (proj2 (proj2 getLinkPath_examples_and_default))));
    discriminate.
Defined.

(** ** Decimal index strings *)

Lemma string_of_uint_allDec (u : Decimal.uint) :
  allDec (NilEmpty.string_of_uint u) = true.
Proof. induction u; simpl; auto. Qed.

Lemma to_uint_nonnil (n : nat) : Nat.to_uint n <> Decimal.Nil.
Proof.
  rewrite <- (DecimalNat.Unsigned.of_to n) at 1.
  rewrite DecimalNat.Unsigned.to_of.
  apply DecimalFacts.unorm_nonnil.
Qed.

Lemma numberToString_allDec (n : nat) : allDec (JS.numberToString n) = true.
Proof. apply string_of_uint_allDec. Qed.

Lemma numberToString_nonempty (n : nat) : JS.numberToString n <> EmptyString.
Proof.
  unfold JS.numberToString.
  pose proof (to_uint_nonnil n) as H.
  destruct (Nat.to_uint n); try congruence; discriminate.
Qed.

Lemma digitsValue_of_uint (u : Decimal.uint) :
  forall a : nat,
    JS.digitsValue 10 (Z.of_nat a) (NilEmpty.string_of_uint u)
    = Z.of_nat (Nat.of_uint_acc u a).
Proof.
  induction u; intros a; [reflexivity | ..];
    cbn [NilEmpty.string_of_uint JS.digitsValue Nat.of_uint_acc];
    rewrite <- IHu; rewrite Nat.tail_mul_spec;
    match goal with
    | |- context [JS.digitVal 10 ?c] =>
        change (JS.digitVal 10 c) with (Some (Z.of_nat (nat_of_ascii c) - 48)%Z)
    end;
    cbv iota beta; f_equal;
    match goal with
    | |- context [nat_of_ascii ?c] =>
        let v := eval compute in (nat_of_ascii c) in
        change (nat_of_ascii c) with v
    end; lia.
Qed.

Lemma digitsValue_numberToString (n : nat) :
  JS.digitsValue 10 0 (JS.numberToString n) = Z.of_nat n.
Proof.
  unfold JS.numberToString.
  change 0%Z with (Z.of_nat 0).
  rewrite digitsValue_of_uint.
  f_equal. apply DecimalNat.Unsigned.of_to.
Qed.

(** Case analysis on a decimal digit character. *)
Lemma isDec_cases (c : ascii) :
  isDec c = true ->
  c = "0"%char \/ c = "1"%char \/ c = "2"%char \/ c = "3"%char \/ c = "4"%char
  \/ c = "5"%char \/ c = "6"%char \/ c = "7"%char \/ c = "8"%char \/ c = "9"%char.
Proof.
  destruct c as [[] [] [] [] [] [] [] []]; cbv; intros H;
    try discriminate H; tauto.
Qed.

Ltac dec_cases H :=
  apply isDec_cases in H;
  repeat (destruct H as [H | H]); subst.

(** [parseInt] reads a non-empty string of decimal digits as its value:
    no white space is skipped, no sign and no hexadecimal prefix is found. *)
Lemma parseInt_allDec (s : string) :
  s <> EmptyString -> allDec s = true ->
  JS.parseInt s = Some (JS.digitsValue 10 0 s).
Proof.
  destruct s as [|c r]; [congruence|]. intros _ H.
  simpl in H. apply andb_prop in H. destruct H as [Hc Hr].
  destruct r as [|d r'].
  - dec_cases Hc; reflexivity.
  - simpl in Hr. apply andb_prop in Hr. destruct Hr as [Hd _].
    assert (E : forall t, JS.parseInt t = Some (1 * JS.digitsValue 10 0 t)%Z ->
                          JS.parseInt t = Some (JS.digitsValue 10 0 t))
      by (intros t ->; now rewrite Z.mul_1_l).
    apply E.
    dec_cases Hc; try reflexivity.
    dec_cases Hd; reflexivity.
Qed.

Lemma parseInt_numberToString (n : nat) :
  JS.parseInt (JS.numberToString n) = Some (Z.of_nat n).
Proof.
  rewrite parseInt_allDec.
  - now rewrite digitsValue_numberToString.
  - apply numberToString_nonempty.
  - apply numberToString_allDec.
Qed.

Lemma isDec_not_dash (c : ascii) : isDec c = true -> Ascii.eqb c "-" = false.
Proof. intros H. dec_cases H; reflexivity. Qed.

Lemma splitChar_allDec (s : string) :
  allDec s = true -> JS.splitChar "-" s = [s].
Proof.
  induction s as [|c r IH]; [reflexivity|].
  simpl. intros H. apply andb_prop in H. destruct H as [Hc Hr].
  now rewrite (isDec_not_dash c Hc), (IH Hr).
Qed.

(** ** Tree Renderer: building the tree and resolving node ids *)

Section MapIndexed.
Context {A B : Type} (f : A -> nat -> B).

Lemma mapiFrom_length (l : list A) :
  forall k, length (TreeViewer.mapiFrom k f l) = length l.
Proof. induction l; intros k; simpl; auto. Qed.

Lemma mapiFrom_nth_error (l : list A) :
  forall k i x,
    nth_error l i = Some x ->
    nth_error (TreeViewer.mapiFrom k f l) i = Some (f x (k + i)).
Proof.
  induction l as [|y l IH]; intros k [|i] x H; simpl in *; try discriminate.
  - injection H as ->. now rewrite Nat.add_0_r.
  - rewrite (IH (S k) i x H). f_equal. f_equal. lia.
Qed.

Lemma mapiFrom_In (l : list A) :
  forall k c,
    In c (TreeViewer.mapiFrom k f l) ->
    exists i x, nth_error l i = Some x /\ c = f x (k + i).
Proof.
  induction l as [|y l IH]; intros k c H; simpl in H; [contradiction|].
  destruct H as [<- | H].
  - exists 0, y. now rewrite Nat.add_0_r.
  - destruct (IH (S k) c H) as (i & x & Hi & ->).
    exists (S i), x. split; [exact Hi|]. f_equal. lia.
Qed.
End MapIndexed.

Lemma mapi_nth_error {A B : Type} (f : A -> nat -> B) (l : list A) i x :
  nth_error l i = Some x -> nth_error (TreeViewer.mapi f l) i = Some (f x i).
Proof. intros H. apply (mapiFrom_nth_error f l 0 i x H). Qed.

Lemma mapi_In {A B : Type} (f : A -> nat -> B) (l : list A) c :
  In c (TreeViewer.mapi f l) -> exists i x, nth_error l i = Some x /\ c = f x i.
Proof. intros H. apply (mapiFrom_In f l 0 c H). Qed.

Lemma mapi_mirrors {A : Type} (mk : A -> nat -> TreeViewer.TreeNode) (l : list A) :
  mirrors mk l (TreeViewer.mapi mk l).
Proof.
  split; [apply mapiFrom_length | intros i x; apply mapi_nth_error].
Qed.

Ltac tree_cases M T :=
  destruct T as [[] [] []], M as [[[|? ?]|] [[|? ?]|] [[|? ?]|]];
  cbn [TreeViewer.buildTree TreeViewer.toggle_routes TreeViewer.toggle_lambdas
       TreeViewer.toggle_tables TreeViewer.routes TreeViewer.lambdas
       TreeViewer.tables TreeViewer.nonEmpty TreeViewer.orEmpty andb
       Datatypes.app].

Ltac in_tree H :=
  repeat (destruct H as [H | H]; [subst | ]); try contradiction.

(** Every element of the built tree is one of the three groups, with the
    indexed image of its source list as children. *)
Lemma buildTree_In (M : TreeViewer.ArcData) (T : TreeViewer.ToggleStates) g :
  In g (TreeViewer.buildTree M T) ->
  g = TreeViewer.groupNode "routes-group" "Routes"
        (TreeViewer.mapi TreeViewer.routeNode (TreeViewer.orEmpty (TreeViewer.routes M)))
  \/ g = TreeViewer.groupNode "lambdas-group" "Lambdas"
        (TreeViewer.mapi TreeViewer.lambdaNode (TreeViewer.orEmpty (TreeViewer.lambdas M)))
  \/ g = TreeViewer.groupNode "tables-group" "Tables"
        (TreeViewer.mapi TreeViewer.tableNode (TreeViewer.orEmpty (TreeViewer.tables M))).
Proof.
  intros Hg. unfold TreeViewer.buildTree in Hg.
  repeat (apply in_app_or in Hg; destruct Hg as [Hg | Hg]);
    match type of Hg with
    | In _ (if ?b then _ else _) => destruct b; simpl in Hg
    end; in_tree Hg; auto.
Qed.

(** C4: a group is in the tree exactly when its toggle is on and its list is
    non-empty; the tree holds only these groups and at most three of them;
    the children of a group follow the source list, the child at position
    [i] carrying the id made of the type and [i]. *)
Theorem buildTree_groups_and_children :
  forall (M : TreeViewer.ArcData) (T : TreeViewer.ToggleStates),
    let tree := TreeViewer.buildTree M T in
    (hasGroup tree "routes-group" <->
       TreeViewer.toggle_routes T = true
       /\ exists r rs, TreeViewer.routes M = Some (r :: rs))
    /\ (hasGroup tree "lambdas-group" <->
       TreeViewer.toggle_lambdas T = true
       /\ exists l ls, TreeViewer.lambdas M = Some (l :: ls))
    /\ (hasGroup tree "tables-group" <->
       TreeViewer.toggle_tables T = true
       /\ exists t ts, TreeViewer.tables M = Some (t :: ts))
    /\ length tree <= 3
    /\ (forall g, In g tree ->
          (TreeViewer.node_id g = "routes-group"
           /\ mirrors TreeViewer.routeNode
                (TreeViewer.orEmpty (TreeViewer.routes M)) (TreeViewer.children g))
          \/ (TreeViewer.node_id g = "lambdas-group"
           /\ mirrors TreeViewer.lambdaNode
                (TreeViewer.orEmpty (TreeViewer.lambdas M)) (TreeViewer.children g))
          \/ (TreeViewer.node_id g = "tables-group"
           /\ mirrors TreeViewer.tableNode
                (TreeViewer.orEmpty (TreeViewer.tables M)) (TreeViewer.children g)))
    /\ (forall (r : TreeViewer.Route) (l : TreeViewer.Lambda)
               (t : TreeViewer.Table) (i : nat),
          TreeViewer.node_id (TreeViewer.routeNode r i)
            = "route-" ++ JS.numberToString i
          /\ TreeViewer.node_id (TreeViewer.lambdaNode l i)
            = "lambda-" ++ JS.numberToString i
          /\ TreeViewer.node_id (TreeViewer.tableNode t i)
            = "table-" ++ JS.numberToString i).
Proof.
  intros M T tree.
  assert (Hmem :
    (hasGroup tree "routes-group" <->
       TreeViewer.toggle_routes T = true
       /\ exists r rs, TreeViewer.routes M = Some (r :: rs))
    /\ (hasGroup tree "lambdas-group" <->
       TreeViewer.toggle_lambdas T = true
       /\ exists l ls, TreeViewer.lambdas M = Some (l :: ls))
    /\ (hasGroup tree "tables-group" <->
       TreeViewer.toggle_tables T = true
       /\ exists t ts, TreeViewer.tables M = Some (t :: ts))
    /\ length tree <= 3).
  { subst tree. unfold hasGroup.
    tree_cases M T;
      (split; [split | split; [split | split; [split | ]]]);
      first
        [ simpl; lia
        | intros (g & Hg & Hid); simpl in Hg; in_tree Hg; cbn in Hid;
          first [ discriminate Hid | split; [reflexivity | eauto] ]
        | intros (Ht & ? & ? & Hl);
          first [ discriminate Ht | discriminate Hl
                | eexists; split; [left; reflexivity | reflexivity]
                | eexists; split; [right; left; reflexivity | reflexivity]
                | eexists; split;
                  [right; right; left; reflexivity | reflexivity] ] ]. }
  destruct Hmem as (H1 & H2 & H3 & H4).
  repeat split; try tauto.
  - intros g Hg. subst tree.
    destruct (buildTree_In M T g Hg) as [-> | [-> | ->]].
    + left. split; [reflexivity | apply mapi_mirrors].
    + right; left. split; [reflexivity | apply mapi_mirrors].
    + right; right. split; [reflexivity | apply mapi_mirrors].
Qed.

Lemma buildTree_groups_and_children_witness :
  hasGroup (TreeViewer.buildTree sampleManifest allOn) "routes-group"
  /\ ~ hasGroup (TreeViewer.buildTree sampleManifest allOn) "tables-group".
Proof.
  pose proof (buildTree_groups_and_children sampleManifest allOn) as (Hr & _ & Ht & _).
  split.
  - apply Hr. split; [reflexivity | do 2 eexists; reflexivity].
  - intros H. apply Ht in H. destruct H as (_ & t & ts & H). discriminate H.
Defined.

Lemma index_map {A B : Type} (f : A -> B) (l : list A) (idx : option Z) :
  JS.index (map f l) idx = option_map f (JS.index l idx).
Proof.
  destruct idx as [z|]; [|reflexivity]. simpl.
  destruct (z <? 0)%Z; [reflexivity|]. apply nth_error_map.
Qed.

Lemma index_of_nat {A : Type} (l : list A) (i : nat) :
  JS.index l (Some (Z.of_nat i)) = nth_error l i.
Proof.
  simpl. destruct (Z.ltb_spec (Z.of_nat i) 0); [lia|].
  now rewrite Nat2Z.id.
Qed.

Lemma index_out_of_range {A : Type} (l : list A) (idx : option Z) :
  (idx = None \/ exists z, idx = Some z /\ (z < 0 \/ Z.of_nat (length l) <= z)%Z) ->
  JS.index l idx = None.
Proof.
  intros [-> | (z & -> & Hz)]; [reflexivity|]. simpl.
  destruct (Z.ltb_spec z 0); [reflexivity|].
  apply nth_error_None. lia.
Qed.

(** Two prefixes that differ in their first character exclude each other. *)
Lemma startsWith_exclusive (id : string) (a b : ascii) (p q : string) :
  a <> b ->
  JS.startsWith id (String a p) = true ->
  JS.startsWith id (String b q) = false.
Proof.
  intros Hab H. destruct id as [|c r]; [discriminate H|].
  simpl in H |- *. apply andb_prop in H. destruct H as [H _].
  apply Ascii.eqb_eq in H. subst c.
  apply Ascii.eqb_neq in Hab. rewrite Ascii.eqb_sym in Hab.
  now rewrite Hab.
Qed.

(** [getNode] on an id with the prefix of a category. *)
Lemma getNode_prefix (M : TreeViewer.ArcData) (ty : TreeViewer.NodeType) (id : string) :
  JS.startsWith id (idPrefix ty) = true ->
  TreeViewer.getNode M id
  = Some {| TreeViewer.ref_type := ty;
            TreeViewer.ref_data :=
              JS.index (entitiesOf M ty) (TreeViewer.parseIndex id) |}.
Proof.
  intros H. unfold TreeViewer.getNode.
  destruct ty; cbn [entitiesOf]; rewrite index_map.
  - change (idPrefix TreeViewer.route) with "route-" in H. now rewrite H.
  - change (idPrefix TreeViewer.lambda) with "lambda-" in H.
    rewrite (startsWith_exclusive id "l" "r" _ "oute-" ltac:(discriminate) H).
    now rewrite H.
  - change (idPrefix TreeViewer.table) with "table-" in H.
    rewrite (startsWith_exclusive id "t" "r" _ "oute-" ltac:(discriminate) H).
    rewrite (startsWith_exclusive id "t" "l" _ "ambda-" ltac:(discriminate) H).
    now rewrite H.
Qed.

(** The index encoded in an id built by [buildTree] is read back. *)
Lemma parseIndex_built (ty : TreeViewer.NodeType) (i : nat) :
  TreeViewer.parseIndex (idPrefix ty ++ JS.numberToString i) = Some (Z.of_nat i).
Proof.
  unfold TreeViewer.parseIndex.
  pose proof (splitChar_allDec _ (numberToString_allDec i)) as Hs.
  destruct ty; cbn [idPrefix TreeViewer.typeName append];
    cbn [JS.splitChar Ascii.eqb Bool.eqb]; rewrite Hs;
    cbn [nth]; apply parseInt_numberToString.
Qed.

Lemma startsWith_app (p s : string) : JS.startsWith (p ++ s) p = true.
Proof.
  induction p as [|c p IH]; simpl; [now destruct s|].
  now rewrite Ascii.eqb_refl, IH.
Qed.

(** C1 (as the code has it): every id that [buildTree] gives to a child
    resolves, on the same manifest, to the type of the child and the element
    at the encoded index of the list of that type; [getNode] returns null
    exactly for the ids that start with none of the three prefixes; an id
    with a prefix whose index does not parse or is out of range resolves to
    the type with undefined data.  [getNode] is total: no input throws. *)
Theorem getNode_resolves_built_ids :
  forall M : TreeViewer.ArcData,
    (forall T g c,
        In g (TreeViewer.buildTree M T) -> In c (TreeViewer.children g) ->
        exists ty i e,
          TreeViewer.node_type c = Some ty
          /\ TreeViewer.node_id c = idPrefix ty ++ JS.numberToString i
          /\ nth_error (entitiesOf M ty) i = Some e
          /\ TreeViewer.getNode M (TreeViewer.node_id c)
             = Some {| TreeViewer.ref_type := ty; TreeViewer.ref_data := Some e |})
    /\ (forall id,
          TreeViewer.getNode M id = None
          <-> forall ty, JS.startsWith id (idPrefix ty) = false)
    /\ (forall id ty,
          JS.startsWith id (idPrefix ty) = true ->
          (TreeViewer.parseIndex id = None
           \/ exists z, TreeViewer.parseIndex id = Some z
                /\ (z < 0 \/ Z.of_nat (length (entitiesOf M ty)) <= z)%Z) ->
          TreeViewer.getNode M id
          = Some {| TreeViewer.ref_type := ty; TreeViewer.ref_data := None |}).
Proof.
  intros M. split; [|split].
  - intros T g c Hg Hc.
    assert (Hres : forall ty i e,
      nth_error (entitiesOf M ty) i = Some e ->
      TreeViewer.getNode M (idPrefix ty ++ JS.numberToString i)
      = Some {| TreeViewer.ref_type := ty; TreeViewer.ref_data := Some e |}).
    { intros ty i e He.
      rewrite (getNode_prefix M ty) by apply startsWith_app.
      now rewrite parseIndex_built, index_of_nat, He. }
    destruct (buildTree_In M T g Hg) as [-> | [-> | ->]];
      cbn [TreeViewer.children TreeViewer.groupNode] in Hc;
      apply mapi_In in Hc; destruct Hc as (i & x & Hi & ->).
    + exists TreeViewer.route, i, (TreeViewer.ERoute x).
      assert (He : nth_error (entitiesOf M TreeViewer.route) i
                   = Some (TreeViewer.ERoute x))
        by (cbn [entitiesOf]; now rewrite nth_error_map, Hi).
      repeat split; auto. exact (Hres _ _ _ He).
    + exists TreeViewer.lambda, i, (TreeViewer.ELambda x).
      assert (He : nth_error (entitiesOf M TreeViewer.lambda) i
                   = Some (TreeViewer.ELambda x))
        by (cbn [entitiesOf]; now rewrite nth_error_map, Hi).
      repeat split; auto. exact (Hres _ _ _ He).
    + exists TreeViewer.table, i, (TreeViewer.ETable x).
      assert (He : nth_error (entitiesOf M TreeViewer.table) i
                   = Some (TreeViewer.ETable x))
        by (cbn [entitiesOf]; now rewrite nth_error_map, Hi).
      repeat split; auto. exact (Hres _ _ _ He).
  - intros id. split.
    + intros Hnone ty.
      destruct (JS.startsWith id (idPrefix ty)) eqn:E; [|reflexivity].
      rewrite (getNode_prefix M ty id E) in Hnone. discriminate Hnone.
    + intros Hall. unfold TreeViewer.getNode.
      pose proof (Hall TreeViewer.route) as H1.
      pose proof (Hall TreeViewer.lambda) as H2.
      pose proof (Hall TreeViewer.table) as H3.
      change (idPrefix TreeViewer.route) with "route-" in H1.
      change (idPrefix TreeViewer.lambda) with "lambda-" in H2.
      change (idPrefix TreeViewer.table) with "table-" in H3.
      now rewrite H1, H2, H3.
  - intros id ty Hp Hidx.
    rewrite (getNode_prefix M ty id Hp).
    now rewrite (index_out_of_range _ _ Hidx).
Qed.

Lemma getNode_resolves_built_ids_witness :
  (exists ty i e,
      TreeViewer.node_type sampleLambdaNode = Some ty
      /\ TreeViewer.node_id sampleLambdaNode = idPrefix ty ++ JS.numberToString i
      /\ nth_error (entitiesOf sampleManifest ty) i = Some e
      /\ TreeViewer.getNode sampleManifest (TreeViewer.node_id sampleLambdaNode)
         = Some {| TreeViewer.ref_type := ty; TreeViewer.ref_data := Some e |})
  /\ TreeViewer.getNode sampleManifest "table-x"
     = Some {| TreeViewer.ref_type := TreeViewer.table; TreeViewer.ref_data := None |}
  /\ TreeViewer.getNode sampleManifest "group" = None.
Proof.
  split; [|split].
  - apply (proj1 (getNode_resolves_built_ids sampleManifest) allOn
             (TreeViewer.groupNode "lambdas-group" "Lambdas" [sampleLambdaNode])).
    + simpl. right. left. reflexivity.
    + simpl. left. reflexivity.
  - apply (proj2 (proj2 (getNode_resolves_built_ids sampleManifest))).
    + reflexivity.
    + left. reflexivity.
  - apply (proj1 (proj2 (getNode_resolves_built_ids sampleManifest))).
    intros []; reflexivity.
Defined.

(** C1 as it is worded fails: an id of the right shape whose index is out of
    range, and an id whose suffix is no number, both resolve to an object,
    not to null. *)
Lemma getNode_out_of_range_is_not_null :
  TreeViewer.parseIndex "route-7" = Some 7%Z
  /\ length (TreeViewer.orEmpty (TreeViewer.routes sampleManifest)) = 1
  /\ TreeViewer.getNode sampleManifest "route-7"
     = Some {| TreeViewer.ref_type := TreeViewer.route; TreeViewer.ref_data := None |}
  /\ TreeViewer.getNode sampleManifest "route-abc"
     = Some {| TreeViewer.ref_type := TreeViewer.route; TreeViewer.ref_data := None |}
  /\ TreeViewer.getNode sampleManifest "route-7" <> None.
Proof. repeat split; try reflexivity. discriminate. Qed.

(** ** Tree Renderer: markup of a route node *)

Lemma append_assoc (a b c : string) : (a ++ b) ++ c = a ++ b ++ c.
Proof. induction a; simpl; congruence. Qed.

Lemma startsWith_allDec_letter (s : string) (c : ascii) (p : string) :
  allDec s = true -> isDec c = false -> JS.startsWith s (String c p) = false.
Proof.
  intros Hs Hc. destruct s as [|d r]; [reflexivity|].
  simpl in Hs |- *. apply andb_prop in Hs. destruct Hs as [Hd _].
  destruct (Ascii.eqb_spec c d) as [-> | ]; [congruence | reflexivity].
Qed.

Lemma includes_allDec_group (s : string) :
  allDec s = true -> JS.includes s "-group" = false.
Proof.
  induction s as [|c r IH]; [reflexivity|].
  intros H. cbn [JS.includes].
  rewrite (startsWith_allDec_letter _ "-" "group" H) by reflexivity.
  simpl in H. apply andb_prop in H. destruct H as [_ Hr].
  now rewrite (IH Hr).
Qed.

(** The id of a leaf built for a route never marks a group. *)
Lemma routeNode_not_group (r : TreeViewer.Route) (i : nat) :
  TreeViewer.isGroup (TreeViewer.routeNode r i) = false.
Proof.
  unfold TreeViewer.isGroup.
  cbn [TreeViewer.node_id TreeViewer.routeNode append JS.truthy andb].
  pose proof (numberToString_allDec i) as Hd.
  cbn [JS.includes JS.startsWith Ascii.eqb Bool.eqb andb orb].
  rewrite (startsWith_allDec_letter _ "g" "roup" Hd) by reflexivity.
  now rewrite (includes_allDec_group _ Hd).
Qed.

Lemma occurs_app (c : ascii) (a b : string) :
  occurs c (a ++ b) = occurs c a || occurs c b.
Proof. induction a; simpl; [reflexivity|]. now rewrite IHa, orb_assoc. Qed.

(** Escaping removes every angle bracket and leaves the double quote. *)
Lemma escapeHtml_no_angle (text : string) :
  occurs "<" (TreeViewer.escapeHtml text) = false
  /\ occurs ">" (TreeViewer.escapeHtml text) = false.
Proof.
  induction text as [|c r [IH1 IH2]]; [now split|].
  cbn [TreeViewer.escapeHtml]. rewrite !occurs_app, IH1, IH2, !orb_false_r.
  unfold TreeViewer.escapeChar.
  destruct (Ascii.eqb_spec c "&"); [now split|].
  destruct (Ascii.eqb_spec c TreeViewer.nbsp); [now split|].
  destruct (Ascii.eqb_spec c "<"); [now split|].
  destruct (Ascii.eqb_spec c ">"); [now split|].
  cbn [occurs]. rewrite !orb_false_r. split; apply Ascii.eqb_neq; congruence.
Qed.

Lemma escapeChar_other (c : ascii) :
  c <> "&"%char -> c <> TreeViewer.nbsp -> c <> "<"%char -> c <> ">"%char ->
  TreeViewer.escapeChar c = String c EmptyString.
Proof.
  intros H1 H2 H3 H4. unfold TreeViewer.escapeChar.
  apply Ascii.eqb_neq in H1, H2, H3, H4. now rewrite H1, H2, H3, H4.
Qed.

(** The markup of a node without children. *)
Lemma renderNode_leaf (node : TreeViewer.TreeNode) (depth : nat) :
  TreeViewer.children node = [] ->
  TreeViewer.renderNode node depth
  = TreeViewer.nl 6 ++ "<li "
    ++ TreeViewer.attr "class"
         ("tree-node " ++ (if TreeViewer.isGroup node then "tree-group" else EmptyString))
    ++ " " ++ TreeViewer.attr "data-node-id" (TreeViewer.node_id node) ++ ">"
    ++ TreeViewer.nl 8 ++ "<div " ++ TreeViewer.attr "class" "tree-node-content"
    ++ " " ++ TreeViewer.attr "data-node-id" (TreeViewer.node_id node) ++ ">"
    ++ TreeViewer.nl 10
    ++ ("<span " ++ TreeViewer.attr "class" "tree-toggle-empty" ++ ">•</span>")
    ++ TreeViewer.nl 10 ++ "<span " ++ TreeViewer.attr "class" "tree-icon" ++ ">"
    ++ TreeViewer.getNodeIcon (TreeViewer.node_type node) ++ "</span>"
    ++ TreeViewer.nl 10 ++ labelOpen
    ++ TreeViewer.escapeHtml (TreeViewer.node_name node) ++ "</span>"
    ++ TreeViewer.nl 10
    ++ (if negb (TreeViewer.isGroup node) && TreeViewer.isRoute (TreeViewer.node_type node)
        then TreeViewer.copyButton node else EmptyString)
    ++ TreeViewer.nl 8 ++ "</div>"
    ++ TreeViewer.nl 8
    ++ EmptyString
    ++ TreeViewer.nl 6 ++ "</li>" ++ TreeViewer.nl 4.
Proof.
  destruct node as [nid nname npath nmethod nfn ntype kids].
  cbn [TreeViewer.children]. intros ->.
  vm_compute. reflexivity.
Qed.

(** C10 (as the code has it): in the markup of a route leaf the label is the
    escaped text of method and path, and the data-value attribute of the copy
    control is the same text verbatim; the markup around the two does not
    depend on the route.  Escaping replaces the ampersand, the angle
    brackets and the no-break space, so these appear escaped in the label and
    raw in the attribute; every other character, the double quote among
    them, is raw in both. *)
Theorem renderNode_route_label_and_value :
  forall i : nat,
    (exists before between after : string,
        forall (r : TreeViewer.Route) (depth : nat),
          let text := TreeViewer.method r ++ " " ++ TreeViewer.path r in
          TreeViewer.renderNode (TreeViewer.routeNode r i) depth
          = before ++ labelOpen ++ TreeViewer.escapeHtml text ++ "</span>"
            ++ between ++ TreeViewer.attr "data-value" text ++ after)
    /\ (forall text,
          occurs "<" (TreeViewer.escapeHtml text) = false
          /\ occurs ">" (TreeViewer.escapeHtml text) = false)
    /\ TreeViewer.escapeChar "&" = "&amp;"
    /\ TreeViewer.escapeChar "<" = "&lt;"
    /\ TreeViewer.escapeChar ">" = "&gt;"
    /\ TreeViewer.escapeChar TreeViewer.nbsp = "&nbsp;"
    /\ (forall c,
          c <> "&"%char -> c <> TreeViewer.nbsp -> c <> "<"%char -> c <> ">"%char ->
          TreeViewer.escapeChar c = String c EmptyString)
    /\ TreeViewer.escapeHtml TreeViewer.dq = TreeViewer.dq.
Proof.
  intros i. split; [|repeat split; try apply escapeHtml_no_angle;
                     try reflexivity; try apply escapeChar_other; auto].
  exists (TreeViewer.nl 6 ++ "<li "
          ++ TreeViewer.attr "class" ("tree-node " ++ EmptyString)
          ++ " " ++ TreeViewer.attr "data-node-id" ("route-" ++ JS.numberToString i)
          ++ ">" ++ TreeViewer.nl 8 ++ "<div "
          ++ TreeViewer.attr "class" "tree-node-content"
          ++ " " ++ TreeViewer.attr "data-node-id" ("route-" ++ JS.numberToString i)
          ++ ">" ++ TreeViewer.nl 10
          ++ ("<span " ++ TreeViewer.attr "class" "tree-toggle-empty" ++ ">•</span>")
          ++ TreeViewer.nl 10 ++ "<span " ++ TreeViewer.attr "class" "tree-icon" ++ ">"
          ++ TreeViewer.getNodeIcon (Some TreeViewer.route) ++ "</span>"
          ++ TreeViewer.nl 10).
  exists (TreeViewer.nl 10 ++ "<button " ++ TreeViewer.attr "class" "copy-btn" ++ " ").
  exists (" " ++ TreeViewer.attr "title" "Copy route" ++ ">📋</button>"
          ++ TreeViewer.nl 8 ++ "</div>" ++ TreeViewer.nl 8 ++ EmptyString
          ++ TreeViewer.nl 6 ++ "</li>" ++ TreeViewer.nl 4).
  intros r depth text.
  rewrite renderNode_leaf by reflexivity.
  rewrite routeNode_not_group.
  cbn [TreeViewer.routeNode TreeViewer.node_type TreeViewer.node_name
       TreeViewer.node_id TreeViewer.isRoute negb andb].
  unfold TreeViewer.copyButton.
  cbn [TreeViewer.node_method TreeViewer.node_path TreeViewer.routeNode
       TreeViewer.interp].
  fold text.
  rewrite !append_assoc. reflexivity.
Qed.

Lemma renderNode_route_label_and_value_witness :
  TreeViewer.escapeChar "034" = TreeViewer.dq
  /\ occurs "<" (TreeViewer.escapeHtml "<b>") = false.
Proof.
  split.
  - apply (proj1 (proj2 (proj2 (proj2 (proj2 (proj2 (proj2
             (renderNode_route_label_and_value 0)))))))); discriminate.
  - apply (proj1 (proj2 (renderNode_route_label_and_value 0))).
Defined.

(** C10 as it is worded fails for the double quote: a path that contains one
    has it raw in the label too, because escaping leaves it alone. *)
Lemma renderNode_quote_raw_in_label :
  let text := TreeViewer.method quotedRoute ++ " " ++ TreeViewer.path quotedRoute in
  occurs "034" (TreeViewer.path quotedRoute) = true
  /\ TreeViewer.escapeHtml text = text
  /\ JS.includes (TreeViewer.renderNode (TreeViewer.routeNode quotedRoute 0) 1)
       (labelOpen ++ text ++ "</span>") = true
  /\ JS.includes (TreeViewer.renderNode (TreeViewer.routeNode quotedRoute 0) 1)
       (TreeViewer.attr "data-value" text) = true.
Proof. vm_compute. repeat split. Qed.

(** ** Tree Renderer: the copy control *)

(** When the copy succeeds the control shows the confirmation, the clipboard
    holds the value of the control, and the timer set for two seconds puts
    the prior text back. *)
Lemma copy_click_success_reverts (p : TreeViewer.Page) :
  TreeViewer.timers p = [] ->
  let p1 := TreeViewer.onCopyClick TreeViewer.WriteResolves p in
  TreeViewer.textContent p1 = TreeViewer.copiedText
  /\ TreeViewer.clipboard p1 = Some (TreeViewer.dataValue p)
  /\ TreeViewer.fireTimer 1999 p1 = None
  /\ exists p2,
       TreeViewer.fireTimer 2000 p1 = Some (p2, TreeViewer.Completed)
       /\ TreeViewer.textContent p2 = TreeViewer.textContent p.
Proof.
  intros Ht p1. subst p1. unfold TreeViewer.onCopyClick, TreeViewer.fireTimer.
  cbn [TreeViewer.timers TreeViewer.textContent TreeViewer.clipboard].
  rewrite Ht. repeat split. eexists. split; reflexivity.
Qed.

(** C8, the failure path at a concrete click: the control shows the failure
    text; the callback of the timer refers to a constant of the [try] block,
    which its scope does not hold, so it throws and the prior text never
    comes back. *)
Theorem copy_click_failure_never_reverts :
  let p1 := TreeViewer.onCopyClick TreeViewer.WriteRejects clickedPage in
  TreeViewer.textContent p1 = TreeViewer.failedText
  /\ exists p2,
       TreeViewer.fireTimer 2000 p1
       = Some (p2, TreeViewer.ReferenceError "originalText")
       /\ TreeViewer.textContent p2 = TreeViewer.failedText
       /\ TreeViewer.textContent p2 <> TreeViewer.textContent clickedPage
       /\ TreeViewer.timers p2 = [].
Proof.
  cbv zeta. split; [reflexivity|].
  eexists. split; [reflexivity|]. repeat split. discriminate.
Qed.

(** ** Search Index *)

Lemma trimStart_head (s : string) (c : ascii) (r : string) :
  JS.trimStart s = String c r -> JS.isWhiteSpace c = false.
Proof.
  induction s as [|d s IH]; simpl; [discriminate|].
  destruct (JS.isWhiteSpace d) eqn:E; [exact IH|].
  intros H. injection H as <- _. exact E.
Qed.

Lemma trimStart_empty (s : string) :
  JS.trimStart s = EmptyString <-> allWs s = true.
Proof.
  induction s as [|d s IH]; simpl; [tauto|].
  destruct (JS.isWhiteSpace d); simpl; [exact IH|].
  split; discriminate.
Qed.

Lemma trimEnd_empty_head (c : ascii) (r : string) :
  JS.trimEnd (String c r) = EmptyString -> JS.isWhiteSpace c = true.
Proof.
  simpl. destruct (JS.trimEnd r); [|discriminate].
  destruct (JS.isWhiteSpace c); [reflexivity | discriminate].
Qed.

Lemma trim_empty (s : string) : JS.trim s = EmptyString <-> allWs s = true.
Proof.
  unfold JS.trim. split.
  - intros H. apply trimStart_empty.
    destruct (JS.trimStart s) as [|c r] eqn:E; [reflexivity|].
    apply trimEnd_empty_head in H. apply trimStart_head in E. congruence.
  - intros H. apply trimStart_empty in H. now rewrite H.
Qed.

Lemma startsWith_spec (s p : string) :
  JS.startsWith s p = true <-> exists post, s = p ++ post.
Proof.
  revert s. induction p as [|a p IH]; intros s.
  - destruct s; simpl; split; eauto.
  - destruct s as [|b s]; simpl.
    + split; [discriminate | intros (post & H); discriminate H].
    + rewrite andb_true_iff, Ascii.eqb_eq, IH. split.
      * intros (-> & post & ->). eauto.
      * intros (post & H). injection H as -> ->. eauto.
Qed.

Lemma includes_spec (s t : string) :
  JS.includes s t = true <-> exists pre post, s = pre ++ t ++ post.
Proof.
  induction s as [|c s IH]; cbn [JS.includes]; rewrite orb_true_iff, startsWith_spec.
  - split.
    + intros [(post & H) | H]; [|discriminate H]. exists EmptyString, post. exact H.
    + intros (pre & post & H). left. destruct pre; [eauto | discriminate H].
  - rewrite IH. split.
    + intros [(post & H) | (pre & post & ->)].
      * exists EmptyString, post. exact H.
      * exists (String c pre), post. reflexivity.
    + intros (pre & post & H). destruct pre as [|d pre].
      * left. eauto.
      * right. injection H as _ ->. eauto.
Qed.

(** C9: an empty or white-space-only query returns the empty sequence and
    clears the last results; any other query, without a fuzzy index, returns
    the items whose search text contains the query with letter case ignored,
    in the order of the item list, and caches them; the documented example
    returns the first item only. *)
Theorem search_blank_and_fallback :
  forall (st : Search.State) (query : string),
    (allWs query = true ->
       Search.search query st = (Search.Returns [], withLastResults st None))
    /\ (allWs query = false -> Search.fuse st = None ->
        forall its, Search.items st = Some its ->
          exists results,
            Search.search query st
            = (Search.Returns results, withLastResults st (Some results))
            /\ results
               = filter (fun item =>
                           JS.includes (JS.toLowerCase (Search.searchText item))
                                       (JS.toLowerCase query)) its
            /\ forall item,
                 In item results
                 <-> In item its
                     /\ containsIgnoringCase (Search.searchText item) query)
    /\ Search.search "api" fallbackState
       = (Search.Returns [apiItem], withLastResults fallbackState (Some [apiItem])).
Proof.
  intros st query. split; [|split].
  - intros H. unfold Search.search.
    apply trim_empty in H. rewrite H. rewrite String.eqb_refl, orb_true_r.
    reflexivity.
  - intros H Hf its Hi. eexists. split; [|split; [reflexivity|]].
    + unfold Search.search.
      assert (Ht : JS.truthy query = true) by (destruct query; [discriminate H | reflexivity]).
      assert (Hq : String.eqb (JS.trim query) EmptyString = false).
      { apply String.eqb_neq. intros E. apply trim_empty in E. congruence. }
      destruct st as [f i l]. cbn [Search.fuse Search.items] in Hf, Hi.
      subst f i. cbn [Search.fuse Search.items]. rewrite Ht, Hq. reflexivity.
    + intros item. rewrite filter_In. unfold containsIgnoringCase.
      now rewrite includes_spec.
  - reflexivity.
Qed.

Lemma search_blank_and_fallback_witness :
  Search.search "   " fallbackState = (Search.Returns [], withLastResults fallbackState None)
  /\ exists results,
       Search.search "USERS" fallbackState
       = (Search.Returns results, withLastResults fallbackState (Some results))
       /\ results
          = filter (fun item =>
                      JS.includes (JS.toLowerCase (Search.searchText item))
                                  (JS.toLowerCase "USERS")) [apiItem; notifierItem]
       /\ forall item,
            In item results
            <-> In item [apiItem; notifierItem]
                /\ containsIgnoringCase (Search.searchText item) "USERS".
Proof.
  split.
  - apply (proj1 (search_blank_and_fallback fallbackState "   ")). reflexivity.
  - apply (proj1 (proj2 (search_blank_and_fallback fallbackState "USERS")));
      reflexivity.
Defined.

(** ** Clipboard helper *)

Lemma removeNode_appended (id : nat) (l : list Copy.Node) (x : Copy.Node)
    (r : list Copy.Node) :
  (forall n, In n l -> Copy.node_id n < id) ->
  Copy.node_id x = id ->
  Copy.removeNode id (l ++ x :: r) = Some (l ++ r)%list.
Proof.
  intros Hl Hx. induction l as [|n l IH]; simpl.
  - now rewrite Hx, Nat.eqb_refl.
  - destruct (Nat.eqb_spec (Copy.node_id n) id) as [E|_].
    + specialize (Hl n (or_introl eq_refl)). lia.
    + rewrite IH; [reflexivity|]. intros m Hm. apply Hl. now right.
Qed.

Ltac run_copy :=
  unfold Copy.copy, Copy.copyUsingExecCommand, Copy.showToast, Copy.tryFinally,
    Copy.tryCatch, Copy.bind, Copy.ret, Copy.createElement, Copy.appendChild,
    Copy.select, Copy.setTimeout, Copy.consoleError, Copy.execCommandCopy,
    Copy.clipboardWriteText, Copy.removeChild, Copy.setClipboard;
  cbn [Copy.hasClipboard Copy.isSecureContext Copy.writeText Copy.execCommand
       Copy.toastContainer Copy.toastDuration Copy.nextId Copy.body
       Copy.container Copy.selection Copy.clipboardText Copy.timers
       Copy.consoleErrors Copy.node_id Copy.text Copy.tag andb negb].

(** The fallback returns a boolean for every outcome of [execCommand] and
    leaves in the body what was there plus, at most, toasts. *)
Lemma copyUsingExecCommand_cleans_up (c : Copy.Copier) (env : Copy.Env)
    (txt : string) (d : Copy.Dom) :
  freshIds d ->
  exists b d' toasts,
    Copy.copyUsingExecCommand c env txt d = (Copy.Val b, d')
    /\ Copy.body d' = (Copy.body d ++ toasts)%list
    /\ Forall (fun n => Copy.tag n = "div") toasts
    /\ (b = true -> Copy.clipboardText d' = Some txt)
    /\ (b = true <-> Copy.execCommand env = Copy.ExecReturns true).
Proof.
  intros Hfresh.
  destruct c as [duration [|]], env as [hc sc wt [[|]|]]; run_copy;
    repeat rewrite <- app_assoc; cbn [Datatypes.app];
    (rewrite removeNode_appended; [|exact Hfresh|reflexivity]);
    do 3 eexists;
    (split; [reflexivity|]); cbn [Copy.body Copy.clipboardText];
    (split; [reflexivity|]);
    (split; [repeat constructor|]);
    (split; [intros; try reflexivity; discriminate|]);
    split; congruence.
Qed.

(** Outside a secure context, or without the clipboard object, [copy] is
    the fallback. *)
Lemma copy_fallback (c : Copy.Copier) (env : Copy.Env) (txt : string) (d : Copy.Dom) :
  freshIds d ->
  Copy.hasClipboard env && Copy.isSecureContext env = false ->
  Copy.copy c env txt d = Copy.copyUsingExecCommand c env txt d.
Proof.
  intros Hfresh Hsec.
  destruct (copyUsingExecCommand_cleans_up c env txt d Hfresh)
    as (b & d' & toasts & Hrun & _).
  unfold Copy.copy, Copy.tryCatch. now rewrite Hsec, Hrun.
Qed.

(** With the clipboard object in a secure context, [copy] returns whether
    the write resolved. *)
Lemma copy_primary (c : Copy.Copier) (env : Copy.Env) (txt : string) (d : Copy.Dom) :
  Copy.hasClipboard env && Copy.isSecureContext env = true ->
  exists d',
    Copy.copy c env txt d
    = (Copy.Val (match Copy.writeText env with
                 | Copy.Resolves => true
                 | Copy.Rejects => false
                 end), d')
    /\ (Copy.writeText env = Copy.Resolves -> Copy.clipboardText d' = Some txt).
Proof.
  intros Hsec. unfold Copy.copy. rewrite Hsec.
  destruct c as [duration [|]], env as [hc sc [|] ex]; run_copy;
    eexists; (split; [reflexivity|]); intros; try reflexivity; discriminate.
Qed.

Lemma copy_total (c : Copy.Copier) (env : Copy.Env) (txt : string) (d : Copy.Dom) :
  freshIds d ->
  exists b d',
    Copy.copy c env txt d = (Copy.Val b, d')
    /\ (b = true -> Copy.clipboardText d' = Some txt).
Proof.
  intros Hfresh.
  destruct (Copy.hasClipboard env && Copy.isSecureContext env) eqn:Hsec.
  - destruct (copy_primary c env txt d Hsec) as (d' & Hrun & Hclip).
    do 2 eexists. split; [exact Hrun|].
    destruct (Copy.writeText env); [auto | discriminate].
  - rewrite (copy_fallback c env txt d Hfresh Hsec).
    destruct (copyUsingExecCommand_cleans_up c env txt d Hfresh)
      as (b & d' & toasts & Hrun & _ & _ & Hclip & _).
    eauto.
Qed.

(** C6: [copy] returns a boolean and throws for no text, platform outcome
    or page; a true result means the text is on the clipboard.  The
    fallback, whether [execCommand] succeeds, fails or throws, leaves in the
    body what was there before plus at most a toast: the textarea it
    appended is gone. *)
Theorem copy_never_throws_and_removes_textarea :
  forall (c : Copy.Copier) (env : Copy.Env) (txt : string) (d : Copy.Dom),
    freshIds d ->
    (exists b d',
        Copy.copy c env txt d = (Copy.Val b, d')
        /\ (b = true -> Copy.clipboardText d' = Some txt))
    /\ (exists b d' toasts,
          Copy.copyUsingExecCommand c env txt d = (Copy.Val b, d')
          /\ Copy.body d' = (Copy.body d ++ toasts)%list
          /\ Forall (fun n => Copy.tag n = "div") toasts
          /\ (b = true <-> Copy.execCommand env = Copy.ExecReturns true))
    /\ (Copy.hasClipboard env && Copy.isSecureContext env = false ->
        Copy.copy c env txt d = Copy.copyUsingExecCommand c env txt d).
Proof.
  intros c env txt d Hfresh. split; [|split].
  - exact (copy_total c env txt d Hfresh).
  - destruct (copyUsingExecCommand_cleans_up c env txt d Hfresh)
      as (b & d' & toasts & Hrun & Hbody & Hdiv & _ & Hb).
    exists b, d', toasts. auto.
  - exact (copy_fallback c env txt d Hfresh).
Qed.

Lemma emptyPage_fresh : freshIds emptyPage.
Proof. intros n Hn. destruct Hn. Defined.

Lemma copy_never_throws_and_removes_textarea_witness :
  (exists b d',
      Copy.copy defaultCopier throwingPlatform "GET /api/users" emptyPage
      = (Copy.Val b, d')
      /\ (b = true -> Copy.clipboardText d' = Some "GET /api/users"))
  /\ (exists b d' toasts,
        Copy.copyUsingExecCommand defaultCopier throwingPlatform "GET /api/users"
          emptyPage = (Copy.Val b, d')
        /\ Copy.body d' = (Copy.body emptyPage ++ toasts)%list
        /\ Forall (fun n => Copy.tag n = "div") toasts
        /\ (b = true <->
            Copy.execCommand throwingPlatform = Copy.ExecReturns true))
  /\ (Copy.hasClipboard throwingPlatform && Copy.isSecureContext throwingPlatform
      = false ->
      Copy.copy defaultCopier throwingPlatform "GET /api/users" emptyPage
      = Copy.copyUsingExecCommand defaultCopier throwingPlatform "GET /api/users"
          emptyPage).
Proof.
  apply (copy_never_throws_and_removes_textarea defaultCopier throwingPlatform
           "GET /api/users" emptyPage).
  exact emptyPage_fresh.
Defined.

(** C7: [copyArn] hands to [copy] the text made of the fixed prefix, the
    method, a colon and the path, whatever the region argument is, given or
    defaulted; two calls that differ in the region only are the same
    computation; and when the call returns true that text is what the
    clipboard holds. *)
Theorem copyArn_ignores_region :
  forall (c : Copy.Copier) (env : Copy.Env) (method path : string)
         (region region' : option string),
    Copy.copyArn c env method path region
    = Copy.copy c env ("arn:arc:route:" ++ method ++ ":" ++ path)
    /\ Copy.copyArn c env method path region
       = Copy.copyArn c env method path region'
    /\ (forall d, freshIds d ->
          exists b d',
            Copy.copyArn c env method path region d = (Copy.Val b, d')
            /\ (b = true ->
                Copy.clipboardText d'
                = Some ("arn:arc:route:" ++ method ++ ":" ++ path))).
Proof.
  intros. split; [reflexivity | split; [reflexivity|]].
  intros d Hd. unfold Copy.copyArn. now apply copy_total.
Qed.

Lemma copyArn_ignores_region_witness :
  exists b d',
    Copy.copyArn defaultCopier securePlatform "GET" "/api/users" (Some "eu-west-1")
      emptyPage = (Copy.Val b, d')
    /\ (b = true ->
        Copy.clipboardText d' = Some ("arn:arc:route:" ++ "GET" ++ ":" ++ "/api/users")).
Proof.
  apply (proj2 (proj2 (copyArn_ignores_region defaultCopier securePlatform
                         "GET" "/api/users" (Some "eu-west-1") None))).
  exact emptyPage_fresh.
Defined.

(** ** Live Watcher *)

Section LiveWatcher.

Context {Snapshot : Type} (stringify : Snapshot -> string).

Abbreviation World := (@Watcher.World Snapshot).

(** The recorded timer fires: the poll callback starts its fetch. *)
Lemma step_poll_timer last ws next t so (hd : list Snapshot) :
  Watcher.step stringify
    {| Watcher.lastData := last; Watcher.isWatching := true;
       Watcher.pollTimeout := Some t; Watcher.webSocketAvailable := ws;
       Watcher.nextTimer := next; Watcher.timers := [(t, Watcher.PollTimer)];
       Watcher.inFlight := 0; Watcher.sockets := so; Watcher.handled := hd |}
    (Watcher.TimerFires t)
  = {| Watcher.lastData := last; Watcher.isWatching := true;
       Watcher.pollTimeout := Some t; Watcher.webSocketAvailable := ws;
       Watcher.nextTimer := next; Watcher.timers := [];
       Watcher.inFlight := 1; Watcher.sockets := so; Watcher.handled := hd |}.
Proof.
  unfold Watcher.step, Watcher.findTimer, Watcher.clearTimeout.
  cbn [Watcher.timers find filter fst]. rewrite Nat.eqb_refl. reflexivity.
Qed.

(** The fetch settles with a snapshot: the handler is called if the
    fingerprint differs, and the next poll is scheduled. *)
Lemma step_fetch_ok last ws next t so (hd : list Snapshot) (s : Snapshot) :
  Watcher.step stringify
    {| Watcher.lastData := last; Watcher.isWatching := true;
       Watcher.pollTimeout := Some t; Watcher.webSocketAvailable := ws;
       Watcher.nextTimer := next; Watcher.timers := [];
       Watcher.inFlight := 1; Watcher.sockets := so; Watcher.handled := hd |}
    (Watcher.FetchSettles (Watcher.FetchOk s))
  = {| Watcher.lastData :=
         if Watcher.differs last (stringify s) then Some (stringify s) else last;
       Watcher.isWatching := true;
       Watcher.pollTimeout := Some next; Watcher.webSocketAvailable := ws;
       Watcher.nextTimer := S next;
       Watcher.timers := [(next, Watcher.PollTimer)];
       Watcher.inFlight := 0; Watcher.sockets := so;
       Watcher.handled :=
         if Watcher.differs last (stringify s) then (hd ++ [s])%list else hd |}.
Proof.
  unfold Watcher.step. cbn [Watcher.inFlight].
  unfold Watcher.resumePoll. cbn [Watcher.lastData].
  destruct (Watcher.differs last (stringify s)); reflexivity.
Qed.

Lemma pollOnce_waiting (w : World) (s : Snapshot) :
  waiting w ->
  waiting (pollOnce stringify w s)
  /\ Watcher.lastData (pollOnce stringify w s) = Some (stringify s)
  /\ Watcher.handled (pollOnce stringify w s)
     = (Watcher.handled w ++ transitions stringify (Watcher.lastData w) [s])%list.
Proof.
  intros (Hw & Hf & t & Ht & Htm).
  destruct w as [last watching pt ws next tm fl so hd].
  cbn [Watcher.isWatching Watcher.inFlight Watcher.pollTimeout Watcher.timers
       Watcher.lastData Watcher.handled] in *.
  subst watching fl pt tm.
  unfold pollOnce, Watcher.run. cbn [Watcher.pollTimeout fold_left].
  rewrite step_poll_timer, step_fetch_ok.
  unfold waiting.
  cbn [Watcher.isWatching Watcher.inFlight Watcher.pollTimeout Watcher.timers
       Watcher.lastData Watcher.handled transitions].
  destruct last as [l|]; cbn [Watcher.differs].
  - destruct (String.eqb_spec l (stringify s)) as [-> | Hne]; cbn [negb];
      repeat split; eauto using app_nil_r.
  - repeat split; eauto.
Qed.

Lemma pollAll_waiting (ss : list Snapshot) :
  forall w : World,
    waiting w ->
    waiting (pollAll stringify ss w)
    /\ Watcher.handled (pollAll stringify ss w)
       = (Watcher.handled w ++ transitions stringify (Watcher.lastData w) ss)%list.
Proof.
  induction ss as [|s ss IH]; intros w Hw.
  - cbn. now rewrite app_nil_r.
  - destruct (pollOnce_waiting w s Hw) as (Hw1 & Hl1 & Hh1).
    destruct (IH (pollOnce stringify w s) Hw1) as (Hw2 & Hh2).
    change (pollAll stringify (s :: ss) w) with (pollAll stringify ss (pollOnce stringify w s)).
    split; [exact Hw2|].
    rewrite Hh2, Hh1, Hl1, <- app_assoc. f_equal.
    cbn [transitions].
    destruct (Watcher.lastData w) as [l|]; [|reflexivity].
    destruct (String.eqb l (stringify s)); reflexivity.
Qed.

(** A watcher just started whose socket could not be created, and one
    whose socket reported an error, both wait for their first poll with
    nothing observed. *)
Lemma started_waiting :
  let direct : World := Watcher.start (Watcher.created false) in
  let viaError : World :=
    Watcher.run stringify [Watcher.CallStart; Watcher.SocketError]
      (Watcher.created true) in
  (waiting direct /\ Watcher.lastData direct = None /\ Watcher.handled direct = [])
  /\ (waiting viaError /\ Watcher.lastData viaError = None
      /\ Watcher.handled viaError = []).
Proof.
  cbv zeta. unfold waiting. cbn. repeat split; eauto.
Qed.

(** C2 (as the code has it): while the watcher polls, the change handler
    is called for exactly those polled snapshots whose serialised form is
    not the one observed just before, and a watcher that has observed
    nothing is called for its first snapshot; so, freshly started, the
    sequence A, A, B, B, C with distinct forms calls the handler three
    times, with A, B and C, and never on a repeat. *)
Theorem polling_reports_transitions :
  forall (w : World) (ss : list Snapshot),
    waiting w ->
    (waiting (pollAll stringify ss w)
     /\ Watcher.handled (pollAll stringify ss w)
        = (Watcher.handled w ++ transitions stringify (Watcher.lastData w) ss)%list)
    /\ (forall A B C : Snapshot,
          stringify A <> stringify B ->
          stringify B <> stringify C ->
          stringify A <> stringify C ->
          Watcher.lastData w = None ->
          Watcher.handled w = [] ->
          Watcher.handled (pollAll stringify [A; A; B; B; C] w) = [A; B; C]).
Proof.
  intros w ss Hw. split; [exact (pollAll_waiting ss w Hw)|].
  intros A B C HAB HBC HAC Hlast Hh.
  destruct (pollAll_waiting [A; A; B; B; C] w Hw) as (_ & ->).
  rewrite Hh, Hlast. cbn [transitions Datatypes.app].
  apply String.eqb_neq in HAB, HBC.
  now rewrite !String.eqb_refl, HAB, HBC.
Qed.

(** One event of the polling path on a stopped watcher with no timer
    pending: nothing is scheduled, and the handler is called at most once,
    by a fetch in flight that settles. *)
Lemma stopped_step (w : World) (e : @Watcher.Event Snapshot) :
  Watcher.isWatching w = false ->
  Watcher.timers w = [] ->
  pollingEvent e ->
  Watcher.isWatching (Watcher.step stringify w e) = false
  /\ Watcher.timers (Watcher.step stringify w e) = []
  /\ exists extra,
       Watcher.handled (Watcher.step stringify w e)
       = (Watcher.handled w ++ extra)%list
       /\ length extra + Watcher.inFlight (Watcher.step stringify w e)
          <= Watcher.inFlight w.
Proof.
  intros Hw Htm He.
  destruct w as [last watching pt ws next tm fl so hd].
  cbn [Watcher.isWatching Watcher.timers Watcher.handled Watcher.inFlight] in *.
  subst watching tm.
  destruct e as [ | | id | r | | m | | ]; try contradiction.
  - (* stop again *)
    cbn. repeat split. exists []. rewrite app_nil_r. split; [reflexivity|cbn; lia].
  - (* a timer that is not pending *)
    cbn. repeat split. exists []. rewrite app_nil_r. split; [reflexivity|cbn; lia].
  - (* a fetch settles *)
    destruct fl as [|n].
    + cbn. repeat split. exists []. rewrite app_nil_r. split; [reflexivity|cbn; lia].
    + unfold Watcher.step. cbn [Watcher.inFlight].
      unfold Watcher.resumePoll. cbn [Watcher.lastData].
      destruct r as [data|];
        [destruct (Watcher.differs last (stringify data))|]; cbn.
      * repeat split. exists [data]. split; [reflexivity|cbn; lia].
      * repeat split. exists []. rewrite app_nil_r. split; [reflexivity|cbn; lia].
      * repeat split. exists []. rewrite app_nil_r. split; [reflexivity|cbn; lia].
Qed.

Lemma stopped_run (es : list (@Watcher.Event Snapshot)) :
  forall w : World,
    Watcher.isWatching w = false ->
    Watcher.timers w = [] ->
    Forall pollingEvent es ->
    exists extra,
      Watcher.handled (Watcher.run stringify es w)
      = (Watcher.handled w ++ extra)%list
      /\ length extra <= Watcher.inFlight w
      /\ Watcher.timers (Watcher.run stringify es w) = [].
Proof.
  induction es as [|e es IH]; intros w Hw Htm Hes.
  - exists []. cbn. rewrite app_nil_r. repeat split; auto. lia.
  - inversion Hes as [|e' es' He Hes']; subst.
    change (Watcher.run stringify (e :: es) w)
      with (Watcher.run stringify es (Watcher.step stringify w e)).
    destruct (stopped_step w e Hw Htm He) as (Hw1 & Htm1 & x & Hx & Hlen).
    destruct (IH _ Hw1 Htm1 Hes') as (extra & Hh & Hlen' & Ht).
    exists (x ++ extra)%list. rewrite Hh, Hx, <- app_assoc.
    repeat split; auto. rewrite length_app. lia.
Qed.

Lemma clearTimeout_all (id : nat) (l : list (nat * Watcher.TimerKind)) :
  (forall i k, In (i, k) l -> i = id) -> Watcher.clearTimeout id l = [].
Proof.
  induction l as [|[i k] l IH]; intros H; [reflexivity|].
  cbn [Watcher.clearTimeout filter fst].
  rewrite (H i k (or_introl eq_refl)), Nat.eqb_refl. cbn [negb].
  apply IH. intros j k' Hj. apply (H j k'). now right.
Qed.

Lemma clearTimeout_gone (id : nat) (l : list (nat * Watcher.TimerKind)) :
  Watcher.findTimer id (Watcher.clearTimeout id l) = None.
Proof.
  unfold Watcher.findTimer.
  induction l as [|[i k] l IH]; [reflexivity|].
  cbn [Watcher.clearTimeout filter fst].
  destruct (Nat.eqb_spec i id) as [E|E]; cbn [negb]; [exact IH|].
  cbn [find fst]. apply Nat.eqb_neq in E. rewrite E. exact IH.
Qed.

(** C3 (as the code has it): [stop] on a watching watcher is idempotent
    and cancels the poll timer it recorded.  When that timer is the only
    pending one, no timer is pending afterwards, and whatever the polling
    path does next, it calls the handler at most once for each fetch that
    was in flight when [stop] was called, so not at all when none was. *)
Theorem stop_silences_polling :
  forall w : World,
    Watcher.isWatching w = true ->
    Watcher.stop (Watcher.stop w) = Watcher.stop w
    /\ (forall t, Watcher.pollTimeout w = Some t -> t <> 0 ->
          Watcher.findTimer t (Watcher.timers (Watcher.stop w)) = None
          /\ Watcher.pollTimeout (Watcher.stop w) = None)
    /\ ((forall id k, In (id, k) (Watcher.timers w) ->
           Watcher.pollTimeout w = Some id /\ id <> 0) ->
        forall es, Forall pollingEvent es ->
          exists extra,
            Watcher.handled (Watcher.run stringify es (Watcher.stop w))
            = (Watcher.handled w ++ extra)%list
            /\ length extra <= Watcher.inFlight w
            /\ Watcher.timers (Watcher.run stringify es (Watcher.stop w)) = []).
Proof.
  intros w Hw.
  destruct w as [last watching pt ws next tm fl so hd].
  cbn [Watcher.isWatching] in Hw. subst watching.
  split; [|split].
  - unfold Watcher.stop at 1.
    assert (E : Watcher.isWatching
                  (Watcher.stop (Watcher.Build_World last true pt ws next tm fl so hd))
                = false)
      by (unfold Watcher.stop; cbn; destruct pt as [[|t]|]; reflexivity).
    now rewrite E.
  - intros t Ht Hnz. cbn [Watcher.pollTimeout] in Ht. subst pt.
    destruct t as [|t]; [congruence|].
    unfold Watcher.stop. cbn. split; [apply clearTimeout_gone | reflexivity].
  - intros Honly es Hes.
    cbn [Watcher.timers Watcher.pollTimeout] in Honly.
    assert (Hst : Watcher.isWatching
                    (Watcher.stop (Watcher.Build_World last true pt ws next tm fl so hd))
                  = false
                  /\ Watcher.timers
                       (Watcher.stop (Watcher.Build_World last true pt ws next tm fl so hd))
                     = []
                  /\ Watcher.handled
                       (Watcher.stop (Watcher.Build_World last true pt ws next tm fl so hd))
                     = hd
                  /\ Watcher.inFlight
                       (Watcher.stop (Watcher.Build_World last true pt ws next tm fl so hd))
                     = fl).
    { unfold Watcher.stop. cbn [Watcher.isWatching negb Watcher.pollTimeout].
      destruct tm as [|[i k] tm].
      - destruct pt as [[|t]|]; cbn; auto.
      - destruct (Honly i k (or_introl eq_refl)) as (Hpt & Hi).
        subst pt. destruct i as [|i]; [congruence|].
        cbn [Watcher.isWatching Watcher.timers Watcher.handled Watcher.inFlight].
        repeat split.
        apply clearTimeout_all. intros j k' Hj.
        destruct (Honly j k' Hj) as (Hj' & _). congruence. }
    destruct Hst as (H1 & H2 & H3 & H4).
    destruct (stopped_run es _ H1 H2 Hes) as (extra & Hh & Hlen & Ht).
    exists extra. rewrite Hh, H3. rewrite H4 in Hlen. auto.
Qed.

End LiveWatcher.

Lemma startedWatcher_waiting : waiting startedWatcher.
Proof.
  unfold waiting. repeat split. exists 1. split; reflexivity.
Defined.

Lemma polling_reports_transitions_witness :
  (waiting (pollAll serialised ["A"; "B"] startedWatcher)
   /\ Watcher.handled (pollAll serialised ["A"; "B"] startedWatcher)
      = (Watcher.handled startedWatcher
         ++ transitions serialised (Watcher.lastData startedWatcher) ["A"; "B"])%list)
  /\ Watcher.handled (pollAll serialised ["A"; "A"; "B"; "B"; "C"] startedWatcher)
     = ["A"; "B"; "C"].
Proof.
  destruct (polling_reports_transitions serialised startedWatcher ["A"; "B"]
              startedWatcher_waiting) as (H1 & H2).
  split; [exact H1|].
  apply (H2 "A" "B" "C"); try discriminate; reflexivity.
Defined.

(** C2 as it is worded fails: a freshly started watcher has observed
    nothing, so the first snapshot is reported too and the sequence
    A, A, B, B, C calls the handler three times, not twice. *)
Lemma fresh_watcher_reports_first_snapshot :
  Watcher.lastData startedWatcher = None
  /\ Watcher.handled (pollAll serialised ["A"; "A"; "B"; "B"; "C"] startedWatcher)
     = ["A"; "B"; "C"]
  /\ length (Watcher.handled
               (pollAll serialised ["A"; "A"; "B"; "B"; "C"] startedWatcher)) <> 2.
Proof. vm_compute. repeat split. discriminate. Qed.

Lemma stop_silences_polling_witness :
  Watcher.stop (Watcher.stop startedWatcher) = Watcher.stop startedWatcher
  /\ exists extra,
       Watcher.handled
         (Watcher.run serialised
            [Watcher.TimerFires 1; Watcher.FetchSettles (Watcher.FetchOk "A")]
            (Watcher.stop startedWatcher))
       = (Watcher.handled startedWatcher ++ extra)%list
       /\ length extra <= Watcher.inFlight startedWatcher
       /\ Watcher.timers
            (Watcher.run serialised
               [Watcher.TimerFires 1; Watcher.FetchSettles (Watcher.FetchOk "A")]
               (Watcher.stop startedWatcher)) = [].
Proof.
  destruct (stop_silences_polling serialised startedWatcher eq_refl)
    as (H1 & _ & H3).
  split; [exact H1|]. apply H3.
  - intros id k [H | []]. injection H as <- <-.
    split; [reflexivity | discriminate].
  - repeat constructor.
Defined.

(** C3 as it is worded fails: [stop] does not abort a fetch in flight, and
    when that fetch settles with changed data the handler is called, after
    [stop] has returned. *)
Lemma handler_called_after_stop :
  Watcher.isWatching fetchingWatcher = true
  /\ Watcher.inFlight fetchingWatcher = 1
  /\ Watcher.handled (Watcher.stop fetchingWatcher) = []
  /\ Watcher.handled
       (Watcher.run serialised [Watcher.FetchSettles (Watcher.FetchOk "A")]
          (Watcher.stop fetchingWatcher))
     = ["A"].
Proof. vm_compute. repeat split. Qed.

(** * Further properties *)

(** ** File Linker: parsing a route definition *)






Lemma trimEnd_wsFree (s : string) : wsFree s = true -> JS.trimEnd s = s.
Proof.
  induction s as [|c r IH]; [reflexivity|].
  cbn [wsFree JS.trimEnd]. intros H. apply andb_prop in H. destruct H as [Hc Hr].
  rewrite (IH Hr). destruct r; [|reflexivity].
  apply negb_true_iff in Hc. now rewrite Hc.
Qed.

Lemma trimEnd_app (a b : string) :
  JS.trimEnd b <> EmptyString -> JS.trimEnd (a ++ b) = a ++ JS.trimEnd b.
Proof.
  intros Hb. induction a as [|c a IH]; [reflexivity|].
  cbn [append JS.trimEnd]. rewrite IH.
  destruct (a ++ JS.trimEnd b) eqn:E; [|reflexivity].
  destruct a; [contradiction | discriminate E].
Qed.

Lemma trimStart_head_kept (c : ascii) (r : string) :
  JS.isWhiteSpace c = false -> JS.trimStart (String c r) = String c r.
Proof. intros H. cbn [JS.trimStart]. now rewrite H. Qed.

Lemma splitWsFrom_wsFree (s : string) :
  wsFree s = true -> forall inRun, JS.splitWsFrom inRun s = [s].
Proof.
  induction s as [|c r IH]; [reflexivity|].
  cbn [wsFree JS.splitWsFrom]. intros H inRun.
  apply andb_prop in H. destruct H as [Hc Hr].
  apply negb_true_iff in Hc. now rewrite Hc, (IH Hr false).
Qed.

Lemma splitWs_two_parts (m d : string) :
  wsFree m = true -> wsFree d = true ->
  JS.splitWs (m ++ " " ++ d) = [m; d].
Proof.
  intros Hm Hd. unfold JS.splitWs.
  induction m as [|c m IH].
  - cbn. now rewrite (splitWsFrom_wsFree d Hd true).
  - cbn [wsFree] in Hm. apply andb_prop in Hm. destruct Hm as [Hc Hm].
    apply negb_true_iff in Hc.
    cbn [append JS.splitWsFrom]. rewrite Hc.
    cbn [append] in IH. now rewrite (IH Hm).
Qed.

Lemma trim_two_parts (m d : string) :
  m <> EmptyString -> d <> EmptyString ->
  wsFree m = true -> wsFree d = true ->
  JS.trim (m ++ " " ++ d) = m ++ " " ++ d.
Proof.
  intros Hm0 Hd0 Hm Hd. unfold JS.trim.
  assert (Hs : JS.trimStart (m ++ " " ++ d) = m ++ " " ++ d).
  { destruct m as [|c m]; [contradiction|].
    cbn [wsFree] in Hm. apply andb_prop in Hm. destruct Hm as [Hc _].
    apply negb_true_iff in Hc. cbn [append].
    apply (trimStart_head_kept c _ Hc). }
  rewrite Hs, <- append_assoc.
  rewrite trimEnd_app; rewrite (trimEnd_wsFree d Hd); [reflexivity | exact Hd0].
Qed.

Lemma trim_wsFree (s : string) : wsFree s = true -> JS.trim s = s.
Proof.
  intros H. unfold JS.trim. destruct s as [|c r]; [reflexivity|].
  pose proof H as H'. cbn [wsFree] in H'. apply andb_prop in H'.
  destruct H' as [Hc _]. apply negb_true_iff in Hc.
  rewrite (trimStart_head_kept c r Hc). now apply trimEnd_wsFree.
Qed.

(** X1: a definition made of a method and a path, both non-empty and free
    of white space, separated by one space, maps to the folder named by the
    lower-cased method and the segments of the path; the bare path maps to
    the same folder under the method [get], so writing [GET] is the same as
    leaving the method out. *)
Theorem routeToPath_method_and_path :
  forall method path : string,
    method <> EmptyString -> path <> EmptyString ->
    wsFree method = true -> wsFree path = true ->
    FileLinker.routeToPath (method ++ " " ++ path)
    = "src/http/" ++ JS.toLowerCase method ++ "-" ++ pathSegments path
      ++ "/index.mjs"
    /\ FileLinker.routeToPath path
       = "src/http/get-" ++ pathSegments path ++ "/index.mjs"
    /\ FileLinker.routeToPath ("GET " ++ path) = FileLinker.routeToPath path.
Proof.
  intros method path Hm0 Hp0 Hm Hp.
  assert (H1 : forall m, m <> EmptyString -> wsFree m = true ->
               FileLinker.routeToPath (m ++ " " ++ path)
               = "src/http/" ++ JS.toLowerCase m ++ "-" ++ pathSegments path
                 ++ "/index.mjs").
  { intros m Hm0' Hm'. unfold FileLinker.routeToPath.
    rewrite (trim_two_parts m path Hm0' Hp0 Hm' Hp).
    now rewrite (splitWs_two_parts m path Hm' Hp). }
  assert (H2 : FileLinker.routeToPath path
               = "src/http/get-" ++ pathSegments path ++ "/index.mjs").
  { unfold FileLinker.routeToPath, JS.splitWs.
    rewrite (trim_wsFree path Hp), (splitWsFrom_wsFree path Hp false).
    reflexivity. }
  split; [exact (H1 method Hm0 Hm) | split; [exact H2|]].
  rewrite H2. change ("GET " ++ path) with ("GET" ++ " " ++ path).
  rewrite H1; [reflexivity | discriminate | reflexivity].
Qed.

Lemma routeToPath_method_and_path_witness :
  FileLinker.routeToPath ("POST" ++ " " ++ "/Api/Users")
  = "src/http/" ++ JS.toLowerCase "POST" ++ "-" ++ pathSegments "/Api/Users"
    ++ "/index.mjs"
  /\ FileLinker.routeToPath "/Api/Users"
     = "src/http/get-" ++ pathSegments "/Api/Users" ++ "/index.mjs"
  /\ FileLinker.routeToPath ("GET " ++ "/Api/Users")
     = FileLinker.routeToPath "/Api/Users".
Proof.
  apply (routeToPath_method_and_path "POST" "/Api/Users");
    try discriminate; reflexivity.
Defined.

(** ** File Linker: the folder name *)






(** ** File Linker: letter case *)










(** ** File Linker: the cache *)

Lemma key_split (ty ty' name name' : string) :
  occurs ":" ty = false -> occurs ":" ty' = false ->
  ty ++ ":" ++ name = ty' ++ ":" ++ name' ->
  ty = ty' /\ name = name'.
Proof.
  revert ty'. induction ty as [|c ty IH]; intros [|c' ty'] H H' E;
    cbn [append occurs] in *.
  - injection E as E. auto.
  - injection E as Ec _. subst c'. cbn in H'. discriminate H'.
  - injection E as Ec _. subst c. cbn in H. discriminate H.
  - injection E as Ec E. subst c'.
    apply orb_false_iff in H, H'. destruct H as [_ H], H' as [_ H'].
    destruct (IH ty' H H' E) as [-> ->]. auto.
Qed.

Lemma cacheGet_app (key : string) (c c' : Linker.Cache) :
  Linker.cacheGet key (c ++ c')%list
  = match Linker.cacheGet key c with
    | Some link => Some link
    | None => Linker.cacheGet key c'
    end.
Proof.
  induction c as [|[k l] c IH]; [reflexivity|].
  cbn [Datatypes.app Linker.cacheGet]. destruct (String.eqb key k); [reflexivity | exact IH].
Qed.

Lemma getLink_coherent (c : Linker.Cache) (ty name : string) :
  occurs ":" ty = false -> coherent c ->
  fst (Linker.getLink c ty name) = FileLinker.getLinkPath ty name
  /\ coherent (snd (Linker.getLink c ty name)).
Proof.
  intros Hty Hc. unfold Linker.getLink.
  destruct (Linker.cacheGet (ty ++ ":" ++ name) c) as [link|] eqn:E; cbn [fst snd].
  - split; [exact (Hc ty name link Hty E) | exact Hc].
  - split; [reflexivity|].
    intros ty' name' link Hty' Hget. rewrite cacheGet_app in Hget.
    destruct (Linker.cacheGet (ty' ++ ":" ++ name') c) as [l|] eqn:E'.
    + injection Hget as <-. exact (Hc ty' name' l Hty' E').
    + cbn [Linker.cacheGet] in Hget.
      destruct (String.eqb_spec (ty' ++ ":" ++ name') (ty ++ ":" ++ name)) as [K|K];
        [|discriminate Hget].
      injection Hget as <-.
      destruct (key_split ty' ty name' name Hty' Hty K) as [-> ->]. reflexivity.
Qed.

Lemma getLinks_coherent (calls : list (string * string)) :
  forall c,
    colonFreeTypes calls -> coherent c ->
    fst (getLinks calls c)
    = map (fun call => FileLinker.getLinkPath (fst call) (snd call)) calls.
Proof.
  induction calls as [|[ty name] calls IH]; intros c Hcalls Hc; [reflexivity|].
  inversion Hcalls as [|? ? Hty Hrest]; subst. cbn [fst] in Hty.
  destruct (getLink_coherent c ty name Hty Hc) as [Hlink Hc1].
  cbn [getLinks].
  destruct (Linker.getLink c ty name) as [link c1]. cbn [fst snd] in Hlink, Hc1.
  specialize (IH c1 Hrest Hc1).
  destruct (getLinks calls c1) as [links c2]. cbn [fst] in IH |- *.
  cbn [map fst snd]. now rewrite Hlink, IH.
Qed.

(** X4: the cache is transparent for node types without a colon, the three
    real types among them: in any sequence of [getLink] calls on a new
    linker, each call returns what [getLinkPath] returns for its
    arguments. *)
Theorem getLink_transparent :
  forall calls : list (string * string),
    colonFreeTypes calls ->
    fst (getLinks calls [])
    = map (fun call => FileLinker.getLinkPath (fst call) (snd call)) calls.
Proof.
  intros calls H. apply getLinks_coherent; [exact H|].
  intros ty name link _ Hget. discriminate Hget.
Qed.

Lemma getLink_transparent_witness :
  fst (getLinks [("route", "GET /a"); ("table", "users"); ("route", "GET /a")] [])
  = map (fun call => FileLinker.getLinkPath (fst call) (snd call))
      [("route", "GET /a"); ("table", "users"); ("route", "GET /a")].
Proof.
  apply (getLink_transparent
           [("route", "GET /a"); ("table", "users"); ("route", "GET /a")]).
  repeat constructor.
Defined.

(** X5: the key joins type and name with a colon and so does not tell them
    apart: once the link of a route whose name holds a colon is cached, a
    lookup for the type that ends at that colon returns the cached path,
    although [getLinkPath] has no link for such a type. *)
Theorem getLink_key_collision :
  forall before after : string,
    let cache := snd (Linker.getLink [] "route" (before ++ ":" ++ after)) in
    fst (Linker.getLink cache ("route:" ++ before) after)
    = Some (FileLinker.routeToPath (before ++ ":" ++ after))
    /\ FileLinker.getLinkPath ("route:" ++ before) after = None.
Proof.
  intros before after. cbv zeta. split.
  - unfold Linker.getLink at 2. cbn [Linker.cacheGet snd Datatypes.app].
    unfold Linker.getLink. cbn [Linker.cacheGet].
    change (("route:" ++ before) ++ ":" ++ after)
      with ("route:" ++ before ++ ":" ++ after).
    change ("route" ++ ":" ++ before ++ ":" ++ after)
      with ("route:" ++ before ++ ":" ++ after).
    now rewrite String.eqb_refl.
  - reflexivity.
Qed.

(** ** Search Index: grouped results *)

Lemma fold_pushItem (results : list Search.SearchItem) :
  forall g,
    fold_left SearchApi.pushItem results g
    = {| SearchApi.g_routes :=
           (SearchApi.g_routes g ++ filter (hasType "route") results)%list;
         SearchApi.g_lambdas :=
           (SearchApi.g_lambdas g ++ filter (hasType "lambda") results)%list;
         SearchApi.g_tables :=
           (SearchApi.g_tables g ++ filter (hasType "table") results)%list |}.
Proof.
  induction results as [|x r IH]; intros g.
  - destruct g. cbn. now rewrite !app_nil_r.
  - cbn [fold_left filter]. rewrite IH. unfold SearchApi.pushItem, hasType.
    destruct (String.eqb_spec (Search.item_type x) "route") as [E|_].
    + rewrite E. cbn. now rewrite <- app_assoc.
    + destruct (String.eqb_spec (Search.item_type x) "lambda") as [E|_].
      * rewrite E. cbn. now rewrite <- app_assoc.
      * destruct (String.eqb_spec (Search.item_type x) "table") as [E|_];
          [|reflexivity].
        cbn. now rewrite <- app_assoc.
Qed.

Lemma filter_filter_comm {A : Type} (f g : A -> bool) (l : list A) :
  filter f (filter g l) = filter g (filter f l).
Proof.
  induction l as [|x l IH]; [reflexivity|]. cbn [filter].
  destruct (f x) eqn:Ef, (g x) eqn:Eg; cbn [filter]; rewrite ?Ef, ?Eg, IH;
    reflexivity.
Qed.

Lemma filter_all {A : Type} (f : A -> bool) (l : list A) :
  (forall x, In x l -> f x = true) -> filter f l = l.
Proof.
  induction l as [|x l IH]; intros H; [reflexivity|]. cbn [filter].
  rewrite (H x (or_introl eq_refl)), IH; [reflexivity|].
  intros y Hy. apply H. now right.
Qed.

Lemma filter_none {A : Type} (f : A -> bool) (l : list A) :
  (forall x, In x l -> f x = false) -> filter f l = [].
Proof.
  induction l as [|x l IH]; intros H; [reflexivity|]. cbn [filter].
  rewrite (H x (or_introl eq_refl)). apply IH.
  intros y Hy. apply H. now right.
Qed.

Lemma filter_map_comm {A B : Type} (f : B -> bool) (g : A -> B) (l : list A) :
  filter f (map g l) = map g (filter (fun x => f (g x)) l).
Proof.
  induction l as [|x l IH]; [reflexivity|]. cbn [map filter].
  destruct (f (g x)); cbn [map]; now rewrite IH.
Qed.

(** The items that [init] builds, by category. *)
Lemma typed_items (a : TreeViewer.ArcData) (ty : string) :
  let R := map Search.routeItem (TreeViewer.orEmpty (TreeViewer.routes a)) in
  let L := map Search.lambdaItem (TreeViewer.orEmpty (TreeViewer.lambdas a)) in
  let T := map Search.tableItem (TreeViewer.orEmpty (TreeViewer.tables a)) in
  filter (hasType "route") (R ++ L ++ T) = R
  /\ filter (hasType "lambda") (R ++ L ++ T) = L
  /\ filter (hasType "table") (R ++ L ++ T) = T.
Proof.
  cbv zeta. rewrite !filter_app.
  repeat split;
    repeat first
      [ rewrite filter_all by (intros x Hx; apply in_map_iff in Hx;
                               destruct Hx as (? & <- & _); reflexivity)
      | rewrite filter_none by (intros x Hx; apply in_map_iff in Hx;
                                destruct Hx as (? & <- & _); reflexivity) ];
    now rewrite ?app_nil_r.
Qed.

(** The grouped results of the fallback search after [init] on a new
    [ArcSearch]. *)
Lemma grouped_fallback (a : TreeViewer.ArcData) (query : string) :
  allWs query = false ->
  let m := Search.matches (JS.toLowerCase query) in
  let R := map Search.routeItem (TreeViewer.orEmpty (TreeViewer.routes a)) in
  let L := map Search.lambdaItem (TreeViewer.orEmpty (TreeViewer.lambdas a)) in
  let T := map Search.tableItem (TreeViewer.orEmpty (TreeViewer.tables a)) in
  Search.search query (Search.init None a Search.created)
  = (Search.Returns (filter m R ++ filter m L ++ filter m T)%list,
     {| Search.fuse := None; Search.items := Some (R ++ L ++ T)%list;
        Search.lastResults := Some (filter m R ++ filter m L ++ filter m T)%list |})
  /\ fst (SearchApi.getGroupedResults query (Search.init None a Search.created))
     = Search.Returns
         {| SearchApi.g_routes := filter m R;
            SearchApi.g_lambdas := filter m L;
            SearchApi.g_tables := filter m T |}.
Proof.
  intros Hq. cbv zeta.
  assert (Ht : JS.truthy query = true)
    by (destruct query; [discriminate Hq | reflexivity]).
  assert (Hb : String.eqb (JS.trim query) EmptyString = false).
  { apply String.eqb_neq. intros E. apply trim_empty in E. congruence. }
  assert (Hs : Search.search query (Search.init None a Search.created)
               = (Search.Returns
                    (filter (Search.matches (JS.toLowerCase query))
                       (map Search.routeItem (TreeViewer.orEmpty (TreeViewer.routes a))
                        ++ map Search.lambdaItem (TreeViewer.orEmpty (TreeViewer.lambdas a))
                        ++ map Search.tableItem (TreeViewer.orEmpty (TreeViewer.tables a)))%list),
                  {| Search.fuse := None;
                     Search.items :=
                       Some (map Search.routeItem (TreeViewer.orEmpty (TreeViewer.routes a))
                             ++ map Search.lambdaItem (TreeViewer.orEmpty (TreeViewer.lambdas a))
                             ++ map Search.tableItem (TreeViewer.orEmpty (TreeViewer.tables a)))%list;
                     Search.lastResults :=
                       Some (filter (Search.matches (JS.toLowerCase query))
                               (map Search.routeItem (TreeViewer.orEmpty (TreeViewer.routes a))
                                ++ map Search.lambdaItem (TreeViewer.orEmpty (TreeViewer.lambdas a))
                                ++ map Search.tableItem (TreeViewer.orEmpty (TreeViewer.tables a)))%list) |})).
  { unfold Search.search, Search.init, Search.created.
    cbn [Search.fuse Search.items Search.lastResults]. now rewrite Ht, Hb. }
  split.
  - rewrite Hs, !filter_app. reflexivity.
  - unfold SearchApi.getGroupedResults. rewrite Hs. cbn [fst].
    rewrite fold_pushItem. cbn [SearchApi.g_routes SearchApi.g_lambdas
                                SearchApi.g_tables Datatypes.app].
    destruct (typed_items a "") as (HR & HL & HT).
    rewrite !(filter_filter_comm _ (Search.matches (JS.toLowerCase query))).
    now rewrite HR, HL, HT.
Qed.

(** X6: without a fuzzy index, the three groups of [getGroupedResults] on
    freshly initialised data, put end to end as routes, lambdas, tables,
    are the sequence that [search] returns for the same query: grouping
    loses no item and keeps the order. *)
Theorem grouped_results_partition_search :
  forall (arcData : TreeViewer.ArcData) (query : string),
    exists g,
      fst (SearchApi.getGroupedResults query
             (Search.init None arcData Search.created))
      = Search.Returns g
      /\ SearchApi.searchOnce None arcData query
         = Search.Returns
             (SearchApi.g_routes g ++ SearchApi.g_lambdas g
              ++ SearchApi.g_tables g)%list.
Proof.
  intros a query. unfold SearchApi.searchOnce.
  destruct (allWs query) eqn:Hq.
  - exists {| SearchApi.g_routes := []; SearchApi.g_lambdas := [];
              SearchApi.g_tables := [] |}.
    unfold SearchApi.getGroupedResults.
    assert (Hs : forall st, Search.search query st
                            = (Search.Returns [],
                               {| Search.fuse := Search.fuse st;
                                  Search.items := Search.items st;
                                  Search.lastResults := None |})).
    { intros st. unfold Search.search. apply trim_empty in Hq.
      now rewrite Hq, String.eqb_refl, orb_true_r. }
    rewrite Hs. split; reflexivity.
  - destruct (grouped_fallback a query Hq) as (Hs & Hg).
    eexists. split; [exact Hg|]. now rewrite Hs.
Qed.

(** X7: [simpleSearch] and the fallback of the class agree: for every
    manifest and query, the groups of [getGroupedResults] on freshly
    initialised data are the search items of the routes, lambdas and tables
    that [simpleSearch] returns. *)
Theorem simpleSearch_agrees_with_fallback :
  forall (arcData : TreeViewer.ArcData) (query : string),
    fst (SearchApi.getGroupedResults query
           (Search.init None arcData Search.created))
    = Search.Returns (itemsOfSimple (SearchApi.simpleSearch arcData query)).
Proof.
  intros a query. destruct (allWs query) eqn:Hq.
  - pose proof Hq as Hb. apply trim_empty in Hb.
    unfold SearchApi.getGroupedResults, Search.search, SearchApi.simpleSearch.
    now rewrite Hb, String.eqb_refl, orb_true_r.
  - destruct (grouped_fallback a query Hq) as (_ & ->).
    unfold SearchApi.simpleSearch, itemsOfSimple.
    assert (Ht : JS.truthy query = true)
      by (destruct query; [discriminate Hq | reflexivity]).
    assert (Hb : String.eqb (JS.trim query) EmptyString = false).
    { apply String.eqb_neq. intros E. apply trim_empty in E. congruence. }
    rewrite Ht, Hb. cbn [negb orb SearchApi.s_routes SearchApi.s_lambdas
                         SearchApi.s_tables].
    rewrite !filter_map_comm.
    destruct a as [[rs|] [ls|] [ts|]]; reflexivity.
Qed.

(** ** Search Index: initialisation and the cached results *)

(** X8: once [init] has run, with or without the fuzzy engine, from any
    earlier state, [search] returns for every query; on an [ArcSearch] that
    was only constructed it throws for every query that is not blank. *)
Theorem search_throws_only_before_init :
  (forall (Fuse : Search.FuseGlobal) (arcData : TreeViewer.ArcData)
          (st : Search.State) (query : string),
      exists results st',
        Search.search query (Search.init Fuse arcData st)
        = (Search.Returns results, st'))
  /\ (forall query,
        allWs query = false ->
        Search.search query Search.created = (Search.TypeError, Search.created)).
Proof.
  split.
  - intros Fuse a st query. unfold Search.search.
    destruct (negb (JS.truthy query) || String.eqb (JS.trim query) EmptyString);
      [eauto|].
    unfold Search.init.
    destruct Fuse as [ctor|]; [destruct (ctor _) as [index|]|];
      cbn [Search.fuse Search.items]; try destruct (Search.fuse st); eauto.
  - intros query Hq. unfold Search.search.
    assert (Ht : JS.truthy query = true)
      by (destruct query; [discriminate Hq | reflexivity]).
    assert (Hb : String.eqb (JS.trim query) EmptyString = false).
    { apply String.eqb_neq. intros E. apply trim_empty in E. congruence. }
    now rewrite Ht, Hb.
Qed.

Lemma search_throws_only_before_init_witness :
  Search.search "api" Search.created = (Search.TypeError, Search.created).
Proof.
  apply (proj2 search_throws_only_before_init). reflexivity.
Defined.

(** X9: [getLastResults] gives back what the last [search] returned,
    whichever branch it took: the empty sequence after a blank query, the
    fuzzy or the filtered results otherwise. *)
Theorem getLastResults_after_search :
  forall (query : string) (st st' : Search.State)
         (results : list Search.SearchItem),
    Search.search query st = (Search.Returns results, st') ->
    Search.getLastResults st' = results.
Proof.
  intros query st st' results. unfold Search.search.
  destruct (negb (JS.truthy query) || String.eqb (JS.trim query) EmptyString).
  - intros H. injection H as <- <-. reflexivity.
  - destruct (Search.fuse st) as [index|].
    + intros H. injection H as <- <-. reflexivity.
    + destruct (Search.items st) as [its|]; [|discriminate].
      intros H. injection H as <- <-. reflexivity.
Qed.

Lemma getLastResults_after_search_witness :
  Search.getLastResults (withLastResults fallbackState (Some [apiItem]))
  = [apiItem].
Proof.
  apply (getLastResults_after_search "api" fallbackState). reflexivity.
Defined.

(** X10: a later [init] that falls back, because the engine is gone or its
    constructor throws, stores the new items but leaves the earlier fuzzy
    index in place, and [search] keeps answering from that index: the new
    data are not searched. *)
Theorem stale_index_survives_fallback_init :
  forall (st : Search.State) (index : Search.Index)
         (arcData : TreeViewer.ArcData) (query : string),
    Search.fuse st = Some index ->
    allWs query = false ->
    fst (Search.search query (Search.init None arcData st))
    = Search.Returns (index query)
    /\ fst (Search.search query
              (Search.init (Some (fun _ => None)) arcData st))
       = Search.Returns (index query).
Proof.
  intros st index a query Hf Hq.
  assert (Ht : JS.truthy query = true)
    by (destruct query; [discriminate Hq | reflexivity]).
  assert (Hb : String.eqb (JS.trim query) EmptyString = false).
  { apply String.eqb_neq. intros E. apply trim_empty in E. congruence. }
  unfold Search.search, Search.init. cbn [Search.fuse].
  now rewrite Ht, Hb, Hf.
Qed.

Lemma stale_index_survives_fallback_init_witness :
  fst (Search.search "api" (Search.init None sampleManifest indexedState))
  = Search.Returns [notifierItem]
  /\ fst (Search.search "api"
            (Search.init (Some (fun _ => None)) sampleManifest indexedState))
     = Search.Returns [notifierItem].
Proof.
  apply (stale_index_survives_fallback_init indexedState
           (fun _ => [notifierItem]) sampleManifest "api"); reflexivity.
Defined.

(** ** Tree Renderer: node ids *)

Lemma numberToString_inj (i j : nat) :
  JS.numberToString i = JS.numberToString j -> i = j.
Proof.
  unfold JS.numberToString. intros H.
  apply DecimalNat.Unsigned.to_uint_inj.
  assert (E : Some (Nat.to_uint i) = Some (Nat.to_uint j))
    by (rewrite <- !NilEmpty.usu; now rewrite H).
  now injection E.
Qed.

Lemma append_inj_l (p a b : string) : p ++ a = p ++ b -> a = b.
Proof. induction p; cbn [append]; intros H; [exact H|]. injection H. auto. Qed.

Lemma mapiFrom_ids {A : Type} (mk : A -> nat -> TreeViewer.TreeNode)
    (pre : string) (l : list A) :
  (forall x i, TreeViewer.node_id (mk x i) = pre ++ JS.numberToString i) ->
  forall k,
    map TreeViewer.node_id (TreeViewer.mapiFrom k mk l)
    = map (fun i => pre ++ JS.numberToString i) (seq k (length l)).
Proof.
  intros Hmk. induction l as [|x l IH]; intros k; [reflexivity|].
  cbn [TreeViewer.mapiFrom map length seq]. now rewrite Hmk, IH.
Qed.

Lemma index_ids_NoDup (pre : string) (k n : nat) :
  NoDup (map (fun i => pre ++ JS.numberToString i) (seq k n)).
Proof.
  apply NoDup_map_NoDup_ForallPairs; [|apply seq_NoDup].
  intros i j _ _ H. apply numberToString_inj. exact (append_inj_l pre _ _ H).
Qed.

(** The ids of one group and its children are distinct and start with the
    first letter of the group id. *)
Lemma group_ids {A : Type} (mk : A -> nat -> TreeViewer.TreeNode)
    (c : ascii) (pre gid gname : string) (l : list A) :
  (forall x i,
      TreeViewer.node_id (mk x i) = String c pre ++ JS.numberToString i) ->
  (forall x, String c gid <> String c pre ++ x) ->
  let ids :=
    allIds [TreeViewer.groupNode (String c gid) gname (TreeViewer.mapi mk l)] in
  NoDup ids /\ forall id, In id ids -> exists r, id = String c r.
Proof.
  intros Hmk Hgid ids. subst ids. unfold allIds, TreeViewer.mapi.
  cbn [map concat TreeViewer.node_id TreeViewer.children TreeViewer.groupNode].
  rewrite app_nil_r, (mapiFrom_ids mk (String c pre) l Hmk 0).
  split.
  - constructor; [|apply index_ids_NoDup].
    intros Hin. apply in_map_iff in Hin. destruct Hin as (i & Hi & _).
    exact (Hgid _ (eq_sym Hi)).
  - intros id [<- | Hin]; [eauto|].
    apply in_map_iff in Hin. destruct Hin as (i & <- & _). cbn [append]. eauto.
Qed.

Lemma allIds_app (a b : list TreeViewer.TreeNode) :
  allIds (a ++ b) = (allIds a ++ allIds b)%list.
Proof. unfold allIds. now rewrite map_app, concat_app. Qed.

Lemma NoDup_three_blocks (X Y Z : list string) (cx cy cz : ascii) :
  cx <> cy -> cx <> cz -> cy <> cz ->
  (NoDup X /\ forall id, In id X -> exists r, id = String cx r) ->
  (NoDup Y /\ forall id, In id Y -> exists r, id = String cy r) ->
  (NoDup Z /\ forall id, In id Z -> exists r, id = String cz r) ->
  NoDup (X ++ Y ++ Z).
Proof.
  intros Hxy Hxz Hyz (NX & FX) (NY & FY) (NZ & FZ).
  apply NoDup_app; [exact NX | apply NoDup_app; [exact NY | exact NZ |] |].
  - intros id Hy Hz. destruct (FY id Hy) as (r & ->).
    destruct (FZ _ Hz) as (r' & E). congruence.
  - intros id Hx Hyz'. destruct (FX id Hx) as (r & ->).
    apply in_app_or in Hyz'. destruct Hyz' as [H | H].
    + destruct (FY _ H) as (r' & E). congruence.
    + destruct (FZ _ H) as (r' & E). congruence.
Qed.

Lemma optional_block (b : bool) (g : TreeViewer.TreeNode) (c : ascii) :
  (NoDup (allIds [g]) /\ forall id, In id (allIds [g]) -> exists r, id = String c r) ->
  NoDup (allIds (if b then [g] else []))
  /\ forall id, In id (allIds (if b then [g] else [])) -> exists r, id = String c r.
Proof.
  intros H. destruct b; [exact H|]. split; [constructor | intros id []].
Qed.

(** X11: in every tree that [buildTree] returns, the ids of the groups and
    of their children are pairwise distinct: an id names one node. *)
Theorem buildTree_ids_unique :
  forall (M : TreeViewer.ArcData) (T : TreeViewer.ToggleStates),
    NoDup (allIds (TreeViewer.buildTree M T)).
Proof.
  intros M T. unfold TreeViewer.buildTree. rewrite !allIds_app.
  apply (NoDup_three_blocks _ _ _ "r" "l" "t"); try discriminate;
    apply optional_block.
  - exact (group_ids TreeViewer.routeNode "r" "oute-" "outes-group" "Routes"
             (TreeViewer.orEmpty (TreeViewer.routes M)) ltac:(reflexivity)
             ltac:(intros x H; cbn [append] in H; discriminate H)).
  - exact (group_ids TreeViewer.lambdaNode "l" "ambda-" "ambdas-group" "Lambdas"
             (TreeViewer.orEmpty (TreeViewer.lambdas M)) ltac:(reflexivity)
             ltac:(intros x H; cbn [append] in H; discriminate H)).
  - exact (group_ids TreeViewer.tableNode "t" "able-" "ables-group" "Tables"
             (TreeViewer.orEmpty (TreeViewer.tables M)) ltac:(reflexivity)
             ltac:(intros x H; cbn [append] in H; discriminate H)).
Qed.

(** ** Tree Renderer: ids that are not canonical *)

Lemma splitChar_no_sep (sep : ascii) (s : string) :
  occurs sep s = false -> JS.splitChar sep s = [s].
Proof.
  induction s as [|c r IH]; [reflexivity|].
  cbn [occurs JS.splitChar]. intros H. apply orb_false_iff in H.
  destruct H as [Hc Hr]. rewrite Ascii.eqb_sym in Hc. now rewrite Hc, (IH Hr).
Qed.

Lemma splitChar_first (sep : ascii) (a b : string) :
  occurs sep a = false ->
  JS.splitChar sep (a ++ String sep b) = a :: JS.splitChar sep b.
Proof.
  induction a as [|c r IH]; cbn [append occurs JS.splitChar].
  - now rewrite Ascii.eqb_refl.
  - intros H. apply orb_false_iff in H. destruct H as [Hc Hr].
    rewrite Ascii.eqb_sym in Hc. now rewrite Hc, (IH Hr).
Qed.

(** The index that [getNode] reads from an id with a category prefix is
    parsed from the text up to the next dash. *)
Lemma parseIndex_after_prefix (ty : TreeViewer.NodeType) (x : string) :
  TreeViewer.parseIndex (idPrefix ty ++ x)
  = JS.parseInt (nth 0 (JS.splitChar "-" x) "undefined").
Proof.
  unfold TreeViewer.parseIndex, idPrefix. rewrite append_assoc.
  change ("-" ++ x) with (String "-" x).
  rewrite splitChar_first by (destruct ty; reflexivity).
  reflexivity.
Qed.

(** X12: [getNode] reads the index from the text between the first and the
    second dash only: whatever follows a second dash is ignored, so an id
    with such a tail resolves exactly like the id without it. *)
Theorem getNode_ignores_tail :
  forall (M : TreeViewer.ArcData) (ty : TreeViewer.NodeType)
         (index tail : string),
    occurs "-" index = false ->
    TreeViewer.getNode M (idPrefix ty ++ index ++ "-" ++ tail)
    = TreeViewer.getNode M (idPrefix ty ++ index).
Proof.
  intros M ty index tail H.
  rewrite !(getNode_prefix M ty) by apply startsWith_app.
  rewrite !parseIndex_after_prefix.
  change ("-" ++ tail) with (String "-" tail).
  now rewrite (splitChar_first "-" index tail H), (splitChar_no_sep "-" index H).
Qed.

Lemma getNode_ignores_tail_witness :
  TreeViewer.getNode sampleManifest (idPrefix TreeViewer.route ++ "0" ++ "-" ++ "group")
  = TreeViewer.getNode sampleManifest (idPrefix TreeViewer.route ++ "0").
Proof.
  apply (getNode_ignores_tail sampleManifest TreeViewer.route "0" "group").
  reflexivity.
Defined.

(** ** Tree Renderer: escaping *)

Lemma length_append (a b : string) :
  String.length (a ++ b) = String.length a + String.length b.
Proof. induction a; cbn [append String.length]; [reflexivity|]. now rewrite IHa. Qed.

Lemma escapeHtml_length (text : string) :
  String.length text <= String.length (TreeViewer.escapeHtml text).
Proof.
  induction text as [|c r IH]; [apply Nat.le_refl|].
  cbn [TreeViewer.escapeHtml]. rewrite length_append. cbn [String.length].
  assert (1 <= String.length (TreeViewer.escapeChar c)).
  { unfold TreeViewer.escapeChar.
    repeat match goal with
           | |- context [if ?b then _ else _] => destruct b
           end; cbn; lia. }
  lia.
Qed.

(** X13: escaping changes a text exactly when it has to: [escapeHtml]
    returns its argument unchanged if and only if the argument holds no
    ampersand, no-break space or angle bracket. *)
Theorem escapeHtml_identity_iff_plain :
  forall text : string,
    TreeViewer.escapeHtml text = text <-> plainText text.
Proof.
  unfold plainText. induction text as [|c r IH]; [cbn; tauto|].
  cbn [TreeViewer.escapeHtml occurs]. unfold TreeViewer.escapeChar.
  pose proof (escapeHtml_length r) as Hlen.
  destruct (Ascii.eqb_spec c "&") as [->|N1].
  { split; [|cbn; intros (H & _); discriminate H].
    cbn [append]. intros H. injection H as H.
    apply (f_equal String.length) in H. cbn [String.length] in H. lia. }
  destruct (Ascii.eqb_spec c TreeViewer.nbsp) as [->|N2].
  { split; [intros H; discriminate H | cbn; intros (_ & H & _); discriminate H]. }
  destruct (Ascii.eqb_spec c "<") as [->|N3].
  { split; [intros H; discriminate H | cbn; intros (_ & _ & H & _); discriminate H]. }
  destruct (Ascii.eqb_spec c ">") as [->|N4].
  { split; [intros H; discriminate H | cbn; intros (_ & _ & _ & H); discriminate H]. }
  cbn [append].
  apply Ascii.eqb_neq in N1, N2, N3, N4.
  rewrite (Ascii.eqb_sym "&" c), (Ascii.eqb_sym TreeViewer.nbsp c),
    (Ascii.eqb_sym "<" c), (Ascii.eqb_sym ">" c), N1, N2, N3, N4.
  cbn [orb]. rewrite <- IH. split; [intros H; now injection H | congruence].
Qed.

(** ** Tree Renderer: the checkboxes *)

Lemma act_toggles (v : TreeView.Viewer) (a : TreeView.Action) :
  allChecked v ->
  let v' := TreeView.act v a in
  allChecked v'
  /\ TreeViewer.toggle_routes (TreeView.toggleStates v')
     = TreeViewer.toggle_routes (TreeView.toggleStates v) && negb (isClickRoutes a)
  /\ TreeViewer.toggle_lambdas (TreeView.toggleStates v')
     = TreeViewer.toggle_lambdas (TreeView.toggleStates v) && negb (isClickLambdas a)
  /\ TreeViewer.toggle_tables (TreeView.toggleStates v')
     = TreeViewer.toggle_tables (TreeView.toggleStates v) && negb (isClickTables a).
Proof.
  intros (Hr & Hl & Ht). cbv zeta.
  destruct a as [[data|] | | |];
    cbn [TreeView.act TreeView.init TreeView.onRoutesChange
         TreeView.onLambdasChange TreeView.onTablesChange];
    unfold TreeView.render, allChecked;
    cbn [TreeView.boxRoutes TreeView.boxLambdas TreeView.boxTables
         TreeView.toggleStates TreeViewer.toggle_routes
         TreeViewer.toggle_lambdas TreeViewer.toggle_tables
         isClickRoutes isClickLambdas isClickTables negb];
    rewrite ?Hr, ?Hl, ?Ht, ?andb_true_r, ?andb_false_r; auto.
Qed.

(** X14: the checkboxes work one way.  Every [render] writes the three
    checkboxes as checked, so a click always unchecks and always reports
    [false]: after any sequence of [init] calls and clicks on a rendered
    viewer, a category is on exactly when it was on before and its checkbox
    was never clicked, and the checkboxes are all shown checked again. *)
Theorem toggles_only_switch_off :
  forall (acts : list TreeView.Action) (v : TreeView.Viewer),
    allChecked v ->
    let v' := fold_left TreeView.act acts v in
    allChecked v'
    /\ TreeViewer.toggle_routes (TreeView.toggleStates v')
       = TreeViewer.toggle_routes (TreeView.toggleStates v)
         && negb (existsb isClickRoutes acts)
    /\ TreeViewer.toggle_lambdas (TreeView.toggleStates v')
       = TreeViewer.toggle_lambdas (TreeView.toggleStates v)
         && negb (existsb isClickLambdas acts)
    /\ TreeViewer.toggle_tables (TreeView.toggleStates v')
       = TreeViewer.toggle_tables (TreeView.toggleStates v)
         && negb (existsb isClickTables acts).
Proof.
  induction acts as [|a acts IH]; intros v Hv; cbv zeta.
  - cbn. rewrite !andb_true_r. auto.
  - destruct (act_toggles v a Hv) as (Hv1 & Hr & Hl & Ht).
    destruct (IH (TreeView.act v a) Hv1) as (Hv2 & Hr2 & Hl2 & Ht2).
    cbn [fold_left existsb]. rewrite Hr2, Hl2, Ht2, Hr, Hl, Ht.
    rewrite !negb_orb, !andb_assoc. auto.
Qed.

Lemma toggles_only_switch_off_witness :
  let v' :=
    fold_left TreeView.act
      [TreeView.ClickRoutes; TreeView.ClickRoutes; TreeView.Init None]
      sampleViewer in
  allChecked v'
  /\ TreeViewer.toggle_routes (TreeView.toggleStates v')
     = TreeViewer.toggle_routes (TreeView.toggleStates sampleViewer)
       && negb (existsb isClickRoutes
                  [TreeView.ClickRoutes; TreeView.ClickRoutes; TreeView.Init None])
  /\ TreeViewer.toggle_lambdas (TreeView.toggleStates v')
     = TreeViewer.toggle_lambdas (TreeView.toggleStates sampleViewer)
       && negb (existsb isClickLambdas
                  [TreeView.ClickRoutes; TreeView.ClickRoutes; TreeView.Init None])
  /\ TreeViewer.toggle_tables (TreeView.toggleStates v')
     = TreeViewer.toggle_tables (TreeView.toggleStates sampleViewer)
       && negb (existsb isClickTables
                  [TreeView.ClickRoutes; TreeView.ClickRoutes; TreeView.Init None]).
Proof.
  apply (toggles_only_switch_off
           [TreeView.ClickRoutes; TreeView.ClickRoutes; TreeView.Init None]
           sampleViewer).
  repeat split.
Defined.

(** ** Tree Renderer: the empty tree *)

Lemma renderTreeNodes_nonempty (x : TreeViewer.TreeNode)
    (l : list TreeViewer.TreeNode) (depth : nat) :
  exists rest, TreeViewer.renderTreeNodes (x :: l) depth = String "010" rest.
Proof. eexists. reflexivity. Qed.

Lemma nonEmpty_orEmpty {A : Type} (l : option (list A)) :
  TreeViewer.nonEmpty l = false <-> TreeViewer.orEmpty l = [].
Proof. destruct l as [[|x l]|]; cbn; split; congruence. Qed.

(** X15: [render] shows the notice for an empty tree exactly when every
    category is switched off or has no element; otherwise the container
    holds a list. *)
Theorem empty_tree_notice :
  forall (M : TreeViewer.ArcData) (T : TreeViewer.ToggleStates),
    TreeViewer.renderTreeNodes (TreeViewer.buildTree M T) 0 = noItems
    <-> offOrEmpty (TreeViewer.toggle_routes T) (TreeViewer.routes M)
        /\ offOrEmpty (TreeViewer.toggle_lambdas T) (TreeViewer.lambdas M)
        /\ offOrEmpty (TreeViewer.toggle_tables T) (TreeViewer.tables M).
Proof.
  intros M T. unfold offOrEmpty. rewrite <- !nonEmpty_orEmpty.
  unfold TreeViewer.buildTree.
  destruct (TreeViewer.toggle_routes T), (TreeViewer.nonEmpty (TreeViewer.routes M)),
    (TreeViewer.toggle_lambdas T), (TreeViewer.nonEmpty (TreeViewer.lambdas M)),
    (TreeViewer.toggle_tables T), (TreeViewer.nonEmpty (TreeViewer.tables M));
    cbn [andb Datatypes.app];
    first
      [ (split; [intros _; tauto | intros _; reflexivity])
      | (split;
         [ intros H;
           match type of H with
           | TreeViewer.renderTreeNodes (?x :: ?l) 0 = _ =>
               destruct (renderTreeNodes_nonempty x l 0) as (rest & E);
               rewrite E in H; discriminate H
           end
         | intros (H1 & H2 & H3);
           repeat match goal with
                  | H : _ \/ _ |- _ => destruct H
                  end; discriminate ]) ].
Qed.

(** ** Tree Renderer: the filter *)

Lemma Li_forall_ind (P : TreeView.Li -> Prop) :
  (forall label hidden collapsed kids,
      Forall P kids -> P (TreeView.mkLi label hidden collapsed kids)) ->
  forall li, P li.
Proof.
  intros H. fix IH 1. intros [label hidden collapsed kids]. apply H.
  induction kids as [|k r IHr]; constructor; [apply IH | exact IHr].
Qed.

Lemma map_ext_Forall {A B : Type} (f g : A -> B) (l : list A) :
  Forall (fun x => f x = g x) l -> map f l = map g l.
Proof. induction 1; cbn [map]; congruence. Qed.

Lemma countMatches_filterLi (q query : string) (li : TreeView.Li) :
  TreeView.countMatches q (TreeView.filterLi query li) = TreeView.countMatches q li.
Proof.
  induction li as [label hidden collapsed kids IH] using Li_forall_ind.
  cbn [TreeView.countMatches TreeView.filterLi TreeView.li_label TreeView.li_kids].
  rewrite map_map. now rewrite (map_ext_Forall _ _ kids IH).
Qed.

Lemma totalMatches_filter (q query : string) (l : list TreeView.Li) :
  totalMatches q (map (TreeView.filterLi query) l) = totalMatches q l.
Proof.
  unfold totalMatches. rewrite map_map. f_equal.
  apply map_ext. intros li. apply countMatches_filterLi.
Qed.

Lemma nodes_filterLi (query : string) (li : TreeView.Li) :
  nodes (TreeView.filterLi query li) = map (TreeView.filterLi query) (nodes li).
Proof.
  induction li as [label hidden collapsed kids IH] using Li_forall_ind.
  cbn [nodes TreeView.filterLi TreeView.li_kids map]. f_equal.
  rewrite map_map, concat_map, map_map. f_equal.
  now apply map_ext_Forall.
Qed.

Lemma allNodes_filter (query : string) (l : list TreeView.Li) :
  allNodes (map (TreeView.filterLi query) l)
  = map (TreeView.filterLi query) (allNodes l).
Proof.
  unfold allNodes. rewrite map_map, concat_map, map_map. f_equal.
  apply map_ext. intros li. apply nodes_filterLi.
Qed.

(** X16: an empty query shows every item again, whatever an earlier query
    hid, removes the notice, and changes neither a label nor the collapsed
    state of a box. *)
Theorem filterTree_empty_query_restores :
  forall d : TreeView.Dom,
    let d' := TreeView.filterTree EmptyString d in
    Forall (fun li => TreeView.li_hidden li = false) (allNodes (TreeView.items d'))
    /\ map TreeView.li_label (allNodes (TreeView.items d'))
       = map TreeView.li_label (allNodes (TreeView.items d))
    /\ map TreeView.li_collapsed (allNodes (TreeView.items d'))
       = map TreeView.li_collapsed (allNodes (TreeView.items d))
    /\ TreeView.noMatch d' = None.
Proof.
  intros d. cbv zeta. cbn [TreeView.filterTree TreeView.items TreeView.noMatch].
  rewrite allNodes_filter, !map_map. repeat split.
  - apply Forall_map, Forall_forall. intros [label hidden collapsed kids] _.
    cbn. now rewrite orb_true_r.
  - apply map_ext. now intros [label hidden collapsed kids].
  - apply map_ext. now intros [label hidden collapsed kids].
Qed.

(** X17: under a non-empty query an item is hidden exactly when its own
    label does not contain the query, letter case ignored; the labels below
    it play no part. *)
Theorem filterTree_hides_by_own_label :
  forall (query : string) (d : TreeView.Dom),
    query <> EmptyString ->
    map (fun li => (TreeView.li_label li, TreeView.li_hidden li))
      (allNodes (TreeView.items (TreeView.filterTree query d)))
    = map (fun li => (TreeView.li_label li,
                      negb (TreeView.matchesLabel query (TreeView.li_label li))))
        (allNodes (TreeView.items d)).
Proof.
  intros query d Hq. cbn [TreeView.filterTree TreeView.items].
  rewrite allNodes_filter, map_map. apply map_ext.
  intros [label hidden collapsed kids]. cbn.
  apply String.eqb_neq in Hq. now rewrite Hq, orb_false_r.
Qed.

Lemma filterTree_hides_by_own_label_witness :
  map (fun li => (TreeView.li_label li, TreeView.li_hidden li))
    (allNodes (TreeView.items (TreeView.filterTree "api" sampleDom)))
  = map (fun li => (TreeView.li_label li,
                    negb (TreeView.matchesLabel "api" (TreeView.li_label li))))
      (allNodes (TreeView.items sampleDom)).
Proof.
  apply (filterTree_hides_by_own_label "api" sampleDom). discriminate.
Defined.

Lemma displayedLi_match (query : string) (li : TreeView.Li) :
  query <> EmptyString ->
  Forall (fun label => TreeView.matchesLabel query label = true)
    (displayedLi (TreeView.filterLi query li)).
Proof.
  intros Hq. apply String.eqb_neq in Hq.
  induction li as [label hidden collapsed kids IH] using Li_forall_ind.
  cbn [displayedLi TreeView.filterLi TreeView.li_hidden TreeView.li_label
       TreeView.li_kids].
  rewrite Hq, orb_false_r.
  destruct (TreeView.matchesLabel query label) eqn:E; cbn [negb]; [|constructor].
  constructor; [exact E|].
  rewrite map_map. apply Forall_concat, Forall_map.
  exact IH.
Qed.

(** X18: a group whose own label does not contain the query is hidden
    together with everything in it.  So when no top-level label matches a
    non-empty query, nothing of the tree is displayed, and if an item below
    matches there is no notice either.  In general every label still
    displayed matches. *)
Theorem filterTree_hides_matches_in_unmatched_groups :
  forall (query : string) (d : TreeView.Dom),
    query <> EmptyString ->
    Forall (fun label => TreeView.matchesLabel query label = true)
      (displayed (TreeView.items (TreeView.filterTree query d)))
    /\ (Forall (fun li => TreeView.matchesLabel query (TreeView.li_label li) = false)
          (TreeView.items d) ->
        displayed (TreeView.items (TreeView.filterTree query d)) = []
        /\ (0 < totalMatches query (TreeView.items d) ->
            TreeView.noMatch (TreeView.filterTree query d) = None)).
Proof.
  intros query d Hq. cbn [TreeView.filterTree TreeView.items TreeView.noMatch].
  unfold displayed. rewrite map_map. split.
  - apply Forall_concat, Forall_map, Forall_forall. intros li _.
    now apply displayedLi_match.
  - intros Hall. split.
    + induction Hall as [|li l Hli _ IH]; [reflexivity|].
      cbn [map concat]. rewrite IH, app_nil_r.
      destruct li as [label hidden collapsed kids]. cbn in Hli |- *.
      apply String.eqb_neq in Hq. now rewrite Hli, Hq.
    + intros Hpos. fold (totalMatches query (TreeView.items d)).
      apply String.eqb_neq in Hq. rewrite Hq.
      destruct (Nat.eqb_spec (totalMatches query (TreeView.items d)) 0) as [E|_];
        [lia|]. now rewrite andb_false_r.
Qed.

Lemma filterTree_hides_matches_in_unmatched_groups_witness :
  displayed (TreeView.items (TreeView.filterTree "api" sampleDom)) = []
  /\ TreeView.noMatch (TreeView.filterTree "api" sampleDom) = None.
Proof.
  destruct (filterTree_hides_matches_in_unmatched_groups "api" sampleDom)
    as (_ & H); [discriminate|].
  destruct H as (H1 & H2); [repeat constructor|].
  split; [exact H1 | apply H2; vm_compute; lia].
Defined.

Lemma Forall2_map_r {A B : Type} (R : A -> B -> Prop) (f : A -> B) (l : list A) :
  (forall x, R x (f x)) -> Forall2 R l (map f l).
Proof. intros H. induction l; cbn [map]; constructor; auto. Qed.

(** X19: the filter opens boxes and never closes one: a box that is
    collapsed after [filterTree] was collapsed before, and under a non-empty
    query no box with a matching item below it stays collapsed. *)
Theorem filterTree_only_expands :
  forall (query : string) (d : TreeView.Dom),
    Forall2 (fun before after =>
               TreeView.li_collapsed after = true ->
               TreeView.li_collapsed before = true)
      (allNodes (TreeView.items d))
      (allNodes (TreeView.items (TreeView.filterTree query d)))
    /\ (query <> EmptyString ->
        Forall (fun li =>
                  0 < totalMatches query (TreeView.li_kids li) ->
                  TreeView.li_collapsed li = false)
          (allNodes (TreeView.items (TreeView.filterTree query d)))).
Proof.
  intros query d. cbn [TreeView.filterTree TreeView.items].
  rewrite allNodes_filter. split.
  - apply Forall2_map_r. intros [label hidden collapsed kids]. cbn.
    destruct (negb (String.eqb query EmptyString) && _); [discriminate | auto].
  - intros Hq. apply String.eqb_neq in Hq.
    apply Forall_map, Forall_forall. intros [label hidden collapsed kids] _.
    cbn [TreeView.filterLi TreeView.li_kids TreeView.li_collapsed TreeView.li_label].
    rewrite totalMatches_filter. unfold totalMatches. intros Hpos.
    apply Nat.ltb_lt in Hpos. now rewrite Hq, Hpos.
Qed.

Lemma filterTree_only_expands_witness :
  Forall (fun li =>
            0 < totalMatches "api" (TreeView.li_kids li) ->
            TreeView.li_collapsed li = false)
    (allNodes (TreeView.items (TreeView.filterTree "api" sampleDom))).
Proof.
  apply (proj2 (filterTree_only_expands "api" sampleDom)). discriminate.
Defined.

(** X20: the notice is there after [filterTree] exactly when the query is
    not empty and no label matches.  An existing notice is kept as it is:
    after two queries in a row without a match, the notice still names the
    first query, not the one in force. *)
Theorem filterTree_notice :
  forall (query : string) (d : TreeView.Dom),
    (TreeView.noMatch (TreeView.filterTree query d) = None
     <-> query = EmptyString \/ 0 < totalMatches query (TreeView.items d))
    /\ (forall later : string,
          TreeView.noMatch d = None ->
          query <> EmptyString -> later <> EmptyString ->
          totalMatches query (TreeView.items d) = 0 ->
          totalMatches later (TreeView.items d) = 0 ->
          TreeView.noMatch (TreeView.filterTree later (TreeView.filterTree query d))
          = Some (noticeFor query)).
Proof.
  intros query d.
  assert (Hone : forall q dom,
             q <> EmptyString -> totalMatches q (TreeView.items dom) = 0 ->
             TreeView.noMatch (TreeView.filterTree q dom)
             = match TreeView.noMatch dom with
               | Some text => Some text
               | None => Some (noticeFor q)
               end).
  { intros q dom Hq H0. cbn [TreeView.filterTree TreeView.noMatch].
    fold (totalMatches q (TreeView.items dom)). rewrite H0.
    assert (Ht : JS.truthy q = true) by (destruct q; [contradiction | reflexivity]).
    apply String.eqb_neq in Hq. now rewrite Hq, Ht. }
  split.
  - destruct (String.eqb_spec query EmptyString) as [->|Hq].
    + split; [auto | reflexivity].
    + destruct (Nat.eq_dec (totalMatches query (TreeView.items d)) 0) as [E|E].
      * rewrite (Hone query d Hq E). split.
        -- destruct (TreeView.noMatch d); discriminate.
        -- intros [H | H]; [contradiction | lia].
      * split; [intros _; right; lia|]. intros _.
        cbn [TreeView.filterTree TreeView.noMatch].
        fold (totalMatches query (TreeView.items d)).
        apply String.eqb_neq in Hq. rewrite Hq.
        apply Nat.eqb_neq in E. now rewrite E, andb_false_r.
  - intros later Hnone Hq Hl H1 H2.
    rewrite Hone; [|exact Hl|].
    + now rewrite (Hone query d Hq H1), Hnone.
    + cbn [TreeView.filterTree TreeView.items]. now rewrite totalMatches_filter.
Qed.

Lemma filterTree_notice_witness :
  TreeView.noMatch (TreeView.filterTree "zzz" (TreeView.filterTree "xyz" sampleDom))
  = Some (noticeFor "xyz").
Proof.
  apply (proj2 (filterTree_notice "xyz" sampleDom) "zzz");
    try discriminate; reflexivity.
Defined.

(** ** Live Watcher: the polling loop *)

Section PollingLoop.

Context {Snapshot : Type} (stringify : Snapshot -> string).

Lemma looping_step (w : @Watcher.World Snapshot) (e : Watcher.Event) :
  looping w -> platformEvent e ->
  looping (Watcher.step stringify w e)
  /\ (withoutData e ->
      Watcher.handled (Watcher.step stringify w e) = Watcher.handled w
      /\ Watcher.lastData (Watcher.step stringify w e) = Watcher.lastData w).
Proof.
  intros (Hw & Hloop) He.
  destruct w as [last watching pt ws next tm fl so hd].
  cbn [Watcher.isWatching Watcher.inFlight Watcher.timers Watcher.pollTimeout] in *.
  subst watching.
  destruct e as [ | | id | r | | m | | ]; try contradiction.
  - (* a timer fires *)
    destruct Hloop as [(Hf & t & Hpt & Htm) | (Hf & Htm)]; subst fl tm.
    + unfold Watcher.step, Watcher.findTimer, Watcher.clearTimeout.
      cbn [Watcher.timers find filter fst].
      destruct (Nat.eqb_spec t id) as [E|E]; cbn [option_map snd negb].
      * unfold looping. cbn. split; [split; [reflexivity | right; auto] | auto].
      * unfold looping. cbn. split; [split; [reflexivity | left; eauto] | auto].
    + unfold looping. cbn. split; [split; [reflexivity | right; auto] | auto].
  - (* a fetch settles *)
    destruct Hloop as [(Hf & t & Hpt & Htm) | (Hf & Htm)]; subst fl tm.
    + unfold looping. cbn. split; [split; [reflexivity | left; eauto] | auto].
    + unfold Watcher.step. cbn [Watcher.inFlight].
      unfold Watcher.resumePoll. cbn [Watcher.lastData].
      destruct r as [data|];
        [destruct (Watcher.differs last (stringify data))|];
        unfold looping; cbn;
        (split; [split; [reflexivity | left; eauto] | try contradiction; auto]).
Qed.

(** X21: a failed poll does not end the loop and a poll never starts a
    second one.  Whatever timers fire and however the fetches settle, one
    polling loop stays one polling loop; and events that bring no snapshot,
    failed fetches among them, call no handler and leave the fingerprint as
    it was. *)
Theorem polling_loop_survives :
  forall (es : list Watcher.Event) (w : @Watcher.World Snapshot),
    looping w ->
    Forall platformEvent es ->
    looping (Watcher.run stringify es w)
    /\ (Forall withoutData es ->
        Watcher.handled (Watcher.run stringify es w) = Watcher.handled w
        /\ Watcher.lastData (Watcher.run stringify es w) = Watcher.lastData w).
Proof.
  induction es as [|e es IH]; intros w Hw Hes; [cbn; auto|].
  inversion Hes as [|? ? He Hes']; subst.
  destruct (looping_step w e Hw He) as (Hw1 & Hquiet).
  destruct (IH _ Hw1 Hes') as (Hw2 & Hquiet2).
  change (Watcher.run stringify (e :: es) w)
    with (Watcher.run stringify es (Watcher.step stringify w e)).
  split; [exact Hw2|].
  intros Hno. inversion Hno as [|? ? Hn Hno']; subst.
  destruct (Hquiet Hn) as (Hh & Hl). destruct (Hquiet2 Hno') as (Hh2 & Hl2).
  split; congruence.
Qed.

(** X22: a restart can double the loop.  When [stop] and then [start] are
    called while a fetch is in flight, in a page without WebSocket, [start]
    schedules a poll and the fetch, once settled, schedules another: two
    poll timers are pending where one loop ran before. *)
Theorem restart_during_fetch_doubles_loop :
  forall (w : @Watcher.World Snapshot) (r : Watcher.FetchResult),
    Watcher.isWatching w = true ->
    Watcher.webSocketAvailable w = false ->
    Watcher.inFlight w = 1 ->
    Watcher.timers w = [] ->
    let w' :=
      Watcher.run stringify
        [Watcher.CallStop; Watcher.CallStart; Watcher.FetchSettles r] w in
    Watcher.isWatching w' = true
    /\ Watcher.inFlight w' = 0
    /\ Watcher.timers w'
       = [(Watcher.nextTimer w, Watcher.PollTimer);
          (S (Watcher.nextTimer w), Watcher.PollTimer)].
Proof.
  intros w r Hw Hws Hf Htm.
  destruct w as [last watching pt ws next tm fl so hd].
  cbn [Watcher.isWatching Watcher.inFlight Watcher.timers
       Watcher.webSocketAvailable Watcher.nextTimer] in *.
  subst watching ws fl tm. cbv zeta.
  assert (E : forall p,
             Watcher.step stringify
               (Watcher.start
                  (Watcher.stop
                     (Watcher.Build_World last true p false next [] 1 so hd)))
               (Watcher.FetchSettles r)
             = Watcher.startPolling
                 (match r with
                  | Watcher.FetchOk data =>
                      if Watcher.differs last (stringify data) then
                        Watcher.Build_World (Some (stringify data)) true (Some next)
                          false (S next) [(next, Watcher.PollTimer)] 0 so
                          (hd ++ [data])
                      else
                        Watcher.Build_World last true (Some next)
                          false (S next) [(next, Watcher.PollTimer)] 0 so hd
                  | Watcher.FetchFails =>
                      Watcher.Build_World last true (Some next)
                        false (S next) [(next, Watcher.PollTimer)] 0 so hd
                  end)).
  { intros [[|t]|]; destruct r as [data|]; cbn;
      unfold Watcher.resumePoll; cbn [Watcher.lastData];
      try destruct (Watcher.differs last (stringify data)); reflexivity. }
  unfold Watcher.run. cbn [fold_left].
  change (Watcher.step stringify
            (Watcher.step stringify
               (Watcher.Build_World last true pt false next [] 1 so hd)
               Watcher.CallStop) Watcher.CallStart)
    with (Watcher.start
            (Watcher.stop (Watcher.Build_World last true pt false next [] 1 so hd))).
  rewrite E.
  destruct r as [data|]; [destruct (Watcher.differs last (stringify data))|];
    cbn; auto.
Qed.


(** X24: [stop] and [start] keep the fingerprint.  A polling watcher that
    is stopped and started again, in a page without WebSocket, polls with
    one loop as before and does not report again the snapshot it had
    already seen. *)
Theorem restart_keeps_fingerprint :
  forall (w : @Watcher.World Snapshot) (data : Snapshot),
    waiting w ->
    Watcher.pollTimeout w <> Some 0 ->
    Watcher.webSocketAvailable w = false ->
    Watcher.lastData w = Some (stringify data) ->
    let restarted := Watcher.start (Watcher.stop w) in
    waiting restarted
    /\ Watcher.handled (pollOnce stringify restarted data) = Watcher.handled w.
Proof.
  intros w data (Hw & Hf & t & Hpt & Htm) Hnz Hws Hlast.
  destruct w as [last watching pt ws next tm fl so hd].
  cbn [Watcher.isWatching Watcher.inFlight Watcher.timers Watcher.pollTimeout
       Watcher.webSocketAvailable Watcher.lastData Watcher.handled] in *.
  subst watching fl pt tm ws last. cbv zeta.
  destruct t as [|t]; [congruence|].
  assert (E : Watcher.start
                (Watcher.stop
                   (Watcher.Build_World (Some (stringify data)) true (Some (S t))
                      false next [(S t, Watcher.PollTimer)] 0 so hd))
              = Watcher.Build_World (Some (stringify data)) true (Some next)
                  false (S next) [(next, Watcher.PollTimer)] 0 so hd).
  { unfold Watcher.stop, Watcher.start, Watcher.clearTimeout.
    cbn [Watcher.isWatching negb Watcher.pollTimeout Watcher.timers filter fst].
    rewrite Nat.eqb_refl. reflexivity. }
  rewrite E. split.
  - unfold waiting. cbn. repeat split. eauto.
  - unfold pollOnce, Watcher.run. cbn [Watcher.pollTimeout fold_left].
    rewrite step_poll_timer, step_fetch_ok. cbn [Watcher.handled Watcher.differs].
    now rewrite String.eqb_refl.
Qed.

End PollingLoop.


Lemma startedWatcher_looping : looping startedWatcher.
Proof.
  split; [reflexivity|]. left. split; [reflexivity|].
  exists 1. split; reflexivity.
Defined.

Lemma polling_loop_survives_witness :
  looping (Watcher.run serialised
             [Watcher.TimerFires 1; Watcher.FetchSettles Watcher.FetchFails;
              Watcher.TimerFires 2]
             startedWatcher)
  /\ Watcher.handled
       (Watcher.run serialised
          [Watcher.TimerFires 1; Watcher.FetchSettles Watcher.FetchFails;
           Watcher.TimerFires 2]
          startedWatcher)
     = Watcher.handled startedWatcher.
Proof.
  destruct (polling_loop_survives serialised
              [Watcher.TimerFires 1; Watcher.FetchSettles Watcher.FetchFails;
               Watcher.TimerFires 2]
              startedWatcher startedWatcher_looping)
    as (H1 & H2); [repeat constructor|].
  split; [exact H1|]. apply H2. repeat constructor.
Defined.

Lemma restart_during_fetch_doubles_loop_witness :
  Watcher.timers
    (Watcher.run serialised
       [Watcher.CallStop; Watcher.CallStart;
        Watcher.FetchSettles (Watcher.FetchOk "A")]
       fetchingWatcher)
  = [(Watcher.nextTimer fetchingWatcher, Watcher.PollTimer);
     (S (Watcher.nextTimer fetchingWatcher), Watcher.PollTimer)].
Proof.
  apply (restart_during_fetch_doubles_loop serialised fetchingWatcher
           (Watcher.FetchOk "A")); reflexivity.
Defined.


Lemma restart_keeps_fingerprint_witness :
  waiting (Watcher.start (Watcher.stop (pollOnce serialised startedWatcher "A")))
  /\ Watcher.handled
       (pollOnce serialised
          (Watcher.start (Watcher.stop (pollOnce serialised startedWatcher "A")))
          "A")
     = Watcher.handled (pollOnce serialised startedWatcher "A").
Proof.
  apply (restart_keeps_fingerprint serialised
           (pollOnce serialised startedWatcher "A") "A").
  - unfold waiting. repeat split. exists 2. split; reflexivity.
  - discriminate.
  - reflexivity.
  - reflexivity.
Defined.

(** ** Live Watcher: the number of polling loops *)

Section LoopCounting.

Context {Snapshot : Type} (stringify : Snapshot -> string).

Lemma clearTimeout_absent (id : nat) (l : list (nat * Watcher.TimerKind)) :
  ~ In id (map fst l) -> Watcher.clearTimeout id l = l.
Proof.
  induction l as [|[i k] l IH]; intros Hn; [reflexivity|].
  cbn [Watcher.clearTimeout filter fst]. cbn [map fst In] in Hn.
  destruct (Nat.eqb_spec i id) as [->|Hne]; [exfalso; apply Hn; now left|].
  cbn [negb]. f_equal. apply IH. intros H. apply Hn. now right.
Qed.

Lemma clearTimeout_subset (id : nat) (l : list (nat * Watcher.TimerKind)) t :
  In t (Watcher.clearTimeout id l) -> In t l.
Proof. intros H. now apply filter_In in H. Qed.

Lemma clearTimeout_NoDup (id : nat) (l : list (nat * Watcher.TimerKind)) :
  NoDup (map fst l) -> NoDup (map fst (Watcher.clearTimeout id l)).
Proof.
  induction l as [|[i k] l IH]; intros Hnd; [constructor|].
  cbn [map fst] in Hnd. inversion Hnd as [|? ? Hni Hnd']; subst.
  cbn [Watcher.clearTimeout filter fst].
  destruct (negb (i =? id)%nat); [|now apply IH].
  cbn [map fst]. constructor; [|now apply IH].
  intros H. apply Hni. apply in_map_iff in H. destruct H as [t [E Ht]].
  apply in_map_iff. exists t. split; [exact E|].
  now apply (clearTimeout_subset id).
Qed.

(** Firing a timer takes exactly that timer out of the pending ones. *)
Lemma clearTimeout_count (id : nat) (l : list (nat * Watcher.TimerKind)) kind :
  NoDup (map fst l) ->
  Watcher.findTimer id l = Some kind ->
  length (filter isPoll l)
  = length (filter isPoll (Watcher.clearTimeout id l))
    + match kind with Watcher.PollTimer => 1 | Watcher.ReconnectTimer => 0 end.
Proof.
  induction l as [|[i k] l IH]; intros Hnd Hf; [discriminate|].
  cbn [map fst] in Hnd. inversion Hnd as [|? ? Hni Hnd']; subst.
  unfold Watcher.findTimer in Hf. cbn [find fst] in Hf.
  cbn [Watcher.clearTimeout filter fst].
  destruct (Nat.eqb_spec i id) as [->|Hne].
  - cbn [option_map snd] in Hf. injection Hf as ->. cbn [negb].
    fold (Watcher.clearTimeout id l). rewrite (clearTimeout_absent id l Hni).
    cbn [snd]. destruct kind; cbn [length]; lia.
  - cbn [negb]. fold (Watcher.clearTimeout id l).
    cbn [filter snd]. specialize (IH Hnd' Hf).
    destruct k; cbn [length]; lia.
Qed.

Lemma distinct_snoc (l : list (nat * Watcher.TimerKind)) (next : nat) kind :
  NoDup (map fst l) ->
  (forall t, In t l -> fst t < next) ->
  NoDup (map fst (l ++ [(next, kind)]))
  /\ forall t, In t (l ++ [(next, kind)]) -> fst t < S next.
Proof.
  intros Hnd Hlt. split.
  - rewrite map_app. cbn [map fst].
    apply NoDup_app; [exact Hnd|repeat constructor; intros []|].
    intros a Ha [<-|[]]. apply in_map_iff in Ha. destruct Ha as [t [E Ht]].
    apply Hlt in Ht. lia.
  - intros t Ht. apply in_app_or in Ht. destruct Ht as [Ht|[<-|[]]].
    + apply Hlt in Ht. lia.
    + cbn. lia.
Qed.

Lemma pollCount_snoc (l : list (nat * Watcher.TimerKind)) (next : nat) kind :
  length (filter isPoll (l ++ [(next, kind)]))
  = length (filter isPoll l)
    + match kind with Watcher.PollTimer => 1 | Watcher.ReconnectTimer => 0 end.
Proof. rewrite filter_app, length_app. destruct kind; reflexivity. Qed.

(** One event on a watcher that watches through a socket. *)
Lemma loops_step (w : @Watcher.World Snapshot) (e : Watcher.Event) :
  Watcher.isWatching w = true ->
  Watcher.webSocketAvailable w = true ->
  0 < Watcher.sockets w ->
  distinctTimers w ->
  keepsWatching e ->
  let w' := Watcher.step stringify w e in
  Watcher.isWatching w' = true
  /\ Watcher.webSocketAvailable w' = true
  /\ 0 < Watcher.sockets w'
  /\ distinctTimers w'
  /\ loops w' = loops w + socketErrors [e].
Proof.
  destruct w as [last watching pt ws next tm fl so hd].
  unfold distinctTimers, loops, pollTimers.
  cbn [Watcher.isWatching Watcher.webSocketAvailable Watcher.sockets
       Watcher.timers Watcher.nextTimer Watcher.inFlight].
  intros -> -> Hso [Hnd Hlt] He.
  destruct e as [| |id|r| |m| |]; cbn [keepsWatching] in He; try contradiction;
    cbn [socketErrors filter length].
  - (* start() on a watching watcher *)
    cbn. repeat split; try assumption; lia.
  - (* a timer fires *)
    cbn [Watcher.step Watcher.timers].
    destruct (Watcher.findTimer id tm) as [kind|] eqn:Hf.
    + pose proof (clearTimeout_count id tm kind Hnd Hf) as Hc.
      pose proof (clearTimeout_NoDup id tm Hnd) as Hnd'.
      assert (Hlt' : forall t, In t (Watcher.clearTimeout id tm) -> fst t < next)
        by (intros t Ht; apply Hlt; now apply (clearTimeout_subset id)).
      destruct kind;
        cbn [Watcher.tryWebSocketConnection Watcher.isWatching
             Watcher.webSocketAvailable Watcher.sockets Watcher.timers
             Watcher.nextTimer Watcher.inFlight Watcher.lastData
             Watcher.pollTimeout Watcher.handled];
        repeat split; try assumption; try (cbv beta iota in Hc; lia).
    + cbn [Watcher.isWatching Watcher.webSocketAvailable Watcher.sockets
           Watcher.timers Watcher.nextTimer Watcher.inFlight].
      repeat split; try assumption; lia.
  - (* a fetch settles *)
    cbn [Watcher.step Watcher.inFlight].
    destruct fl as [|fl].
    + cbn [Watcher.isWatching Watcher.webSocketAvailable Watcher.sockets
           Watcher.timers Watcher.nextTimer Watcher.inFlight].
      repeat split; try assumption; lia.
    + destruct (distinct_snoc tm next Watcher.PollTimer Hnd Hlt) as [Hnd' Hlt'].
      pose proof (pollCount_snoc tm next Watcher.PollTimer) as Hc.
      unfold Watcher.resumePoll. cbn [Watcher.lastData].
      destruct r as [data|]; [destruct (Watcher.differs last (stringify data))|];
        unfold Watcher.handleArcChanged, Watcher.startPolling, Watcher.schedulePoll;
        cbn [Watcher.isWatching Watcher.webSocketAvailable Watcher.sockets
             Watcher.timers Watcher.nextTimer Watcher.inFlight Watcher.lastData
             Watcher.pollTimeout Watcher.handled negb];
        repeat split; try assumption; try (cbv beta iota in Hc; lia).
  - (* open *)
    cbn. repeat split; try assumption; lia.
  - (* message *)
    cbn [Watcher.step Watcher.sockets].
    destruct so as [|so]; [lia|].
    destruct m as [arcData|]; unfold Watcher.handleArcChanged;
      cbn [Watcher.isWatching Watcher.webSocketAvailable Watcher.sockets
           Watcher.timers Watcher.nextTimer Watcher.inFlight];
      repeat split; try assumption; lia.
  - (* error *)
    cbn [Watcher.step Watcher.sockets].
    destruct so as [|so]; [lia|].
    destruct (distinct_snoc tm next Watcher.PollTimer Hnd Hlt) as [Hnd' Hlt'].
    pose proof (pollCount_snoc tm next Watcher.PollTimer) as Hc.
    unfold Watcher.startPolling, Watcher.schedulePoll;
      cbn [Watcher.isWatching Watcher.webSocketAvailable Watcher.sockets
           Watcher.timers Watcher.nextTimer Watcher.inFlight Watcher.lastData
           Watcher.pollTimeout Watcher.handled negb];
      repeat split; try assumption; try (cbv beta iota in Hc; lia).
  - (* close *)
    cbn [Watcher.step Watcher.sockets].
    destruct so as [|so]; [lia|].
    destruct (distinct_snoc tm next Watcher.ReconnectTimer Hnd Hlt) as [Hnd' Hlt'].
    pose proof (pollCount_snoc tm next Watcher.ReconnectTimer) as Hc.
    unfold Watcher.scheduleReconnect;
      cbn [Watcher.isWatching Watcher.webSocketAvailable Watcher.sockets
           Watcher.timers Watcher.nextTimer Watcher.inFlight Watcher.lastData
           Watcher.pollTimeout Watcher.handled negb];
      repeat split; try assumption; try (cbv beta iota in Hc; lia).
Qed.

(** X25: polling loops are never given up while the watcher watches, and
    nothing keeps a socket error from starting one more: over any events
    but a call of [stop], on a watcher that watches through a socket, the
    number of polling loops alive (pending poll timers and fetches in
    flight) grows by exactly the number of socket errors. *)
Theorem socket_errors_add_polling_loops :
  forall (es : list Watcher.Event) (w : @Watcher.World Snapshot),
    Watcher.isWatching w = true ->
    Watcher.webSocketAvailable w = true ->
    0 < Watcher.sockets w ->
    distinctTimers w ->
    Forall keepsWatching es ->
    loops (Watcher.run stringify es w) = loops w + socketErrors es.
Proof.
  induction es as [|e es IH]; intros w Hw Ha Hso Hd Hes.
  - cbn. lia.
  - inversion Hes as [|? ? He Hes']; subst.
    destruct (loops_step w e Hw Ha Hso Hd He) as (Hw' & Ha' & Hso' & Hd' & Hl).
    change (Watcher.run stringify (e :: es) w)
      with (Watcher.run stringify es (Watcher.step stringify w e)).
    rewrite (IH _ Hw' Ha' Hso' Hd' Hes'), Hl.
    unfold socketErrors. cbn [filter]. destruct e; cbn [length]; lia.
Qed.

End LoopCounting.

Lemma socket_errors_add_polling_loops_witness :
  loops (Watcher.run serialised
           [Watcher.SocketError; Watcher.SocketCloses; Watcher.TimerFires 1;
            Watcher.TimerFires 2; Watcher.SocketError;
            Watcher.FetchSettles (Watcher.FetchOk "A")]
           connectingWatcher)
  = loops connectingWatcher + 2.
Proof.
  apply (socket_errors_add_polling_loops serialised
           [Watcher.SocketError; Watcher.SocketCloses; Watcher.TimerFires 1;
            Watcher.TimerFires 2; Watcher.SocketError;
            Watcher.FetchSettles (Watcher.FetchOk "A")]
           connectingWatcher).
  - reflexivity.
  - reflexivity.
  - cbn. lia.
  - split; [constructor|intros t []].
  - repeat constructor.
Defined.

(** ** Live Watcher: the event emitter *)









(** ** Clipboard helper: the toast of a copy *)

Lemma freshPage_freshIds (d : Copy.Dom) : freshPage d -> freshIds d.
Proof. intros H n Hn. apply H, in_or_app. now left. Qed.

(** What [copy] leaves behind, whichever path it takes. *)
Lemma copy_leaves_one_toast (c : Copy.Copier) (env : Copy.Env) (txt : string)
    (d : Copy.Dom) :
  freshIds d ->
  exists b d' id,
    Copy.copy c env txt d = (Copy.Val b, d')
    /\ Copy.nextId d <= id
    /\ Copy.body d'
       = (Copy.body d
          ++ if Copy.toastContainer c then [] else [outcomeToast id b txt])%list
    /\ Copy.container d'
       = (Copy.container d
          ++ if Copy.toastContainer c then [outcomeToast id b txt] else [])%list
    /\ Copy.timers d'
       = (Copy.timers d
          ++ [(10, Copy.ShowToast id); (Copy.toastDuration c, Copy.HideToast id)])%list.
Proof.
  intros Hfresh.
  destruct (Copy.hasClipboard env && Copy.isSecureContext env) eqn:Hsec.
  - apply andb_prop in Hsec. destruct Hsec as [Hc Hs].
    destruct c as [duration [|]], env as [hc sc [|] ex];
      cbn [Copy.hasClipboard Copy.isSecureContext] in Hc, Hs; subst hc sc;
      run_copy; repeat rewrite <- app_assoc; cbn [Datatypes.app];
      do 3 eexists; (split; [reflexivity|]);
      cbn [Copy.body Copy.container Copy.timers Copy.toastContainer
           Copy.toastDuration Copy.nextId];
      (split; [apply Nat.le_refl|]);
      rewrite ?app_nil_r; repeat split; reflexivity.
  - rewrite (copy_fallback c env txt d Hfresh Hsec).
    destruct c as [duration [|]], env as [hc sc wt [[|]|]]; run_copy;
      repeat rewrite <- app_assoc; cbn [Datatypes.app];
      (rewrite removeNode_appended; [|exact Hfresh|reflexivity]);
      do 3 eexists; (split; [reflexivity|]);
      cbn [Copy.body Copy.container Copy.timers Copy.toastContainer
           Copy.toastDuration Copy.nextId];
      (split; [apply Nat.le_succ_diag_r|]);
      rewrite ?app_nil_r; repeat split; reflexivity.
Qed.

(** X27: every call of [copy] shows exactly one toast, in the configured
    container or else in the body, and the toast tells the truth: it has
    the success class and text when [copy] returns true and the error class
    and text when it returns false; two timers are set for it. *)
Theorem copy_shows_one_truthful_toast :
  forall (c : Copy.Copier) (env : Copy.Env) (txt : string) (d : Copy.Dom),
    freshIds d ->
    exists b d' id,
      Copy.copy c env txt d = (Copy.Val b, d')
      /\ Copy.nextId d <= id
      /\ Copy.body d'
         = (Copy.body d
            ++ if Copy.toastContainer c then [] else [outcomeToast id b txt])%list
      /\ Copy.container d'
         = (Copy.container d
            ++ if Copy.toastContainer c then [outcomeToast id b txt] else [])%list
      /\ Copy.timers d'
         = (Copy.timers d
            ++ [(10, Copy.ShowToast id);
                (Copy.toastDuration c, Copy.HideToast id)])%list.
Proof. exact copy_leaves_one_toast. Qed.

Lemma copy_shows_one_truthful_toast_witness :
  exists b d' id,
    Copy.copy defaultCopier throwingPlatform "GET /api/users" emptyPage
    = (Copy.Val b, d')
    /\ Copy.nextId emptyPage <= id
    /\ Copy.body d'
       = (Copy.body emptyPage
          ++ if Copy.toastContainer defaultCopier then []
             else [outcomeToast id b "GET /api/users"])%list
    /\ Copy.container d'
       = (Copy.container emptyPage
          ++ if Copy.toastContainer defaultCopier
             then [outcomeToast id b "GET /api/users"] else [])%list
    /\ Copy.timers d'
       = (Copy.timers emptyPage
          ++ [(10, Copy.ShowToast id);
              (Copy.toastDuration defaultCopier, Copy.HideToast id)])%list.
Proof.
  apply (copy_shows_one_truthful_toast defaultCopier throwingPlatform
           "GET /api/users" emptyPage).
  exact emptyPage_fresh.
Defined.

(** ** Clipboard helper: toasts over time *)

Lemma mapClass_older (f : string -> string) (id : nat) (l : list Copy.Node) :
  (forall n, In n l -> Copy.node_id n < id) -> CopyUi.mapClass f id l = l.
Proof.
  induction l as [|n l IH]; intros H; [reflexivity|].
  cbn [CopyUi.mapClass map]. fold (CopyUi.mapClass f id l).
  rewrite IH by (intros m Hm; apply H; now right).
  destruct (Nat.eqb_spec (Copy.node_id n) id) as [E|_]; [|reflexivity].
  specialize (H n (or_introl eq_refl)). lia.
Qed.

Lemma mapClass_app (f : string -> string) (id : nat) (a b : list Copy.Node) :
  CopyUi.mapClass f id (a ++ b)
  = (CopyUi.mapClass f id a ++ CopyUi.mapClass f id b)%list.
Proof. unfold CopyUi.mapClass. apply map_app. Qed.

(** The timers of one toast run: the toast is gone from where it was put
    and the older elements are as they were. *)
Lemma settle_one_toast (c : Copy.Copier) (d1 : Copy.Dom)
    (B C : list Copy.Node) (toast : Copy.Node) (duration : nat) :
  (forall n, In n (B ++ C) -> Copy.node_id n < Copy.node_id toast) ->
  Copy.body d1 = (B ++ if Copy.toastContainer c then [] else [toast])%list ->
  Copy.container d1 = (C ++ if Copy.toastContainer c then [toast] else [])%list ->
  Copy.timers d1
  = [(10, Copy.ShowToast (Copy.node_id toast));
     (duration, Copy.HideToast (Copy.node_id toast))] ->
  Copy.body (CopyUi.settle c d1) = B /\ Copy.container (CopyUi.settle c d1) = C.
Proof.
  intros Hold Hb Hc Ht.
  assert (HB : forall n, In n B -> Copy.node_id n < Copy.node_id toast)
    by (intros n Hn; apply Hold, in_or_app; now left).
  assert (HC : forall n, In n C -> Copy.node_id n < Copy.node_id toast)
    by (intros n Hn; apply Hold, in_or_app; now right).
  destruct d1 as [next body container sel clip tm errs].
  cbn [Copy.body Copy.container Copy.timers] in Hb, Hc, Ht. subst body container tm.
  unfold CopyUi.settle.
  cbn [Copy.timers map snd fold_left CopyUi.fireToastTimer CopyUi.dom
       CopyUi.removals Datatypes.app].
  unfold CopyUi.setClass.
  cbn [Copy.body Copy.container Copy.nextId Copy.selection Copy.clipboardText
       Copy.timers Copy.consoleErrors].
  rewrite !mapClass_app, !(mapClass_older _ _ B HB), !(mapClass_older _ _ C HC).
  unfold CopyUi.fireRemoval.
  destruct (Copy.toastContainer c);
    cbn [CopyUi.mapClass map Copy.node_id Copy.body Copy.container];
    rewrite ?Nat.eqb_refl; cbn [Copy.node_id];
    rewrite ?Nat.eqb_refl; cbn [Copy.node_id];
    (rewrite removeNode_appended; [|assumption|reflexivity]);
    cbn [Copy.body Copy.container]; rewrite !app_nil_r; auto.
Qed.

(** X28: a copy leaves nothing behind.  Once the two timers of its toast
    and the removal they schedule have run, the body and the toast
    container hold exactly the elements they held before [copy] was
    called, on every path and for every outcome of the platform. *)
Theorem copy_leaves_nothing_behind :
  forall (c : Copy.Copier) (env : Copy.Env) (txt : string) (d : Copy.Dom),
    freshPage d ->
    Copy.timers d = [] ->
    let d' := snd (Copy.copy c env txt d) in
    Copy.body (CopyUi.settle c d') = Copy.body d
    /\ Copy.container (CopyUi.settle c d') = Copy.container d.
Proof.
  intros c env txt d Hfresh Htm. cbv zeta.
  destruct (copy_leaves_one_toast c env txt d (freshPage_freshIds d Hfresh))
    as (b & d' & id & Hrun & Hid & Hbody & Hcont & Htimers).
  rewrite Hrun. cbn [snd].
  apply (settle_one_toast c d' (Copy.body d) (Copy.container d)
           (outcomeToast id b txt) (Copy.toastDuration c)).
  - intros n Hn. specialize (Hfresh n Hn). cbn [outcomeToast Copy.node_id]. lia.
  - exact Hbody.
  - exact Hcont.
  - rewrite Htimers, Htm. reflexivity.
Qed.

Lemma emptyPage_freshPage : freshPage emptyPage.
Proof. intros n Hn. destruct Hn. Defined.

Lemma copy_leaves_nothing_behind_witness :
  Copy.body
    (CopyUi.settle defaultCopier
       (snd (Copy.copy defaultCopier securePlatform "GET /api/users" emptyPage)))
  = Copy.body emptyPage
  /\ Copy.container
       (CopyUi.settle defaultCopier
          (snd (Copy.copy defaultCopier securePlatform "GET /api/users" emptyPage)))
     = Copy.container emptyPage.
Proof.
  apply (copy_leaves_nothing_behind defaultCopier securePlatform "GET /api/users"
           emptyPage).
  - exact emptyPage_freshPage.
  - reflexivity.
Defined.

(** ** Clipboard helper: the buttons *)

(** X29: the buttons of both factories always come back.  A click shows
    the check mark and disables the button, also when the copy fails; one
    restore is set for the toast duration, and when it runs the button has
    its prior text and is enabled again, whatever the outcome of the copy
    was. *)
Theorem copy_button_always_restored :
  forall (c : Copy.Copier) (env : Copy.Env) (method path : string)
         (b : CopyUi.Button) (copyAction : Copy.M bool),
    copyAction = Copy.copyRoute c env method path
    \/ copyAction = Copy.copyArn c env method path None ->
    freshIds (CopyUi.page b) ->
    CopyUi.restores b = [] ->
    let clicked := CopyUi.onClick c copyAction b in
    CopyUi.textContent clicked = "✓"
    /\ CopyUi.disabled clicked = true
    /\ CopyUi.restores clicked = [(Copy.toastDuration c, CopyUi.textContent b)]
    /\ CopyUi.textContent (CopyUi.fireRestore clicked) = CopyUi.textContent b
    /\ CopyUi.disabled (CopyUi.fireRestore clicked) = false
    /\ CopyUi.restores (CopyUi.fireRestore clicked) = [].
Proof.
  intros c env method path b copyAction Hact Hfresh Hres. cbv zeta.
  assert (Hret : exists r d', copyAction (CopyUi.page b) = (Copy.Val r, d')).
  { destruct Hact as [-> | ->].
    - unfold Copy.copyRoute.
      destruct (copy_total c env (method ++ " " ++ path) (CopyUi.page b) Hfresh)
        as (r & d' & H & _); eauto.
    - unfold Copy.copyArn.
      destruct (copy_total c env ("arn:arc:route:" ++ method ++ ":" ++ path)
                  (CopyUi.page b) Hfresh)
        as (r & d' & H & _); eauto. }
  destruct Hret as (r & d' & Hrun).
  unfold CopyUi.onClick. rewrite Hrun, Hres.
  cbn. repeat split.
Qed.

Lemma copy_button_always_restored_witness :
  let b := CopyUi.createButton None "📋" emptyPage in
  let clicked :=
    CopyUi.onClick defaultCopier
      (Copy.copyRoute defaultCopier throwingPlatform "GET" "/api/users") b in
  CopyUi.textContent clicked = "✓"
  /\ CopyUi.disabled clicked = true
  /\ CopyUi.restores clicked
     = [(Copy.toastDuration defaultCopier, CopyUi.textContent b)]
  /\ CopyUi.textContent (CopyUi.fireRestore clicked) = CopyUi.textContent b
  /\ CopyUi.disabled (CopyUi.fireRestore clicked) = false
  /\ CopyUi.restores (CopyUi.fireRestore clicked) = [].
Proof.
  apply (copy_button_always_restored defaultCopier throwingPlatform
           "GET" "/api/users" (CopyUi.createButton None "📋" emptyPage)).
  - left. reflexivity.
  - exact emptyPage_fresh.
  - reflexivity.
Defined.
